(** * surbtc-ann: market-data ingestion, shallow embedding

    Embedding of the three engines of the repository:
    - [Buda]: [BudaMarketTradeEntry] and [BudaMarketTradeList]
      (src/Buda/BudaIntegrationConfig.py), the tick-to-candle aggregation
      and merge over a pandas frame;
    - [KrakenTicket], [KrakenHistorical] and [KrakenSocket]:
      [_ticket_list_to_dict],
      [KrakenHistoricalDataIntegration.parse_response_to_list] and
      [KrakenSocketHandler] (src/krakenWebSocket/KrakenIntegration.py).

    Python floats are binary64 values ([PrimFloat.float]); Python ints are
    [Z]; exceptions are values of [exn] carried by [result]. *)

From Stdlib Require Import ZArith List String Ascii Bool Lia PrimFloat Sorted Permutation.
From Stdlib Require Import FloatAxioms SpecFloat FloatOps.
From Stdlib Require Uint63.
Import ListNotations.

Local Open Scope Z_scope.

(** ** Python runtime: exceptions, decoded JSON values, subscripting *)

Module Py.

Inductive exn : Type :=
| AssertionError
| AttributeError
| IndexError
| KeyError
| RuntimeError
| TypeError
| ValueError
| OverflowError
| OutOfBoundsDatetime
| JSONDecodeError
| TransportError (detail : string).

Inductive result (A : Type) : Type :=
| Ok (a : A)
| Raise (e : exn).

Arguments Ok {A} a.
Arguments Raise {A} e.

Definition bind {A B : Type} (c : result A) (k : A -> result B) : result B :=
  match c with
  | Ok a => k a
  | Raise e => Raise e
  end.

Definition is_ok {A : Type} (c : result A) : bool :=
  match c with
  | Ok _ => true
  | Raise _ => false
  end.

(** What a conversion builtin ([int], [float]) can raise. *)
Inductive conv_error : Type :=
| BadValue
| BadType
| Overflow.

Definition conversion (A : Type) : Type := (A + conv_error)%type.

Definition exn_of_conv (e : conv_error) : exn :=
  match e with
  | BadValue => ValueError
  | BadType => TypeError
  | Overflow => OverflowError
  end.

Definition convert {A : Type} (c : conversion A) : result A :=
  match c with
  | inl a => Ok a
  | inr e => Raise (exn_of_conv e)
  end.

(** What [json.loads] returns, and what the REST client hands over. *)
#[local] Set Warnings "-register-all".
Inductive jvalue : Type :=
| JNull
| JBool (b : bool)
| JInt (z : Z)
| JFloat (f : float)
| JStr (s : string)
| JList (items : list jvalue)
| JObj (fields : list (string * jvalue)).

(** [isinstance(v, list)] *)
Definition is_list (v : jvalue) : bool :=
  match v with
  | JList _ => true
  | _ => false
  end.

(** [l[i]] on a Python list: negative indices count from the end, anything
    out of range raises [IndexError]. *)
Definition py_index {A : Type} (l : list A) (i : Z) : result A :=
  let n := Z.of_nat (List.length l) in
  let j := if i <? 0 then i + n else i in
  if (0 <=? j) && (j <? n)
  then match nth_error l (Z.to_nat j) with
       | Some a => Ok a
       | None => Raise IndexError
       end
  else Raise IndexError.

Fixpoint assoc (k : string) (fields : list (string * jvalue)) : option jvalue :=
  match fields with
  | [] => None
  | (k', v) :: rest => if String.eqb k k' then Some v else assoc k rest
  end.

Fixpoint string_chars (s : string) : list string :=
  match s with
  | EmptyString => []
  | String c rest => String c EmptyString :: string_chars rest
  end.

(** [v[i]] with an integer subscript. *)
Definition subscript (v : jvalue) (i : Z) : result jvalue :=
  match v with
  | JList items => py_index items i
  | JStr s => bind (py_index (string_chars s) i) (fun c => Ok (JStr c))
  | JObj _ => Raise KeyError
  | _ => Raise TypeError
  end.

(** [v[k]] with a string subscript. *)
Definition subscript_key (v : jvalue) (k : string) : result jvalue :=
  match v with
  | JObj fields =>
      match assoc k fields with
      | Some x => Ok x
      | None => Raise KeyError
      end
  | _ => Raise TypeError
  end.

(** *** The builtins on the values the examples use

    [int_builtin] and [float_builtin] compute Python's [int] and [float] on
    JSON numbers and on plain decimal strings (an optional sign, digits, an
    optional fraction) whose digits and power of ten are both binary64
    values, so that one correctly rounded division gives what Python's
    parser gives: at most 2^53 in the digits and at most 18 fraction digits.
    They accept fewer arguments than Python does and report the rest as
    [BadValue]; they are used to run the examples, the methods themselves
    take the builtins as parameters. *)

Definition digit_of (c : ascii) : option Z :=
  let n := Z.of_nat (nat_of_ascii c) in
  if (48 <=? n) && (n <=? 57) then Some (n - 48) else None.

(** Digits read so far, their count, and what follows them. *)
Fixpoint read_digits (s : string) (acc : Z) (count : nat) : Z * nat * string :=
  match s with
  | EmptyString => (acc, count, s)
  | String c rest =>
      match digit_of c with
      | Some d => read_digits rest (10 * acc + d) (S count)
      | None => (acc, count, s)
      end
  end.

Definition read_sign (s : string) : bool * string :=
  match s with
  | String "-"%char rest => (true, rest)
  | String "+"%char rest => (false, rest)
  | _ => (false, s)
  end.

Definition int_of_string (s : string) : option Z :=
  let '(neg, body) := read_sign s in
  match read_digits body 0 0 with
  | (_, O, _) => None
  | (n, _, EmptyString) => Some (if neg then - n else n)
  | _ => None
  end.

Definition float_of_nonneg (n : Z) : float :=
  PrimFloat.of_uint63 (Uint63.of_Z n).

Definition exact_float (neg : bool) (digits : Z) (frac : nat) : conversion float :=
  if (digits <=? 2 ^ 53) && (Nat.leb frac 18)
  then
    let q := PrimFloat.div (float_of_nonneg digits) (float_of_nonneg (10 ^ Z.of_nat frac)) in
    inl (if neg then PrimFloat.opp q else q)
  else inr BadValue.

Definition float_of_string (s : string) : conversion float :=
  let '(neg, body) := read_sign s in
  match read_digits body 0 0 with
  | (n, count, EmptyString) =>
      if Nat.eqb count 0 then inr BadValue else exact_float neg n 0
  | (n, count, String "."%char rest) =>
      match read_digits rest n 0 with
      | (m, frac, EmptyString) =>
          if Nat.eqb (count + frac) 0 then inr BadValue else exact_float neg m frac
      | _ => inr BadValue
      end
  | _ => inr BadValue
  end.

Definition int_builtin (v : jvalue) : conversion Z :=
  match v with
  | JInt z => inl z
  | JBool b => inl (if b then 1 else 0)
  | JStr s =>
      match int_of_string s with
      | Some z => inl z
      | None => inr BadValue
      end
  | JFloat _ => inr BadValue
  | _ => inr BadType
  end.

Definition float_builtin (v : jvalue) : conversion float :=
  match v with
  | JFloat f => inl f
  | JInt z => exact_float (z <? 0) (Z.abs z) 0
  | JStr s => float_of_string s
  | _ => inr BadType
  end.

End Py.

Export Py.

Declare Scope py_scope.
Delimit Scope py_scope with py.
Notation "'let*' x ':=' c 'in' k" :=
  (Py.bind c (fun x => k))
  (at level 10, x name, c at level 100, k at level 200) : py_scope.
Local Open Scope py_scope.

(** ** Buda: trades, the trade list and its pandas frame

    pandas is written out as far as the trade list uses it: a frame is the
    list of its rows in index order; [resample('1H')] sorts the rows by
    index with a stable sort and cuts the span from the first to the last
    row into hourly bins, empty ones included; the reductions skip NaN
    cells, [sum] of no cell being 0; [fillna(method='ffill')] fills down
    each column.  [sum] is the compensated sum of the pandas 1.x group
    reduction.  The index of a frame is a [DatetimeIndex], which pandas 1.x
    keeps in nanoseconds: a timestamp outside [Timestamp.min] ..
    [Timestamp.max] cannot enter it. *)

Module Buda.

(** One hour in milliseconds: the index is read as [M8[ms]] and resampled
    with the ['1H'] rule. *)
Definition HOUR_MS : Z := 3600000.

Definition bucket_of (ts : Z) : Z := ts / HOUR_MS.

Definition bucket_start (b : Z) : Z := b * HOUR_MS.

Definition _TIMESAMP_INDEX : Z := 0.
Definition _AMOUNT_INDEX : Z := 1.
Definition _PRICE_INDEX : Z := 2.
Definition _DIRECTION_INDEX : Z := 3.

Record BudaMarketTradeEntry : Type := mkEntry {
  timestamp : Z;
  amount : float;
  price : float;
  direction : jvalue
}.

(** A row of the aggregated frame: the [date] index in milliseconds and the
    five columns.  A missing cell is NaN, as pandas stores it. *)
Record Candle : Type := mkCandle {
  date : Z;
  open : float;
  high : float;
  low : float;
  close : float;
  volume : float
}.

(** The frames [self.trade_list] can hold.  [TimestampFrame] and
    [TradeFrame] are the frame of raw trades (columns amount and price) that
    [resample_ohlcv] assigns before it aggregates, the first with the
    integer timestamps as its index, the second once the index is a
    [DatetimeIndex]; they stay behind only when the method raises half
    way. *)
Inductive DataFrame : Type :=
| TimestampFrame (rows : list BudaMarketTradeEntry)
| TradeFrame (rows : list BudaMarketTradeEntry)
| OhlcvFrame (rows : list Candle).

Inductive Store : Type :=
| PyList (entries : list BudaMarketTradeEntry)
| PyFrame (df : DataFrame).

Record BudaMarketTradeList : Type := mkTradeList {
  trade_list : Store;
  filter_timestamp : option Z
}.

(** A Python object that is neither [None], nor a list, nor a frame: a
    bool, a number, a string, a dict, a tuple or a single trade entry. *)
Inductive Other : Type :=
| OtherBool (b : bool)
| OtherInt (z : Z)
| OtherFloat (f : float)
| OtherStr (s : string)
| OtherDict (fields : list (string * jvalue))
| OtherTuple (items : list jvalue)
| OtherEntry (entry : BudaMarketTradeEntry).

(** The [existing_entries] argument of the constructor: [None], a list of
    trade entries, a frame, or an object of another class. *)
Inductive Existing : Type :=
| ExNone
| ExList (entries : list BudaMarketTradeEntry)
| ExFrame (df : DataFrame)
| ExOther (v : Other).

(** [existing_entries is not None], negated. *)
Definition is_none (existing_entries : Existing) : bool :=
  match existing_entries with
  | ExNone => true
  | ExList _ | ExFrame _ | ExOther _ => false
  end.

(** [isinstance(existing_entries, (list, pd.DataFrame))]: the list or the
    frame the object is, when it is one. *)
Definition list_or_frame (existing_entries : Existing) : option Store :=
  match existing_entries with
  | ExList l => Some (PyList l)
  | ExFrame df => Some (PyFrame df)
  | ExNone | ExOther _ => None
  end.

(** *** pandas reductions: NaN cells are skipped *)

Definition first_valid (l : list float) : float :=
  match find (fun x => negb (is_nan x)) l with
  | Some x => x
  | None => nan
  end.

Definition last_valid (l : list float) : float := first_valid (rev l).

Definition max_step (acc x : float) : float :=
  if is_nan x then acc
  else if is_nan acc then x
  else if PrimFloat.ltb acc x then x else acc.

Definition min_step (acc x : float) : float :=
  if is_nan x then acc
  else if is_nan acc then x
  else if PrimFloat.ltb x acc then x else acc.

(** One step of the group sum of pandas 1.x ([group_sum]), a compensated
    (Kahan) sum: [acc] is the running sum with its compensation term.
      y = val - compensation;  t = sumx + y;
      compensation = t - sumx - y;  sumx = t *)
Definition sum_step (acc : float * float) (x : float) : float * float :=
  if is_nan x then acc
  else
    let y := PrimFloat.sub x (snd acc) in
    let t := PrimFloat.add (fst acc) y in
    (t, PrimFloat.sub (PrimFloat.sub t (fst acc)) y).

Definition max_valid (l : list float) : float := fold_left max_step l nan.
Definition min_valid (l : list float) : float := fold_left min_step l nan.
(** [sum] with the default [min_count=0]: an empty group sums to 0. *)
Definition sum_valid (l : list float) : float :=
  fst (fold_left sum_step l (PrimFloat.zero, PrimFloat.zero)).

(** *** resampling *)

Section Resample.

Variable Row : Type.
Variable key : Row -> Z.

(** The grouper sorts a non-monotonic index with a stable merge sort; an
    insertion sort that keeps equal keys in arrival order gives the same
    list. *)
Fixpoint insert_row (x : Row) (l : list Row) : list Row :=
  match l with
  | [] => [x]
  | y :: rest => if key x <=? key y then x :: l else y :: insert_row x rest
  end.

Fixpoint sort_rows (l : list Row) : list Row :=
  match l with
  | [] => []
  | x :: rest => insert_row x (sort_rows rest)
  end.

Definition rows_in_bucket (b : Z) (l : list Row) : list Row :=
  filter (fun r => bucket_of (key r) =? b) l.

(** The hourly bins from the first to the last row of a sorted frame, empty
    ones included. *)
Definition bins (sorted : list Row) : list Z :=
  match sorted with
  | [] => []
  | r :: _ =>
      let lo := bucket_of (key r) in
      let hi := bucket_of (key (last sorted r)) in
      map (fun k => lo + Z.of_nat k) (seq 0 (Z.to_nat (hi - lo + 1)))
  end.

(** [resample('1H')] followed by a per-bin reduction [agg]. *)
Definition resample (agg : Z -> list Row -> Candle) (l : list Row) : list Candle :=
  let sorted := sort_rows l in
  map (fun b => agg b (rows_in_bucket b sorted)) (bins sorted).

End Resample.

Arguments insert_row {Row} key x l.
Arguments sort_rows {Row} key l.
Arguments rows_in_bucket {Row} key b l.
Arguments bins {Row} key sorted.
Arguments resample {Row} key agg l.

(** [.ohlc()] on the price column, with the [sum] of the amount column. *)
Definition ohlc_of_trades (b : Z) (group : list BudaMarketTradeEntry) : Candle :=
  let prices := map price group in
  {| date := bucket_start b;
     open := first_valid prices;
     high := max_valid prices;
     low := min_valid prices;
     close := last_valid prices;
     volume := sum_valid (map amount group) |}.

(** [.agg({'open': 'first', 'high': 'max', 'low': 'min', 'close': 'last',
    'volume': 'sum'})] *)
Definition agg_candles (b : Z) (group : list Candle) : Candle :=
  {| date := bucket_start b;
     open := first_valid (map open group);
     high := max_valid (map high group);
     low := min_valid (map low group);
     close := last_valid (map close group);
     volume := sum_valid (map volume group) |}.

Definition fill (prev x : float) : float := if is_nan x then prev else x.

(** [fillna(method='ffill')] works column by column: a NaN cell takes the
    last valid value above it in its own column. *)
Definition fill_ohlc (prev r : Candle) : Candle :=
  {| date := date r;
     open := fill (open prev) (open r);
     high := fill (high prev) (high r);
     low := fill (low prev) (low r);
     close := fill (close prev) (close r);
     volume := volume r |}.

Definition fill_ohlcv (prev r : Candle) : Candle :=
  {| date := date r;
     open := fill (open prev) (open r);
     high := fill (high prev) (high r);
     low := fill (low prev) (low r);
     close := fill (close prev) (close r);
     volume := fill (volume prev) (volume r) |}.

Fixpoint ffill (f : Candle -> Candle -> Candle) (prev : Candle) (rows : list Candle)
  : list Candle :=
  match rows with
  | [] => []
  | r :: rest => let r' := f prev r in r' :: ffill f r' rest
  end.

Definition nan_candle (d : Z) : Candle :=
  {| date := d; open := nan; high := nan; low := nan; close := nan; volume := nan |}.

(** The rows a frame contributes to [DataFrame.append]: a frame of raw trades
    has none of the five columns, so its rows come out as NaN. *)
Definition candle_rows (df : DataFrame) : list Candle :=
  match df with
  | OhlcvFrame rows => rows
  | TradeFrame rows | TimestampFrame rows =>
      map (fun e => nan_candle (timestamp e)) rows
  end.

Definition has_ohlcv (df : DataFrame) : bool :=
  match df with
  | OhlcvFrame _ => true
  | TradeFrame _ | TimestampFrame _ => false
  end.

(** The index of the frame is a [DatetimeIndex]. *)
Definition has_datetime_index (df : DataFrame) : bool :=
  match df with
  | OhlcvFrame _ | TradeFrame _ => true
  | TimestampFrame _ => false
  end.

(** [Timestamp.max] in milliseconds: a pandas 1.x timestamp is an int64 of
    nanoseconds, so it lies at most 2^63 - 1 nanoseconds from the epoch,
    before or after. *)
Definition TIMESTAMP_MAX_MS : Z := (2 ^ 63 - 1) / 1000000.

Definition in_datetime_range (ts : Z) : bool :=
  (- TIMESTAMP_MAX_MS <=? ts) && (ts <=? TIMESTAMP_MAX_MS).

(** No cell of the row is missing. *)
Definition valid_candle (r : Candle) : bool :=
  negb (is_nan (open r)) && negb (is_nan (high r)) && negb (is_nan (low r)) &&
  negb (is_nan (close r)) && negb (is_nan (volume r)).

Section Methods.

(** The builtins [int] and [float] on a decoded wire value. *)
Variable py_int : jvalue -> conversion Z.
Variable py_float : jvalue -> conversion float.

(** [BudaMarketTradeEntry.__init__] *)
Definition new_entry (entry : jvalue) : result BudaMarketTradeEntry :=
  let* t := subscript entry _TIMESAMP_INDEX in
  let* ts := convert (py_int t) in
  let* a := subscript entry _AMOUNT_INDEX in
  let* am := convert (py_float a) in
  let* p := subscript entry _PRICE_INDEX in
  let* pr := convert (py_float p) in
  let* d := subscript entry _DIRECTION_INDEX in
  Ok (mkEntry ts am pr d).

(** [BudaMarketTradeList.__init__] *)
Definition init (existing_entries : Existing) (filter : option Z)
  : result BudaMarketTradeList :=
  let self := mkTradeList (PyList []) filter in
  if is_none existing_entries then Ok self
  else
    match list_or_frame existing_entries with
    | Some existing => Ok (mkTradeList existing filter)
    | None => Raise AssertionError
    end.

Definition is_resampled (self : BudaMarketTradeList) : bool :=
  match trade_list self with
  | PyFrame _ => true
  | PyList _ => false
  end.

Definition set_store (self : BudaMarketTradeList) (s : Store) : BudaMarketTradeList :=
  mkTradeList s (filter_timestamp self).

(** The loop of [append_raw]: entries are built and appended one at a time,
    so an entry that fails to convert leaves the earlier ones appended. *)
Fixpoint append_loop (acc : list BudaMarketTradeEntry) (new_entries : list jvalue)
  : list BudaMarketTradeEntry * result unit :=
  match new_entries with
  | [] => (acc, Ok tt)
  | entry :: rest =>
      match new_entry entry with
      | Ok e => append_loop (acc ++ [e]) rest
      | Raise ex => (acc, Raise ex)
      end
  end.

(** [append_raw]: the instance after the call and the value or exception. *)
Definition append_raw (self : BudaMarketTradeList) (new_entries : list jvalue)
  : BudaMarketTradeList * result (list BudaMarketTradeEntry) :=
  match trade_list self with
  | PyFrame _ => (self, Raise AssertionError)
  | PyList l =>
      match append_loop l new_entries with
      | (l', Ok _) => (set_store self (PyList l'), Ok l')
      | (l', Raise ex) => (set_store self (PyList l'), Raise ex)
      end
  end.

(** [_filter_by_timestamp] as [resample_ohlcv] reaches it: the frame has the
    columns amount and price only, the timestamps being its index, so the
    attribute lookup [self.trade_list.timestamp] raises. *)
Definition _filter_by_timestamp (self : BudaMarketTradeList) : result unit :=
  match filter_timestamp self, trade_list self with
  | Some _, PyFrame _ => Raise AttributeError
  | _, _ => Ok tt
  end.

Definition ohlcv_of_trades (l : list BudaMarketTradeEntry) : list Candle :=
  ffill fill_ohlc (nan_candle 0) (resample timestamp ohlc_of_trades l).

(** [resample_ohlcv].  A frame iterates over its column names, which have
    no [to_dict]; the frame of no entry has no timestamp column to index
    by.  The frame of the entries is assigned first, indexed by timestamp;
    then the timestamps are made the [DatetimeIndex] in place, which raises
    for a timestamp out of range and leaves the frame as it was; then the
    filter runs and the frame is aggregated. *)
Definition resample_ohlcv (self : BudaMarketTradeList)
  : BudaMarketTradeList * result DataFrame :=
  match trade_list self with
  | PyFrame _ => (self, Raise AttributeError)
  | PyList [] => (self, Raise KeyError)
  | PyList l =>
      if forallb in_datetime_range (map timestamp l)
      then
        let self1 := set_store self (PyFrame (TradeFrame l)) in
        match _filter_by_timestamp self1 with
        | Raise ex => (self1, Raise ex)
        | Ok _ =>
            let ohlcv := OhlcvFrame (ohlcv_of_trades l) in
            (set_store self1 (PyFrame ohlcv), Ok ohlcv)
        end
      else (set_store self (PyFrame (TimestampFrame l)), Raise OutOfBoundsDatetime)
  end.

(** [append_and_resample] *)
Definition append_and_resample (self : BudaMarketTradeList) (new_entries : list jvalue)
  : BudaMarketTradeList * result DataFrame :=
  match append_raw self new_entries with
  | (self1, Raise ex) => (self1, Raise ex)
  | (self1, Ok _) => resample_ohlcv self1
  end.

Definition merge_rows (l : list Candle) : list Candle :=
  ffill fill_ohlcv (nan_candle 0) (resample date agg_candles l).

(** The argument of [merge]: another trade list, or any other object. *)
Inductive MergeArg : Type :=
| ArgTradeList (other : BudaMarketTradeList)
| ArgObject (v : jvalue).

(** [self.trade_list.append(...)], the hourly [agg] and the fill, once both
    sides are frames.  When a frame is still indexed by integer timestamps,
    the index of the appended frame is no [DatetimeIndex] and [resample]
    raises [TypeError].  When neither frame has the five columns, [agg] has
    nothing to reduce and raises ([KeyError] in pandas 1.3, its own
    [SpecificationError] before). *)
Definition merge_frames (self : BudaMarketTradeList) (sdf odf : DataFrame)
  : BudaMarketTradeList * result DataFrame :=
  if negb (has_datetime_index sdf && has_datetime_index odf)
  then (self, Raise TypeError)
  else if has_ohlcv sdf || has_ohlcv odf
  then
    let merged := OhlcvFrame (merge_rows (candle_rows sdf ++ candle_rows odf)) in
    (set_store self (PyFrame merged), Ok merged)
  else (self, Raise KeyError).

(** [merge] *)
Definition merge (self : BudaMarketTradeList) (arg : MergeArg)
  : BudaMarketTradeList * result DataFrame :=
  match arg with
  | ArgObject _ => (self, Raise TypeError)
  | ArgTradeList other =>
      match trade_list other with
      | PyList _ => (self, Raise ValueError)
      | PyFrame odf =>
          match trade_list self with
          | PyFrame sdf => merge_frames self sdf odf
          | PyList _ =>
              match resample_ohlcv self with
              | (self1, Ok sdf) => merge_frames self1 sdf odf
              | (self1, Raise ex) => (self1, Raise ex)
              end
          end
      end
  end.



(** *** The two modes of a trade list *)

Lemma new_entry_not_assertion (entry : jvalue) :
  new_entry entry <> Raise AssertionError.
Proof.
  unfold new_entry.
  assert (Hidx : forall (A : Type) (l : list A) i, py_index l i <> Raise AssertionError).
  { intros A l i. unfold py_index.
    destruct ((0 <=? _) && _); [destruct (nth_error _ _)|]; discriminate. }
  assert (Hsub : forall v i, subscript v i <> Raise AssertionError).
  { intros v i. destruct v; simpl; try discriminate.
    - specialize (Hidx _ (string_chars s) i).
      destruct (py_index (string_chars s) i); simpl; [discriminate | congruence].
    - apply Hidx. }
  assert (Hconv : forall (A : Type) (c : conversion A), convert c <> Raise AssertionError).
  { intros A [a | []]; discriminate. }
  repeat match goal with
  | |- Py.bind ?c _ <> _ =>
      let H := fresh "E" in
      destruct c eqn:H; simpl;
      [ | intro X; injection X as ->;
          first [ eapply Hsub; eassumption | eapply Hconv; eassumption ] ]
  end.
  discriminate.
Qed.

Lemma append_loop_spec (new_entries : list jvalue) :
  forall acc acc' r,
    append_loop acc new_entries = (acc', r) ->
    exists added,
      acc' = acc ++ added /\
      r <> Raise AssertionError /\
      map new_entry (firstn (List.length added) new_entries) = map Ok added /\
      (is_ok r = true -> List.length added = List.length new_entries).
Proof.
  induction new_entries as [| entry rest IH]; intros acc acc' r H; simpl in H.
  - injection H as <- <-. exists []. rewrite app_nil_r. repeat split; discriminate.
  - destruct (new_entry entry) as [e | ex] eqn:E.
    + destruct (IH _ _ _ H) as (added & -> & Hr & Hmap & Hlen).
      exists (e :: added). rewrite <- app_assoc. simpl.
      split; [reflexivity |]. split; [exact Hr |]. split.
      * now rewrite E, Hmap.
      * intros Hok. now rewrite (Hlen Hok).
    + injection H as <- <-. exists []. rewrite app_nil_r.
      split; [reflexivity |]. split; [| split; [reflexivity | discriminate]].
      intros X. injection X as ->. now apply (new_entry_not_assertion entry).
Qed.

(** C10.  A trade list is in aggregated mode exactly when [trade_list] holds
    a frame.  The constructor keeps a list (raw mode; the empty list when
    [None] is given), keeps a frame as it is (aggregated mode, with no call
    of [resample_ohlcv]), and raises [AssertionError] for a value of any
    other class: a bool, a number, a string, a dict, a tuple, an entry. *)
Theorem init_mode_is_backing_store :
  forall (existing_entries : Existing) (filter : option Z),
    (forall self, is_resampled self = true <-> exists df, trade_list self = PyFrame df) /\
    match existing_entries, init existing_entries filter with
    | ExNone, Ok self =>
        trade_list self = PyList [] /\ is_resampled self = false /\
        filter_timestamp self = filter
    | ExList l, Ok self =>
        trade_list self = PyList l /\ is_resampled self = false /\
        filter_timestamp self = filter
    | ExFrame df, Ok self =>
        trade_list self = PyFrame df /\ is_resampled self = true /\
        filter_timestamp self = filter
    | ExOther _, Raise e => e = AssertionError
    | _, _ => False
    end.
Proof.
  intros existing_entries filter. split.
  - intros self. unfold is_resampled. destruct (trade_list self) as [l | df]; split.
    + discriminate.
    + intros [df H]. discriminate.
    + intros _. now exists df.
    + reflexivity.
  - destruct existing_entries; simpl; auto.
Qed.

Lemma append_loop_all (new_entries : list jvalue) :
  forall acc es,
    map new_entry new_entries = map Ok es ->
    append_loop acc new_entries = (acc ++ es, Ok tt).
Proof.
  induction new_entries as [| entry rest IH]; intros acc es H;
    destruct es as [| e es]; try discriminate; simpl in *.
  - now rewrite app_nil_r.
  - injection H as He Hrest. rewrite He, (IH _ _ Hrest), <- app_assoc. reflexivity.
Qed.

(** C9.  [append_raw] raises the usage error ([AssertionError]) if and only
    if the instance is aggregated, and then changes nothing.  On a raw
    instance it appends the converted entries behind the old ones in arrival
    order and the instance stays raw: all of them when every entry converts,
    and those before the first entry that does not convert otherwise. *)
Theorem append_raw_usage_error :
  forall (self : BudaMarketTradeList) (new_entries : list jvalue),
    let self' := fst (append_raw self new_entries) in
    let r := snd (append_raw self new_entries) in
    (r = Raise AssertionError <-> is_resampled self = true) /\
    (is_resampled self = true -> self' = self) /\
    (is_resampled self = false ->
       is_resampled self' = false /\
       filter_timestamp self' = filter_timestamp self /\
       exists old added,
         trade_list self = PyList old /\
         trade_list self' = PyList (old ++ added) /\
         map new_entry (firstn (List.length added) new_entries) = map Ok added /\
         (forall es, map new_entry new_entries = map Ok es ->
            added = es /\ r = Ok (old ++ es))).
Proof.
  intros self new_entries. unfold append_raw, is_resampled.
  destruct (trade_list self) as [old | df] eqn:Hs; simpl.
  - destruct (append_loop old new_entries) as [l' r0] eqn:Hloop.
    destruct (append_loop_spec _ _ _ _ Hloop) as (added & -> & Hr & Hmap & Hlen).
    assert (Hres : snd (let (l', r) := (old ++ added, r0) in
                        match r with
                        | Ok _ => (set_store self (PyList l'), Ok l')
                        | Raise ex => (set_store self (PyList l'), Raise ex)
                        end) <> Raise AssertionError).
    { destruct r0; simpl; [discriminate | intros X; apply Hr; congruence]. }
    split; [split; [intros X; now elim Hres | discriminate] |].
    split; [discriminate |]. intros _.
    assert (Hall : forall es, map new_entry new_entries = map Ok es ->
                              added = es /\ r0 = Ok tt).
    { intros es Hes. rewrite (append_loop_all _ old es Hes) in Hloop.
      injection Hloop as Happ <-. split; [| reflexivity].
      symmetry. now apply app_inv_head in Happ. }
    destruct r0 as [u | ex]; simpl.
    + split; [reflexivity |]. split; [reflexivity |].
      exists old, added. split; [reflexivity |]. split; [reflexivity |].
      split; [exact Hmap |].
      intros es Hes. destruct (Hall es Hes) as [<- _]. now split.
    + split; [reflexivity |]. split; [reflexivity |].
      exists old, added. split; [reflexivity |]. split; [reflexivity |].
      split; [exact Hmap |].
      intros es Hes. destruct (Hall es Hes) as [_ X]. discriminate.
  - split; [split; reflexivity |]. split; [reflexivity | discriminate].
Qed.

(** *** Sorting, binning and filling *)

Section ResampleFacts.

Context {Row : Type} (key : Row -> Z).

Definition key_le (x y : Row) : Prop := key x <= key y.

Lemma insert_row_in (x y : Row) (l : list Row) :
  In y (insert_row key x l) <-> y = x \/ In y l.
Proof.
  induction l as [| z l IH]; simpl.
  - intuition.
  - destruct (key x <=? key z); simpl; [intuition | rewrite IH; intuition].
Qed.

Lemma sort_rows_in (y : Row) (l : list Row) :
  In y (sort_rows key l) <-> In y l.
Proof.
  induction l as [| x l IH]; simpl; [reflexivity |].
  rewrite insert_row_in, IH. intuition.
Qed.

Lemma insert_row_sorted (x : Row) (l : list Row) :
  StronglySorted key_le l -> StronglySorted key_le (insert_row key x l).
Proof.
  induction 1 as [| z l Hl IH Hz]; simpl.
  - constructor; constructor.
  - destruct (key x <=? key z) eqn:E.
    + apply Z.leb_le in E. constructor; [constructor; assumption |].
      constructor; [exact E |].
      eapply Forall_impl; [| exact Hz]. unfold key_le. intros; lia.
    + apply Z.leb_gt in E. constructor; [exact IH |].
      apply Forall_forall. intros y Hy. apply insert_row_in in Hy as [-> | Hy].
      * unfold key_le; lia.
      * rewrite Forall_forall in Hz. now apply Hz.
Qed.

Lemma sort_rows_sorted (l : list Row) :
  StronglySorted key_le (sort_rows key l).
Proof.
  induction l; simpl; [constructor | now apply insert_row_sorted].
Qed.

Lemma insert_row_head (x : Row) (l : list Row) :
  Forall (key_le x) l -> insert_row key x l = x :: l.
Proof.
  destruct 1 as [| z l Hz _]; simpl; [reflexivity |].
  unfold key_le in Hz. apply Z.leb_le in Hz. now rewrite Hz.
Qed.

(** A stable sort commutes with selecting the rows of a bin. *)
Lemma filter_insert_row (p : Row -> bool) (x : Row) (l : list Row) :
  StronglySorted key_le l ->
  filter p (insert_row key x l) =
  if p x then insert_row key x (filter p l) else filter p l.
Proof.
  induction 1 as [| z l Hl IH Hz]; simpl.
  - now destruct (p x).
  - destruct (key x <=? key z) eqn:E; simpl.
    + apply Z.leb_le in E. destruct (p x) eqn:Px; [| reflexivity].
      symmetry. apply insert_row_head.
      apply Forall_forall. intros y Hy.
      assert (Hy' : In y (z :: l)).
      { destruct (p z); [destruct Hy as [<- | Hy]; [now left |] |];
          right; now apply filter_In in Hy. }
      destruct Hy' as [<- | Hy']; [exact E |].
      rewrite Forall_forall in Hz. specialize (Hz _ Hy').
      unfold key_le in *. lia.
    + rewrite IH. destruct (p z), (p x); simpl; try rewrite E; reflexivity.
Qed.

Lemma filter_sort_rows (p : Row -> bool) (l : list Row) :
  filter p (sort_rows key l) = sort_rows key (filter p l).
Proof.
  induction l as [| x l IH]; simpl; [reflexivity |].
  rewrite filter_insert_row by apply sort_rows_sorted.
  rewrite IH. now destruct (p x).
Qed.

Lemma rows_in_bucket_sorted (b : Z) (l : list Row) :
  rows_in_bucket key b (sort_rows key l) = sort_rows key (rows_in_bucket key b l).
Proof. apply filter_sort_rows. Qed.

Lemma bucket_of_mono (a b : Z) : a <= b -> bucket_of a <= bucket_of b.
Proof. intros H. unfold bucket_of, HOUR_MS. apply Z.div_le_mono; lia. Qed.

Lemma bucket_of_start (b : Z) : bucket_of (bucket_start b) = b.
Proof. unfold bucket_of, bucket_start, HOUR_MS. apply Z.div_mul. lia. Qed.

Lemma sorted_last_max (l : list Row) (d : Row) :
  StronglySorted key_le l -> forall y, In y l -> key y <= key (last l d).
Proof.
  induction 1 as [| z l Hl IH Hz]; intros y Hy; [contradiction |].
  destruct l as [| z' l'].
  - destruct Hy as [<- | []]. simpl. lia.
  - change (last (z :: z' :: l') d) with (last (z' :: l') d).
    destruct Hy as [<- | Hy]; [| now apply IH].
    rewrite Forall_forall in Hz.
    assert (key_le z z') by (apply Hz; now left).
    assert (key z' <= key (last (z' :: l') d)) by (apply IH; now left).
    unfold key_le in *. lia.
Qed.

(** Every row of a frame falls in one of its bins. *)
Lemma bins_cover (l : list Row) (y : Row) :
  In y l -> In (bucket_of (key y)) (bins key (sort_rows key l)).
Proof.
  intros Hy. apply (sort_rows_in y) in Hy.
  pose proof (sort_rows_sorted l) as Hs.
  unfold bins. destruct (sort_rows key l) as [| r rest] eqn:E; [contradiction |].
  set (lo := bucket_of (key r)). set (hi := bucket_of (key (last (r :: rest) r))).
  assert (Hlo : lo <= bucket_of (key y)).
  { apply bucket_of_mono. destruct Hy as [<- | Hy]; [lia |].
    inversion Hs as [| ? ? _ Hz]; subst. rewrite Forall_forall in Hz. now apply Hz. }
  assert (Hhi : bucket_of (key y) <= hi).
  { apply bucket_of_mono. now apply sorted_last_max. }
  apply in_map_iff. exists (Z.to_nat (bucket_of (key y) - lo)). split; [lia |].
  apply in_seq. lia.
Qed.

Lemma bins_nth (sorted : list Row) (i : nat) (b : Z) :
  nth_error (bins key sorted) i = Some b ->
  forall j b', nth_error (bins key sorted) j = Some b' -> b' - b = Z.of_nat j - Z.of_nat i.
Proof.
  unfold bins. destruct sorted as [| r rest]; [now destruct i |].
  intros Hi j b' Hj.
  rewrite nth_error_map in Hi, Hj.
  destruct (nth_error (seq _ _) i) as [k |] eqn:Ei; [| discriminate].
  destruct (nth_error (seq _ _) j) as [k' |] eqn:Ej; [| discriminate].
  simpl in Hi, Hj. injection Hi as <-. injection Hj as <-.
  pose proof (nth_error_Some (seq 0 (Z.to_nat (bucket_of (key (last (r :: rest) r)) - bucket_of (key r) + 1))) i) as Li.
  pose proof (nth_error_Some (seq 0 (Z.to_nat (bucket_of (key (last (r :: rest) r)) - bucket_of (key r) + 1))) j) as Lj.
  rewrite Ei in Li. rewrite Ej in Lj.
  assert (Hi' : (i < List.length (seq 0 (Z.to_nat (bucket_of (key (last (r :: rest) r)) - bucket_of (key r) + 1))))%nat)
    by (apply Li; discriminate).
  assert (Hj' : (j < List.length (seq 0 (Z.to_nat (bucket_of (key (last (r :: rest) r)) - bucket_of (key r) + 1))))%nat)
    by (apply Lj; discriminate).
  rewrite length_seq in Hi', Hj'.
  rewrite (nth_error_nth' _ 0%nat) in Ei by (rewrite length_seq; exact Hi').
  rewrite (nth_error_nth' _ 0%nat) in Ej by (rewrite length_seq; exact Hj').
  rewrite seq_nth in Ei, Ej by assumption.
  injection Ei as <-. injection Ej as <-. lia.
Qed.

End ResampleFacts.

Lemma ffill_length (f : Candle -> Candle -> Candle) (rows : list Candle) :
  forall prev, List.length (ffill f prev rows) = List.length rows.
Proof. induction rows; simpl; intros; [reflexivity | now rewrite IHrows]. Qed.

(** Every row of a filled frame is a row of the frame, filled from some row. *)
Lemma ffill_nth (f : Candle -> Candle -> Candle) (rows : list Candle) :
  forall prev i r,
    nth_error (ffill f prev rows) i = Some r ->
    exists x p, nth_error rows i = Some x /\ r = f p x.
Proof.
  induction rows as [| x rows IH]; intros prev i r H; simpl in H.
  - now destruct i.
  - destruct i as [| i]; simpl in *.
    + injection H as <-. now exists x, prev.
    + now apply IH in H.
Qed.

(** Below the first row, a row is filled from the filled row just above. *)
Lemma ffill_nth_succ (f : Candle -> Candle -> Candle) (rows : list Candle) :
  forall prev i p r,
    nth_error (ffill f prev rows) i = Some p ->
    nth_error (ffill f prev rows) (S i) = Some r ->
    exists x, nth_error rows (S i) = Some x /\ r = f p x.
Proof.
  induction rows as [| x rows IH]; intros prev i p r Hp Hr; simpl in *.
  - now destruct i.
  - destruct i as [| i]; simpl in *.
    + injection Hp as <-. destruct rows as [| y rows]; simpl in *; [discriminate |].
      injection Hr as <-. now exists y.
    + eapply IH; eassumption.
Qed.

Lemma ffill_in (f : Candle -> Candle -> Candle) (rows : list Candle) (x : Candle) :
  forall prev, In x rows -> exists p, In (f p x) (ffill f prev rows).
Proof.
  induction rows as [| y rows IH]; intros prev Hx; [contradiction |].
  destruct Hx as [-> | Hx]; simpl.
  - exists prev. now left.
  - destruct (IH (f prev y) Hx) as [p Hp]. exists p. now right.
Qed.

(** Two consecutive rows of a resampled and filled frame: the lower one is
    the reduction of its bin, filled from the upper one, one hour later. *)
Lemma filled_row_below {Row : Type} (key : Row -> Z)
      (agg : Z -> list Row -> Candle) (f : Candle -> Candle -> Candle)
      (l : list Row) (i : nat) (p r : Candle) :
  (forall prev x, date (f prev x) = date x) ->
  (forall b g, date (agg b g) = bucket_start b) ->
  nth_error (ffill f (nan_candle 0) (resample key agg l)) i = Some p ->
  nth_error (ffill f (nan_candle 0) (resample key agg l)) (S i) = Some r ->
  date p = date r - HOUR_MS /\
  r = f p (agg (bucket_of (date r))
               (sort_rows key (rows_in_bucket key (bucket_of (date r)) l))).
Proof.
  intros Hf Hagg Hp Hr.
  destruct (ffill_nth_succ _ _ _ _ _ _ Hp Hr) as (x & Hx & ->).
  destruct (ffill_nth _ _ _ _ _ Hp) as (y & q & Hy & ->).
  unfold resample in Hx, Hy. rewrite nth_error_map in Hx, Hy.
  destruct (nth_error (bins key (sort_rows key l)) (S i)) as [b |] eqn:Eb; [| discriminate].
  destruct (nth_error (bins key (sort_rows key l)) i) as [b' |] eqn:Eb'; [| discriminate].
  simpl in Hx, Hy. injection Hx as <-. injection Hy as <-.
  pose proof (bins_nth key _ _ _ Eb' _ _ Eb) as Hd.
  rewrite !Hf, !Hagg, bucket_of_start, !rows_in_bucket_sorted.
  split; [| reflexivity].
  unfold bucket_start, HOUR_MS. lia.
Qed.

Lemma fill_nan (prev : float) : fill prev nan = prev.
Proof. reflexivity. Qed.

Lemma fill_valid (prev x : float) : is_nan x = false -> fill prev x = x.
Proof. unfold fill. now intros ->. Qed.

(** What [merge] reduces: the rows of [self] (aggregated first when it is
    still raw) followed by the rows of the other list. *)
Lemma merge_result (self other : BudaMarketTradeList) (out : list Candle) :
  snd (merge self (ArgTradeList other)) = Ok (OhlcvFrame out) ->
  exists srows odf,
    trade_list other = PyFrame odf /\
    out = merge_rows (srows ++ candle_rows odf) /\
    match trade_list self with
    | PyFrame sdf => srows = candle_rows sdf
    | PyList l => srows = ohlcv_of_trades l
    end.
Proof.
  unfold merge. destruct (trade_list other) as [| odf]; [discriminate |].
  assert (Hmf : forall s sdf,
             snd (merge_frames s sdf odf) = Ok (OhlcvFrame out) ->
             out = merge_rows (candle_rows sdf ++ candle_rows odf)).
  { intros s sdf. unfold merge_frames.
    destruct (negb (has_datetime_index sdf && has_datetime_index odf));
      [discriminate |].
    destruct (has_ohlcv sdf || has_ohlcv odf); simpl; [| discriminate].
    intros X. now injection X as <-. }
  destruct (trade_list self) as [l | sdf] eqn:Hs.
  - unfold resample_ohlcv. rewrite Hs.
    destruct l as [| e l]; [discriminate |].
    destruct (forallb in_datetime_range (map timestamp (e :: l))); [| discriminate].
    unfold _filter_by_timestamp. simpl.
    destruct (filter_timestamp self); [discriminate |].
    intros H. apply Hmf in H. now exists (ohlcv_of_trades (e :: l)), odf.
  - intros H. apply Hmf in H. now exists (candle_rows sdf), odf.
Qed.

Lemma resample_result (self : BudaMarketTradeList) (out : list Candle) :
  snd (resample_ohlcv self) = Ok (OhlcvFrame out) ->
  exists l, trade_list self = PyList l /\ out = ohlcv_of_trades l.
Proof.
  unfold resample_ohlcv. destruct (trade_list self) as [l | df]; [| discriminate].
  destruct l as [| e l]; [discriminate |].
  destruct (forallb in_datetime_range (map timestamp (e :: l))); [| discriminate].
  unfold _filter_by_timestamp. simpl.
  destruct (filter_timestamp self); [discriminate |]. simpl.
  intros X. injection X as <-. now exists (e :: l).
Qed.

(** C5, as the code has it.  In the frame [resample_ohlcv] returns, a bin
    with no trade gets its open, high, low and close each from the same
    column of the row above (not all four from the close above), and volume
    0.  In the frame [merge] returns, a bin with no row of either side is
    filled the same way, with volume 0. *)
Theorem empty_bucket_filled_columnwise :
  (forall (self : BudaMarketTradeList) (l : list BudaMarketTradeEntry)
          (out : list Candle) (i : nat) (p r : Candle),
      trade_list self = PyList l ->
      snd (resample_ohlcv self) = Ok (OhlcvFrame out) ->
      nth_error out i = Some p ->
      nth_error out (S i) = Some r ->
      rows_in_bucket timestamp (bucket_of (date r)) l = [] ->
      date p = date r - HOUR_MS /\
      open r = open p /\ high r = high p /\ low r = low p /\ close r = close p /\
      volume r = 0%float) /\
  (forall (self other : BudaMarketTradeList) (sdf odf : DataFrame)
          (out : list Candle) (i : nat) (p r : Candle),
      trade_list self = PyFrame sdf ->
      trade_list other = PyFrame odf ->
      snd (merge self (ArgTradeList other)) = Ok (OhlcvFrame out) ->
      nth_error out i = Some p ->
      nth_error out (S i) = Some r ->
      rows_in_bucket date (bucket_of (date r)) (candle_rows sdf ++ candle_rows odf) = [] ->
      date p = date r - HOUR_MS /\
      open r = open p /\ high r = high p /\ low r = low p /\ close r = close p /\
      volume r = 0%float).
Proof.
  split.
  - intros self l out i p r Hs Hres Hp Hr Hempty.
    destruct (resample_result _ _ Hres) as (l' & Hs' & ->).
    rewrite Hs in Hs'. injection Hs' as <-.
    unfold ohlcv_of_trades in Hp, Hr.
    destruct (filled_row_below timestamp ohlc_of_trades fill_ohlc l i p r) as [Hd E];
      auto.
    rewrite Hempty in E. split; [exact Hd |]. rewrite E. simpl. now rewrite !fill_nan.
  - intros self other sdf odf out i p r Hs Ho Hres Hp Hr Hempty.
    destruct (merge_result _ _ _ Hres) as (srows & odf' & Ho' & -> & Hrows).
    rewrite Ho in Ho'. injection Ho' as <-. rewrite Hs in Hrows. subst srows.
    unfold merge_rows in Hp, Hr.
    destruct (filled_row_below date agg_candles fill_ohlcv
                (candle_rows sdf ++ candle_rows odf) i p r) as [Hd E]; auto.
    rewrite Hempty in E. split; [exact Hd |]. rewrite E. simpl. now rewrite !fill_nan.
Qed.

Lemma valid_candle_cells (r : Candle) :
  valid_candle r = true ->
  is_nan (open r) = false /\ is_nan (high r) = false /\ is_nan (low r) = false /\
  is_nan (close r) = false /\ is_nan (volume r) = false.
Proof.
  unfold valid_candle. rewrite !andb_true_iff, !negb_true_iff. tauto.
Qed.

Lemma is_nan_nan : is_nan nan = true.
Proof. reflexivity. Qed.

Lemma first_valid_head (x : float) (l : list float) :
  is_nan x = false -> first_valid (x :: l) = x.
Proof. intros H. unfold first_valid. simpl. now rewrite H. Qed.

Lemma max_valid_pair (x y : float) :
  is_nan x = false -> is_nan y = false ->
  max_valid [x; y] = if PrimFloat.ltb x y then y else x.
Proof.
  intros Hx Hy. unfold max_valid. simpl. unfold max_step.
  now rewrite Hx, Hy, is_nan_nan, Hx.
Qed.

Lemma min_valid_pair (x y : float) :
  is_nan x = false -> is_nan y = false ->
  min_valid [x; y] = if PrimFloat.ltb y x then y else x.
Proof.
  intros Hx Hy. unfold min_valid. simpl. unfold min_step.
  now rewrite Hx, Hy, is_nan_nan, Hx.
Qed.

(** Binary64 facts the compensated sum rests on. *)
Lemma sub_zero (x : float) : PrimFloat.sub x 0 = x.
Proof.
  apply Prim2SF_inj. rewrite sub_spec.
  change (Prim2SF 0) with (S754_zero false).
  unfold SF64sub, SFsub. destruct (Prim2SF x) as [[] | [] | | s m e]; reflexivity.
Qed.

Lemma is_nan_spec (x : float) : is_nan x = false -> Prim2SF x <> S754_nan.
Proof.
  unfold is_nan. rewrite eqb_spec. intros H E. rewrite E in H. discriminate.
Qed.

Lemma is_infinity_spec (x : float) (s : bool) :
  is_infinity x = false -> Prim2SF x <> S754_infinity s.
Proof.
  unfold is_infinity. rewrite eqb_spec, abs_spec. intros H E. rewrite E in H.
  discriminate.
Qed.

(** The compensation term of a finite first addend is 0. *)
Lemma compensation_finite (x : float) :
  is_nan x = false -> is_infinity x = false ->
  PrimFloat.sub (PrimFloat.sub (PrimFloat.add 0 x) 0) x = 0%float.
Proof.
  intros N I. apply Prim2SF_inj.
  rewrite sub_spec, sub_spec, add_spec.
  change (Prim2SF 0) with (S754_zero false).
  pose proof (is_nan_spec x N) as Hn.
  pose proof (fun s => is_infinity_spec x s I) as Hi.
  unfold SF64sub, SF64add, SFsub, SFadd.
  destruct (Prim2SF x) as [[] | s | | s m e]; try reflexivity.
  - now destruct (Hi s).
  - now destruct Hn.
  - cbv zeta. rewrite Z.sub_diag. reflexivity.
Qed.

Lemma sum_valid_single (x : float) :
  is_nan x = false -> sum_valid [x] = PrimFloat.add 0 x.
Proof.
  intros Hx. unfold sum_valid. simpl fold_left. unfold sum_step.
  rewrite Hx. cbn [fst snd]. unfold PrimFloat.zero. now rewrite sub_zero.
Qed.

Lemma sum_valid_pair (x y : float) :
  is_nan x = false -> is_infinity x = false -> is_nan y = false ->
  sum_valid [x; y] = PrimFloat.add (PrimFloat.add 0 x) y.
Proof.
  intros Hx Ix Hy. unfold sum_valid. simpl fold_left. unfold sum_step.
  rewrite Hx. cbn [fst snd]. rewrite Hy. cbn [fst snd]. unfold PrimFloat.zero.
  rewrite (sub_zero x), compensation_finite by assumption.
  now rewrite sub_zero.
Qed.

(** The reduction of a bin that holds one valid row of each side. *)
Lemma agg_candles_pair (b : Z) (r1 r2 : Candle) :
  valid_candle r1 = true -> valid_candle r2 = true ->
  is_infinity (volume r1) = false ->
  agg_candles b [r1; r2] =
  {| date := bucket_start b;
     open := open r1;
     high := if PrimFloat.ltb (high r1) (high r2) then high r2 else high r1;
     low := if PrimFloat.ltb (low r2) (low r1) then low r2 else low r1;
     close := close r2;
     volume := PrimFloat.add (PrimFloat.add 0 (volume r1)) (volume r2) |}.
Proof.
  intros H1 H2 I1.
  destruct (valid_candle_cells _ H1) as (O1 & H1' & L1 & C1 & V1).
  destruct (valid_candle_cells _ H2) as (O2 & H2' & L2 & C2 & V2).
  unfold agg_candles, last_valid. simpl map. simpl rev.
  now rewrite !first_valid_head, max_valid_pair, min_valid_pair, sum_valid_pair.
Qed.

Lemma in_merge_rows (rows : list Candle) (r : Candle) :
  In r (merge_rows rows) ->
  exists p,
    r = fill_ohlcv p (agg_candles (bucket_of (date r))
                        (sort_rows date (rows_in_bucket date (bucket_of (date r)) rows))).
Proof.
  intros Hr. apply In_nth_error in Hr as [i Hi].
  unfold merge_rows in Hi.
  destruct (ffill_nth _ _ _ _ _ Hi) as (x & p & Hx & ->).
  unfold resample in Hx. rewrite nth_error_map in Hx.
  destruct (nth_error (bins date (sort_rows date rows)) i) as [b |]; [| discriminate].
  simpl in Hx. injection Hx as <-. exists p.
  simpl. now rewrite bucket_of_start, rows_in_bucket_sorted.
Qed.

Lemma merge_rows_covers (rows : list Candle) (y : Candle) :
  In y rows ->
  exists r, In r (merge_rows rows) /\ date r = bucket_start (bucket_of (date y)).
Proof.
  intros Hy. apply (bins_cover date) in Hy.
  set (b := bucket_of (date y)) in *.
  set (x := agg_candles b (rows_in_bucket date b (sort_rows date rows))).
  assert (Hx : In x (resample date agg_candles rows)).
  { unfold resample. apply in_map_iff. now exists b. }
  destruct (ffill_in fill_ohlcv _ x (nan_candle 0) Hx) as [p Hp].
  exists (fill_ohlcv p x). split; [exact Hp | reflexivity].
Qed.

(** C1, as the code has it.  [merge] reduces candles, not trades.  When a
    bin holds one valid candle of [self], of finite volume, and one of the
    other list (at dates in that order, as two aligned candles are), the
    merged frame has a row for the bin, and every row of the bin has: open
    from the candle of [self], close from the candle of the other list,
    whatever the times of the trades behind them; the larger high and the
    smaller low; and as volume the two candle volumes added, with no regard
    to trades the two sides share.  (After an infinite volume the
    compensation term of the sum is NaN, and so is the sum.) *)
Theorem merge_overlapping_bucket :
  forall (self other : BudaMarketTradeList) (sdf odf : DataFrame)
         (out : list Candle) (b : Z) (r1 r2 : Candle),
    trade_list self = PyFrame sdf ->
    trade_list other = PyFrame odf ->
    snd (merge self (ArgTradeList other)) = Ok (OhlcvFrame out) ->
    rows_in_bucket date b (candle_rows sdf) = [r1] ->
    rows_in_bucket date b (candle_rows odf) = [r2] ->
    date r1 <= date r2 ->
    valid_candle r1 = true ->
    valid_candle r2 = true ->
    is_infinity (volume r1) = false ->
    is_nan (PrimFloat.add (PrimFloat.add 0 (volume r1)) (volume r2)) = false ->
    (exists r, In r out /\ date r = bucket_start b) /\
    (forall r, In r out -> bucket_of (date r) = b ->
       date r = bucket_start b /\
       open r = open r1 /\
       close r = close r2 /\
       high r = (if PrimFloat.ltb (high r1) (high r2) then high r2 else high r1) /\
       low r = (if PrimFloat.ltb (low r2) (low r1) then low r2 else low r1) /\
       volume r = PrimFloat.add (PrimFloat.add 0 (volume r1)) (volume r2)).
Proof.
  intros self other sdf odf out b r1 r2 Hs Ho Hres Hb1 Hb2 Hd V1 V2 I1 Hsum.
  destruct (merge_result _ _ _ Hres) as (srows & odf' & Ho' & -> & Hrows).
  rewrite Ho in Ho'. injection Ho' as <-. rewrite Hs in Hrows. subst srows.
  assert (Hin1 : In r1 (candle_rows sdf) /\ bucket_of (date r1) = b).
  { assert (X : In r1 (rows_in_bucket date b (candle_rows sdf))) by (rewrite Hb1; now left).
    unfold rows_in_bucket in X. apply filter_In in X as [X Y]. split; [exact X | lia]. }
  destruct Hin1 as [Hin1 Hbk1].
  split.
  - destruct (merge_rows_covers (candle_rows sdf ++ candle_rows odf) r1) as (r & Hr & Hdr).
    + apply in_or_app. now left.
    + exists r. now rewrite <- Hbk1.
  - intros r Hr Hbr.
    destruct (in_merge_rows _ _ Hr) as [p E].
    rewrite Hbr in E.
    unfold rows_in_bucket in E. rewrite filter_app in E.
    fold (rows_in_bucket date b (candle_rows sdf)) in E.
    fold (rows_in_bucket date b (candle_rows odf)) in E.
    rewrite Hb1, Hb2 in E. simpl in E.
    apply Z.leb_le in Hd. rewrite Hd in E.
    rewrite agg_candles_pair in E by assumption.
    destruct (valid_candle_cells _ V1) as (O1 & H1' & L1 & C1 & _).
    destruct (valid_candle_cells _ V2) as (O2 & H2' & L2 & C2 & _).
    rewrite E. unfold fill_ohlcv. simpl.
    rewrite !fill_valid; auto.
    + repeat split; reflexivity.
    + now destruct (PrimFloat.ltb (low r2) (low r1)).
    + now destruct (PrimFloat.ltb (high r1) (high r2)).
Qed.

End Methods.

(** *** Runs on wire entries *)

(** Three trades as the venue sends them: one at 0 ms, one half an hour
    later, one two hours later. *)
Definition trade_at_0 : jvalue :=
  JList [JStr "0"; JStr "1.0"; JStr "100.0"; JStr "buy"].
Definition trade_at_half_hour : jvalue :=
  JList [JStr "1800000"; JStr "2.0"; JStr "105.0"; JStr "sell"].
Definition trade_at_2h : jvalue :=
  JList [JStr "7200000"; JStr "0.5"; JStr "110.25"; JStr "sell"].

Definition empty_list : BudaMarketTradeList := mkTradeList (PyList []) None.

(** [BudaMarketTradeList().append_and_resample(entries)], the instance. *)
Definition resampled (entries : list jvalue) : BudaMarketTradeList :=
  fst (append_and_resample int_builtin float_builtin empty_list entries).

Definition candle_0_early : Candle := mkCandle 0 100 100 100 100 1.
Definition candle_0_late : Candle := mkCandle 0 105 105 105 105 2.
Definition candle_2h : Candle := mkCandle 7200000 110.25 110.25 110.25 110.25 0.5.

Lemma float_neq (x y : float) : PrimFloat.eqb x y = false -> is_nan x = false -> x <> y.
Proof.
  intros E N H. subst y. unfold is_nan in N. rewrite E in N. discriminate.
Qed.

Example resample_spec_example :
  snd (append_and_resample int_builtin float_builtin empty_list
         [trade_at_0; trade_at_half_hour]) =
  Ok (OhlcvFrame [mkCandle 0 100 105 100 105 3]).
Proof. vm_compute. reflexivity. Qed.

Example append_raw_keeps_order :
  append_raw int_builtin float_builtin empty_list [trade_at_half_hour; trade_at_0] =
  (mkTradeList (PyList [mkEntry 1800000 2 105 (JStr "sell");
                        mkEntry 0 1 100 (JStr "buy")]) None,
   Ok [mkEntry 1800000 2 105 (JStr "sell"); mkEntry 0 1 100 (JStr "buy")]).
Proof. vm_compute. reflexivity. Qed.

Example append_raw_after_resample :
  snd (append_raw int_builtin float_builtin (resampled [trade_at_0]) [trade_at_2h]) =
  Raise AssertionError.
Proof. vm_compute. reflexivity. Qed.

(** C1 fails as stated.  Merging a series with a series made of the same
    trade (amount 1) gives volume 2 in their bin, where the one contributing
    trade gives volume 1: the trade is counted twice.  Merging the series of
    the later trade with the series of the earlier one gives open 105 and
    close 100 in their bin, where the two trades in time order give open 100
    and close 105. *)
Lemma merge_overlap_counts_twice_and_ignores_time :
  snd (merge (resampled [trade_at_0]) (ArgTradeList (resampled [trade_at_0]))) =
    Ok (OhlcvFrame [mkCandle 0 100 100 100 100 2]) /\
  snd (append_and_resample int_builtin float_builtin empty_list [trade_at_0]) =
    Ok (OhlcvFrame [mkCandle 0 100 100 100 100 1]) /\
  volume (mkCandle 0 100 100 100 100 2) <> volume (mkCandle 0 100 100 100 100 1) /\
  snd (merge (resampled [trade_at_half_hour]) (ArgTradeList (resampled [trade_at_0]))) =
    Ok (OhlcvFrame [mkCandle 0 105 105 100 100 3]) /\
  snd (append_and_resample int_builtin float_builtin empty_list
         [trade_at_half_hour; trade_at_0]) =
    Ok (OhlcvFrame [mkCandle 0 100 105 100 105 3]) /\
  open (mkCandle 0 105 105 100 100 3) <> open (mkCandle 0 100 105 100 105 3) /\
  close (mkCandle 0 105 105 100 100 3) <> close (mkCandle 0 100 105 100 105 3).
Proof.
  repeat split; try (vm_compute; reflexivity); apply float_neq; reflexivity.
Qed.

(** The later series merged with the earlier one: one candle of each in
    hour 0. *)
Lemma merge_overlapping_bucket_witness :
  (exists r, In r [mkCandle 0 105 105 100 100 3] /\ date r = bucket_start 0) /\
  (forall r, In r [mkCandle 0 105 105 100 100 3] -> bucket_of (date r) = 0 ->
     date r = bucket_start 0 /\
     open r = open candle_0_late /\
     close r = close candle_0_early /\
     high r = (if PrimFloat.ltb (high candle_0_late) (high candle_0_early)
               then high candle_0_early else high candle_0_late) /\
     low r = (if PrimFloat.ltb (low candle_0_early) (low candle_0_late)
              then low candle_0_early else low candle_0_late) /\
     volume r = PrimFloat.add (PrimFloat.add 0 (volume candle_0_late))
                              (volume candle_0_early)).
Proof.
  apply (merge_overlapping_bucket
           (resampled [trade_at_half_hour]) (resampled [trade_at_0])
           (OhlcvFrame [candle_0_late]) (OhlcvFrame [candle_0_early])
           [mkCandle 0 105 105 100 100 3] 0 candle_0_late candle_0_early).
  - vm_compute; reflexivity.
  - vm_compute; reflexivity.
  - vm_compute; reflexivity.
  - vm_compute; reflexivity.
  - vm_compute; reflexivity.
  - simpl; lia.
  - vm_compute; reflexivity.
  - vm_compute; reflexivity.
  - vm_compute; reflexivity.
  - vm_compute; reflexivity.
Defined.

(** C5 fails as stated.  With trades in the first and the third hour only,
    the second hour has no trade; its row repeats the open 100 and the low
    100 of the row above, whose close is 105. *)
Lemma empty_bucket_open_is_not_close_above :
  snd (append_and_resample int_builtin float_builtin empty_list
         [trade_at_0; trade_at_half_hour; trade_at_2h]) =
    Ok (OhlcvFrame [mkCandle 0 100 105 100 105 3;
                    mkCandle 3600000 100 105 100 105 0;
                    mkCandle 7200000 110.25 110.25 110.25 110.25 0.5]) /\
  rows_in_bucket timestamp (bucket_of 3600000)
    [mkEntry 0 1 100 (JStr "buy"); mkEntry 1800000 2 105 (JStr "sell");
     mkEntry 7200000 0.5 110.25 (JStr "sell")] = [] /\
  open (mkCandle 3600000 100 105 100 105 0) <> close (mkCandle 0 100 105 100 105 3) /\
  low (mkCandle 3600000 100 105 100 105 0) <> close (mkCandle 0 100 105 100 105 3).
Proof.
  repeat split; try (vm_compute; reflexivity); apply float_neq; reflexivity.
Qed.

(** Hour 1 is empty between trades in hour 0 and hour 2, after
    [resample_ohlcv] and after [merge]. *)
Lemma empty_bucket_filled_columnwise_witness :
  (date (mkCandle 0 100 105 100 105 3) = 3600000 - HOUR_MS /\
   open (mkCandle 3600000 100 105 100 105 0) = 100%float /\
   high (mkCandle 3600000 100 105 100 105 0) = 105%float /\
   low (mkCandle 3600000 100 105 100 105 0) = 100%float /\
   close (mkCandle 3600000 100 105 100 105 0) = 105%float /\
   volume (mkCandle 3600000 100 105 100 105 0) = 0%float) /\
  (date (mkCandle 0 100 105 100 105 3) = 3600000 - HOUR_MS /\
   open (mkCandle 3600000 100 105 100 105 0) = 100%float /\
   high (mkCandle 3600000 100 105 100 105 0) = 105%float /\
   low (mkCandle 3600000 100 105 100 105 0) = 100%float /\
   close (mkCandle 3600000 100 105 100 105 0) = 105%float /\
   volume (mkCandle 3600000 100 105 100 105 0) = 0%float).
Proof.
  split.
  - apply (proj1 empty_bucket_filled_columnwise
             (mkTradeList (PyList [mkEntry 0 1 100 (JStr "buy");
                                   mkEntry 1800000 2 105 (JStr "sell");
                                   mkEntry 7200000 0.5 110.25 (JStr "sell")]) None)
             [mkEntry 0 1 100 (JStr "buy"); mkEntry 1800000 2 105 (JStr "sell");
              mkEntry 7200000 0.5 110.25 (JStr "sell")]
             [mkCandle 0 100 105 100 105 3;
              mkCandle 3600000 100 105 100 105 0;
              mkCandle 7200000 110.25 110.25 110.25 110.25 0.5]
             0%nat (mkCandle 0 100 105 100 105 3) (mkCandle 3600000 100 105 100 105 0));
      vm_compute; reflexivity.
  - apply (proj2 empty_bucket_filled_columnwise
             (resampled [trade_at_0; trade_at_half_hour]) (resampled [trade_at_2h])
             (OhlcvFrame [mkCandle 0 100 105 100 105 3]) (OhlcvFrame [candle_2h])
             [mkCandle 0 100 105 100 105 3;
              mkCandle 3600000 100 105 100 105 0;
              mkCandle 7200000 110.25 110.25 110.25 110.25 0.5]
             0%nat (mkCandle 0 100 105 100 105 3) (mkCandle 3600000 100 105 100 105 0));
      vm_compute; reflexivity.
Defined.

End Buda.

(** ** Kraken: the constants module

    krakenWebSocket/KrakenConstants.py is imported as [Constants] and holds
    the positions read from the wire arrays.  The functions below take it as
    a parameter. *)

Record KrakenConstants : Type := mkConstants {
  TRADE_LIST : Z;
  MARKET_INDEX : Z;
  TIME_INDEX : Z;
  PRICE_INDEX : Z;
  VOLUME_INDEX : Z;
  REST_TIMESTAMP_INDEX : Z;
  REST_OPEN_INDEX : Z;
  REST_HIGH_INDEX : Z;
  REST_LOW_INDEX : Z;
  REST_CLOSE_INDEX : Z;
  REST_VOLUME_INDEX : Z
}.

(** Modelled from the spec: the values of krakenWebSocket/KrakenConstants.py,
    which is not among the sources.  A trade message is an array whose final
    element is the array of [price, volume, time, side, ...] tuples; a REST
    row is [timestamp, open, high, low, close, volume, ...].  The spec does
    not place the pair name in the message; it is read at position 0 here. *)
Definition spec_constants : KrakenConstants :=
  {| TRADE_LIST := -1;
     MARKET_INDEX := 0;
     PRICE_INDEX := 0;
     VOLUME_INDEX := 1;
     TIME_INDEX := 2;
     REST_TIMESTAMP_INDEX := 0;
     REST_OPEN_INDEX := 1;
     REST_HIGH_INDEX := 2;
     REST_LOW_INDEX := 3;
     REST_CLOSE_INDEX := 4;
     REST_VOLUME_INDEX := 5 |}.

(** What a [for] loop or [map] walks through. *)
Definition iterate (v : jvalue) : result (list jvalue) :=
  match v with
  | JList items => Ok items
  | JStr s => Ok (map JStr (Py.string_chars s))
  | JObj fields => Ok (map (fun kv => JStr (fst kv)) fields)
  | _ => Raise TypeError
  end.

Fixpoint map_result {A B : Type} (f : A -> result B) (l : list A) : result (list B) :=
  match l with
  | [] => Ok []
  | x :: rest =>
      let* y := f x in
      let* ys := map_result f rest in
      Ok (y :: ys)
  end.

(** ** Kraken: decoding a streamed trade message *)

Module KrakenTicket.

Record Trade : Type := mkTrade {
  market : string;
  timestamp : float;
  price : float;
  volume : float
}.

(** The dict [mapper] of [_ticket_list_to_dict], subscripted by a decoded
    value: a list or an object is unhashable, anything else that is not one
    of the four pairs is a missing key. *)
Definition mapper (k : jvalue) : result string :=
  match k with
  | JStr s =>
      if String.eqb s "XBT/USD" then Ok "btc"%string
      else if String.eqb s "ETH/USD" then Ok "eth"%string
      else if String.eqb s "BCH/USD" then Ok "bch"%string
      else if String.eqb s "LTC/USD" then Ok "ltc"%string
      else Raise KeyError
  | JList _ | JObj _ => Raise TypeError
  | _ => Raise KeyError
  end.

Section TicketToDict.

Variable Constants : KrakenConstants.
Variable py_float : jvalue -> conversion float.

(** [float(entry[index])] *)
Definition float_at (entry : jvalue) (index : Z) : result float :=
  let* x := subscript entry index in
  convert (py_float x).

(** The loop [for entry in trade_list: volume += float(entry[VOLUME_INDEX])] *)
Fixpoint add_volumes (volume : float) (entries : list jvalue) : result float :=
  match entries with
  | [] => Ok volume
  | entry :: rest =>
      let* v := float_at entry (VOLUME_INDEX Constants) in
      add_volumes (PrimFloat.add volume v) rest
  end.

Definition _ticket_list_to_dict (socket_trade : jvalue) : result Trade :=
  let* trade_list := subscript socket_trade (TRADE_LIST Constants) in
  let* pair := subscript socket_trade (MARKET_INDEX Constants) in
  let* name := mapper pair in
  let* last_entry := subscript trade_list (-1) in
  let* time := float_at last_entry (TIME_INDEX Constants) in
  let* last_entry' := subscript trade_list (-1) in
  let* last_price := float_at last_entry' (PRICE_INDEX Constants) in
  let* entries := iterate trade_list in
  let* total := add_volumes 0 entries in
  Ok (mkTrade name time last_price total).

(** The volumes the loop adds, one per tuple. *)
Definition volumes (entries : list jvalue) : result (list float) :=
  map_result (fun entry => float_at entry (VOLUME_INDEX Constants)) entries.

Lemma add_volumes_fold (entries : list jvalue) :
  forall volume total,
    add_volumes volume entries = Ok total ->
    exists vs, volumes entries = Ok vs /\ total = fold_left PrimFloat.add vs volume.
Proof.
  induction entries as [| entry rest IH]; intros volume total H; simpl in *.
  - injection H as <-. now exists [].
  - unfold volumes. simpl.
    destruct (float_at entry (VOLUME_INDEX Constants)) as [v | e]; simpl in *; [| discriminate].
    destruct (IH _ _ H) as (vs & Hvs & ->).
    unfold volumes in Hvs. rewrite Hvs. simpl. now exists (v :: vs).
Qed.

(** C8, as the code has it.  Of the candle fields of a decoded message only
    the volume is taken over all tuples (their sum, in order); the price and
    the timestamp are those of the last tuple alone. *)
Theorem ticket_aggregates_volume_only :
  forall (socket_trade : jvalue) (trade : Trade),
    _ticket_list_to_dict socket_trade = Ok trade ->
    exists trade_list last_entry entries vs,
      subscript socket_trade (TRADE_LIST Constants) = Ok trade_list /\
      subscript trade_list (-1) = Ok last_entry /\
      float_at last_entry (PRICE_INDEX Constants) = Ok (price trade) /\
      float_at last_entry (TIME_INDEX Constants) = Ok (timestamp trade) /\
      iterate trade_list = Ok entries /\
      volumes entries = Ok vs /\
      volume trade = fold_left PrimFloat.add vs 0%float.
Proof.
  intros socket_trade trade. unfold _ticket_list_to_dict.
  destruct (subscript socket_trade (TRADE_LIST Constants)) as [tl | e]; simpl; [| discriminate].
  destruct (subscript socket_trade (MARKET_INDEX Constants)) as [pr | e]; simpl; [| discriminate].
  destruct (mapper pr) as [name | e]; simpl; [| discriminate].
  destruct (subscript tl (-1)) as [le | e] eqn:Hle; simpl; [| discriminate].
  destruct (float_at le (TIME_INDEX Constants)) as [t | e] eqn:Ht; simpl; [| discriminate].
  destruct (float_at le (PRICE_INDEX Constants)) as [p | e] eqn:Hp; simpl; [| discriminate].
  destruct (iterate tl) as [entries | e] eqn:Hit; simpl; [| discriminate].
  destruct (add_volumes 0 entries) as [total | e] eqn:Hv; simpl; [| discriminate].
  intros X. injection X as <-. simpl.
  destruct (add_volumes_fold _ _ _ Hv) as (vs & Hvs & ->).
  exists tl, le, entries, vs. repeat split; assumption.
Qed.

End TicketToDict.

(** A message that batches two trades, and the same message with another
    price and time in its first tuple. *)
Definition two_trades (first_price first_time : string) : jvalue :=
  JList [JStr "XBT/USD";
         JList [JList [JStr first_price; JStr "1.5"; JStr first_time; JStr "b"];
                JList [JStr "200.0"; JStr "2.0"; JStr "20.0"; JStr "s"]]].

(** C8 fails as stated.  A message of two tuples decodes to the price and
    the time of its last tuple, whatever the first tuple holds: price 100 or
    price 999 in the first tuple give the same decoded trade.  Only the
    volume adds up. *)
Lemma ticket_price_is_last_tuple_only :
  _ticket_list_to_dict spec_constants float_builtin (two_trades "100.0" "10.0") =
    Ok (mkTrade "btc" 20 200 3.5) /\
  _ticket_list_to_dict spec_constants float_builtin (two_trades "999.0" "15.0") =
    Ok (mkTrade "btc" 20 200 3.5).
Proof. split; vm_compute; reflexivity. Qed.

(** The message of two trades: price 200 and time 20 of the last tuple,
    volume 1.5 + 2. *)
Lemma ticket_aggregates_volume_only_witness :
  exists trade_list last_entry entries vs,
    subscript (two_trades "100.0" "10.0") (TRADE_LIST spec_constants) = Ok trade_list /\
    subscript trade_list (-1) = Ok last_entry /\
    float_at float_builtin last_entry (PRICE_INDEX spec_constants) = Ok 200%float /\
    float_at float_builtin last_entry (TIME_INDEX spec_constants) = Ok 20%float /\
    iterate trade_list = Ok entries /\
    volumes spec_constants float_builtin entries = Ok vs /\
    3.5%float = fold_left PrimFloat.add vs 0%float.
Proof.
  apply (ticket_aggregates_volume_only spec_constants float_builtin
           (two_trades "100.0" "10.0") (mkTrade "btc" 20 200 3.5)).
  vm_compute; reflexivity.
Defined.

End KrakenTicket.

(** ** Kraken: parsing a page of historical candles *)

Module KrakenHistorical.

Record KrakenMarketConfig : Type := mkMarketConfig {
  subscription_pair : string;
  ohlc_pair : string;
  response_key : string;
  key : string;
  next_frame_ts : option Z
}.

(** The dict [mapper] builds for one row of the page. *)
Record ParsedCandle : Type := mkParsed {
  open : jvalue;
  high : jvalue;
  low : jvalue;
  close : jvalue;
  volume : jvalue;
  timestamp : jvalue
}.

(** [parsed.pop()] on a non-empty list. *)
Definition pop {A : Type} (l : list A) : list A := removelast l.

Section ParseResponse.

Variable Constants : KrakenConstants.

(** The comparison [a < b] of two decoded values; [Raise TypeError] where
    Python refuses to order them.  On two ints it is the order of the
    integers. *)
Variable py_lt : jvalue -> jvalue -> result bool.
Hypothesis py_lt_int : forall a b : Z, py_lt (JInt a) (JInt b) = Ok (a <? b).

Definition mapper (entry : jvalue) : result ParsedCandle :=
  let* o := subscript entry (REST_OPEN_INDEX Constants) in
  let* h := subscript entry (REST_HIGH_INDEX Constants) in
  let* l := subscript entry (REST_LOW_INDEX Constants) in
  let* c := subscript entry (REST_CLOSE_INDEX Constants) in
  let* v := subscript entry (REST_VOLUME_INDEX Constants) in
  let* t := subscript entry (REST_TIMESTAMP_INDEX Constants) in
  Ok (mkParsed o h l c v t).

Definition parse_response_to_list (response : jvalue)
           (market_config : option KrakenMarketConfig) : result (list ParsedCandle) :=
  let* result := subscript_key response "result" in
  let* config := match market_config with
                 | Some c => Ok c
                 | None => Raise AttributeError
                 end in
  let* response_list := subscript_key result (response_key config) in
  let* rows := iterate response_list in
  let* parsed := map_result mapper rows in
  let* result' := subscript_key response "result" in
  let* last := subscript_key result' "last" in
  let* last_row := py_index parsed (-1) in
  let last_parsed := timestamp last_row in
  let* uncommitted := py_lt last last_parsed in
  Ok (if uncommitted then pop parsed else parsed).

Lemma py_index_last {A : Type} (l : list A) (x : A) :
  py_index (l ++ [x]) (-1) = Ok x.
Proof.
  unfold py_index. rewrite length_app. simpl List.length.
  replace (-1 <? 0) with true by reflexivity.
  replace (-1 + Z.of_nat (List.length l + 1)) with (Z.of_nat (List.length l)) by lia.
  replace (0 <=? Z.of_nat (List.length l)) with true by (symmetry; apply Z.leb_le; lia).
  replace (Z.of_nat (List.length l) <? Z.of_nat (List.length l + 1)) with true
    by (symmetry; apply Z.ltb_lt; lia).
  simpl. rewrite Nat2Z.id, nth_error_app2, Nat.sub_diag by lia. reflexivity.
Qed.

(** C2, as the code has it.  When the commit boundary [last] and the
    timestamp of the trailing candle are ints, the trailing candle is
    dropped exactly when its timestamp is greater than the boundary; a
    trailing candle at the boundary is kept. *)
Theorem trailing_candle_dropped_iff_after_boundary :
  forall (response result response_list : jvalue) (config : KrakenMarketConfig)
         (rows : list jvalue) (front : list ParsedCandle) (trailing : ParsedCandle)
         (boundary t : Z),
    subscript_key response "result" = Ok result ->
    subscript_key result (response_key config) = Ok response_list ->
    iterate response_list = Ok rows ->
    map_result mapper rows = Ok (front ++ [trailing]) ->
    subscript_key result "last" = Ok (JInt boundary) ->
    timestamp trailing = JInt t ->
    parse_response_to_list response (Some config) =
    Ok (if boundary <? t then front else front ++ [trailing]).
Proof.
  intros response result response_list config rows front trailing boundary t
         Hres Hlist Hrows Hparsed Hlast Ht.
  unfold parse_response_to_list.
  rewrite Hres. simpl. rewrite Hlist. simpl. rewrite Hrows. simpl.
  rewrite Hparsed. simpl. rewrite Hlast. simpl.
  rewrite py_index_last. simpl. rewrite Ht, py_lt_int. simpl.
  unfold pop. now rewrite removelast_last.
Qed.

End ParseResponse.

(** [<] on the ints of a page; Python orders more pairs of values than
    this, which the examples do not meet. *)
Definition int_lt (a b : jvalue) : result bool :=
  match a, b with
  | JInt x, JInt y => Ok (x <? y)
  | _, _ => Raise TypeError
  end.

Definition btc : KrakenMarketConfig :=
  mkMarketConfig "XBT/USD" "XBTUSD" "XXBTZUSD" "btc" None.

Definition row (t : Z) : jvalue :=
  JList [JInt t; JStr "30306.1"; JStr "30306.2"; JStr "30305.7"; JStr "30305.9";
         JStr "3.39243896"].

(** A page of three candles at 100, 200 and 300 with its commit boundary. *)
Definition page (boundary : Z) : jvalue :=
  JObj [("error"%string, JList []);
        ("result"%string,
         JObj [("XXBTZUSD"%string, JList [row 100; row 200; row 300]);
               ("last"%string, JInt boundary)])].

Definition parsed_row (t : Z) : ParsedCandle :=
  mkParsed (JStr "30306.1") (JStr "30306.2") (JStr "30305.7") (JStr "30305.9")
           (JStr "3.39243896") (JInt t).

(** C2 fails as stated.  With candles at 100, 200 and 300 and the commit
    boundary 300, the candle at 300 is kept: all three come back. *)
Lemma candle_at_boundary_is_kept :
  parse_response_to_list spec_constants int_lt (page 300) (Some btc) =
    Ok [parsed_row 100; parsed_row 200; parsed_row 300] /\
  map timestamp [parsed_row 100; parsed_row 200; parsed_row 300] =
    [JInt 100; JInt 200; JInt 300].
Proof. split; vm_compute; reflexivity. Qed.

(** With the commit boundary 200, the candle at 300 is dropped. *)
Lemma trailing_candle_dropped_iff_after_boundary_witness :
  parse_response_to_list spec_constants int_lt (page 200) (Some btc) =
    Ok (if 200 <? 300 then [parsed_row 100; parsed_row 200]
        else [parsed_row 100; parsed_row 200] ++ [parsed_row 300]).
Proof.
  apply (trailing_candle_dropped_iff_after_boundary spec_constants int_lt
           (fun a b => eq_refl) (page 200)
           (JObj [("XXBTZUSD"%string, JList [row 100; row 200; row 300]);
                  ("last"%string, JInt 200)])
           (JList [row 100; row 200; row 300]) btc [row 100; row 200; row 300]
           [parsed_row 100; parsed_row 200] (parsed_row 300) 200 300);
    vm_compute; reflexivity.
Defined.

End KrakenHistorical.

(** ** Kraken: the socket handler

    The handler talks to three collaborators: the transport (open, send,
    receive, close), the subscriber callback and the alert handler.  What
    they answer comes from a script [Env]; what the handler does to them is
    written to a trace of [Action]s.  [kill_on_next_receiv] can be called
    from another thread or from the callback at any time; the script says
    during which blocking call the request arrived, and the trace marks the
    place with [KillRequested].  Closing a socket, logging and sending an
    alert are taken to return. *)

Module KrakenSocket.

Inductive Socket : Type := WebSocket.

Inductive Callback : Type := Subscriber (id : nat).

(** The fields of the handler that its loop reads or writes. *)
Record KrakenSocketHandler : Type := mkHandler {
  started : bool;
  ws : option Socket;
  reconnect_attempts_limit : Z;
  reconnect_attempts : Z;
  pair : jvalue;
  _kill_thread : bool;
  on_new_price_callback : option Callback
}.

(** [KrakenSocketHandler()]; [started] is the flag [threading.Thread] keeps
    to refuse a second [start()]. *)
Definition new_handler : KrakenSocketHandler :=
  {| started := false;
     ws := None;
     reconnect_attempts_limit := 3;
     reconnect_attempts := 0;
     pair := JNull;
     _kill_thread := false;
     on_new_price_callback := None |}.

Inductive AlertMessage : Type :=
| Disconnected (exception : exn) (response : option string)
| MaxAttemptsExceeded.

Inductive Action : Type :=
| LogConnecting
| OpenTransport
| LogSubscribing
| SendSubscribe (pair : jvalue)
| LogError (error : exn)
| CloseSocket
| Deliver (message : jvalue)
| Alert (message : AlertMessage)
| KillRequested.

(** The answer to one handshake. *)
Inductive Handshake : Type :=
| Connected
| OpenFails (error : exn)
| SendFails (error : exn).

Record ConnectEvent : Type := mkConnect {
  handshake : Handshake;
  kill_during_connect : bool
}.

(** The answer to one [recv()], and to the callback if the payload reaches
    it. *)
Record RecvEvent : Type := mkRecv {
  received : result string;
  kill_during_recv : bool;
  callback_raises : option exn;
  kill_during_callback : bool
}.

Record Env : Type := mkEnv {
  connects : list ConnectEvent;
  recvs : list RecvEvent
}.

(** How a run of the handler ends: it returns, it raises, or it waits for
    an answer the script does not hold.  [OutOfFuel] is the bound of the
    loop of [_manage_thread] running out; [manage_thread_fuel] shows it
    never does. *)
Inductive Outcome : Type :=
| Returns
| Raises (e : exn)
| Blocks
| OutOfFuel.

Record Run : Type := mkRun {
  final : KrakenSocketHandler;
  outcome : Outcome;
  trace : list Action;
  rest : Env
}.

Definition before (actions : list Action) (r : Run) : Run :=
  mkRun (final r) (outcome r) (actions ++ trace r) (rest r).

Definition set_ws (self : KrakenSocketHandler) (s : option Socket) : KrakenSocketHandler :=
  mkHandler (started self) s (reconnect_attempts_limit self) (reconnect_attempts self)
            (pair self) (_kill_thread self) (on_new_price_callback self).

Definition set_attempts (self : KrakenSocketHandler) (n : Z) : KrakenSocketHandler :=
  mkHandler (started self) (ws self) (reconnect_attempts_limit self) n
            (pair self) (_kill_thread self) (on_new_price_callback self).

Definition set_limit (self : KrakenSocketHandler) (n : Z) : KrakenSocketHandler :=
  mkHandler (started self) (ws self) n (reconnect_attempts self)
            (pair self) (_kill_thread self) (on_new_price_callback self).

Definition set_kill (self : KrakenSocketHandler) (k : bool) : KrakenSocketHandler :=
  mkHandler (started self) (ws self) (reconnect_attempts_limit self)
            (reconnect_attempts self) (pair self) k (on_new_price_callback self).

Definition set_started (self : KrakenSocketHandler) : KrakenSocketHandler :=
  mkHandler true (ws self) (reconnect_attempts_limit self)
            (reconnect_attempts self) (pair self) (_kill_thread self)
            (on_new_price_callback self).

(** [kill_on_next_receiv] *)
Definition kill_on_next_receiv (self : KrakenSocketHandler) : KrakenSocketHandler :=
  set_kill self true.

(** [_init_args] *)
Definition _init_args (self : KrakenSocketHandler) (pair : jvalue)
           (callback : option Callback) : KrakenSocketHandler :=
  mkHandler (started self) (ws self) (reconnect_attempts_limit self)
            (reconnect_attempts self) pair (_kill_thread self) callback.

(** A kill request that arrives while the handler waits in a call. *)
Definition requested (k : bool) (self : KrakenSocketHandler) : KrakenSocketHandler :=
  if k then kill_on_next_receiv self else self.

Definition kill_mark (k : bool) : list Action :=
  if k then [KillRequested] else [].

(** [_create_connection]: the handler after the call, whether it returned
    [True], and what it did. *)
Definition _create_connection (self : KrakenSocketHandler) (ev : ConnectEvent)
  : KrakenSocketHandler * bool * list Action :=
  let self1 := requested (kill_during_connect ev) self in
  let mark := kill_mark (kill_during_connect ev) in
  match handshake ev with
  | Connected =>
      (set_ws self1 (Some WebSocket), true,
       [LogConnecting; OpenTransport] ++ mark ++
       [LogSubscribing; SendSubscribe (pair self)])
  | OpenFails error =>
      (set_ws self1 None, false,
       [LogConnecting; OpenTransport] ++ mark ++
       [LogError error] ++
       match ws self with
       | Some _ => [CloseSocket]
       | None => []
       end)
  | SendFails error =>
      (set_ws self1 None, false,
       [LogConnecting; OpenTransport; LogSubscribing; SendSubscribe (pair self)] ++ mark ++
       [LogError error; CloseSocket])
  end.

(** How [_manage_connection] ends: it returns [None], it returns the
    exception with the last payload received, or it waits in [recv()] for an
    answer the script does not hold. *)
Inductive Disconnect : Type :=
| ReturnsNone
| Failure (exception : exn) (response : option string)
| Waiting.

Section Handler.

(** [json.loads]; [None] when it raises. *)
Variable json_loads : string -> option jvalue.

(** The [except] branch of [_manage_connection]. *)
Definition fail_connection (self : KrakenSocketHandler) (e : exn)
           (response : option string) (recvs : list RecvEvent) (done : list Action)
  : KrakenSocketHandler * Disconnect * list Action * list RecvEvent :=
  (set_ws self None, Failure e response, done ++ [CloseSocket], recvs).

(** [_manage_connection], called with an open socket: one turn of its loop
    for each answer of the script. *)
Fixpoint _manage_connection (self : KrakenSocketHandler) (recvs : list RecvEvent)
  : KrakenSocketHandler * Disconnect * list Action * list RecvEvent :=
  if _kill_thread self then (self, ReturnsNone, [], recvs)
  else
    match recvs with
    | [] => (self, Waiting, [], [])
    | ev :: later =>
        let self1 := requested (kill_during_recv ev) self in
        let mark1 := kill_mark (kill_during_recv ev) in
        match received ev with
        | Raise e => fail_connection self1 e None later mark1
        | Ok response =>
            match json_loads response with
            | None => fail_connection self1 JSONDecodeError (Some response) later mark1
            | Some result =>
                if is_list result
                then
                  match on_new_price_callback self1 with
                  | None => fail_connection self1 TypeError (Some response) later mark1
                  | Some _ =>
                      let self2 := requested (kill_during_callback ev) self1 in
                      let done := mark1 ++ [Deliver result] ++
                                  kill_mark (kill_during_callback ev) in
                      match callback_raises ev with
                      | Some e => fail_connection self2 e (Some response) later done
                      | None =>
                          let '(self3, out, actions, remaining) :=
                            _manage_connection self2 later in
                          (self3, out, done ++ actions, remaining)
                      end
                  end
                else
                  let '(self3, out, actions, remaining) :=
                    _manage_connection self1 later in
                  (self3, out, mark1 ++ actions, remaining)
            end
        end
    end.

(** The body of [if self.ws is None:] in the loop of [_manage_thread]. *)
Definition reconnect (self : KrakenSocketHandler) (ev : ConnectEvent)
  : KrakenSocketHandler * list Action :=
  let self1 := set_attempts self (reconnect_attempts self + 1) in
  let '(self2, ok, actions) := _create_connection self1 ev in
  (if ok then set_attempts self2 0 else self2, actions).

(** The body of [if self.ws is not None:]: the run goes on with the loop
    after a failure, and ends otherwise. *)
Definition connected (self : KrakenSocketHandler) (env : Env)
           (continue : KrakenSocketHandler -> Env -> Run) : Run :=
  let '(self1, out, actions, remaining) := _manage_connection self (recvs env) in
  let env1 := mkEnv (connects env) remaining in
  match out with
  | Failure exception response =>
      before (actions ++ [Alert (Disconnected exception response)]) (continue self1 env1)
  | ReturnsNone => mkRun self1 (Raises TypeError) actions env1
  | Waiting => mkRun self1 Blocks actions env1
  end.

(** The last statement of [_manage_thread]. *)
Definition leave_loop (self : KrakenSocketHandler) (env : Env) : Run :=
  mkRun self Returns
        (if _kill_thread self then [] else [Alert MaxAttemptsExceeded]) env.

(** The [while] loop of [_manage_thread].  Each turn takes an answer from
    the script or ends the run, so the script bounds the turns. *)
Fixpoint manage_loop (fuel : nat) (self : KrakenSocketHandler) (env : Env) : Run :=
  match fuel with
  | O => mkRun self OutOfFuel [] env
  | S fuel' =>
      if reconnect_attempts self <? reconnect_attempts_limit self
      then
        match ws self with
        | None =>
            match connects env with
            | [] => mkRun (set_attempts self (reconnect_attempts self + 1)) Blocks [] env
            | ev :: later =>
                let '(self1, actions) := reconnect self ev in
                let env1 := mkEnv later (recvs env) in
                before actions
                  match ws self1 with
                  | None => manage_loop fuel' self1 env1
                  | Some _ => connected self1 env1 (manage_loop fuel')
                  end
            end
        | Some _ => connected self env (manage_loop fuel')
        end
      else leave_loop self env
  end.

Definition turns (env : Env) : nat :=
  S (List.length (connects env) + List.length (recvs env)).

(** [_manage_thread].  Unpacking the [None] that [_manage_connection]
    returns on a kill request raises [TypeError]. *)
Definition _manage_thread (self : KrakenSocketHandler) (env : Env) : Run :=
  let limit := if reconnect_attempts_limit self <=? 0 then 1
               else reconnect_attempts_limit self in
  let self1 := set_attempts (set_limit self limit) 0 in
  manage_loop (turns env) self1 env.

(** [run] *)
Definition run (self : KrakenSocketHandler) (env : Env) : Run :=
  if negb (is_list (pair self)) then mkRun self (Raises AttributeError) [] env
  else
    match on_new_price_callback self with
    | None => mkRun self (Raises AttributeError) [] env
    | Some _ => _manage_thread self env
    end.

(** [connect_on_this_thread] *)
Definition connect_on_this_thread (self : KrakenSocketHandler) (pair : jvalue)
           (callback : option Callback) (env : Env) : Run :=
  run (_init_args (set_kill self false) pair callback) env.

(** [connect_as_new_thread]: [Thread.start] raises [RuntimeError] on a
    thread that was started before; otherwise the new thread executes [run],
    whose run is given here. *)
Definition connect_as_new_thread (self : KrakenSocketHandler) (pair : jvalue)
           (callback : option Callback) (env : Env) : Run :=
  let self1 := _init_args self pair callback in
  if started self1 then mkRun self1 (Raises RuntimeError) [] env
  else run (set_started self1) env.

(** *** Reading a trace *)

Fixpoint deliveries (actions : list Action) : list jvalue :=
  match actions with
  | [] => []
  | Deliver message :: later => message :: deliveries later
  | _ :: later => deliveries later
  end.

Fixpoint handshakes (actions : list Action) : nat :=
  match actions with
  | [] => O
  | OpenTransport :: later => S (handshakes later)
  | _ :: later => handshakes later
  end.

Fixpoint alerts (actions : list Action) : list AlertMessage :=
  match actions with
  | [] => []
  | Alert message :: later => message :: alerts later
  | _ :: later => alerts later
  end.

(** What follows the first kill request. *)
Fixpoint after_kill (actions : list Action) : list Action :=
  match actions with
  | [] => []
  | KillRequested :: later => later
  | _ :: later => after_kill later
  end.

Fixpoint has_kill (actions : list Action) : bool :=
  match actions with
  | [] => false
  | KillRequested :: _ => true
  | _ :: later => has_kill later
  end.

(** The message a received payload puts before the callback, if any. *)
Definition forwarded (ev : RecvEvent) : option jvalue :=
  match received ev with
  | Ok response =>
      match json_loads response with
      | Some result => if is_list result then Some result else None
      | None => None
      end
  | Raise _ => None
  end.

Fixpoint all_forwarded (events : list RecvEvent) : list jvalue :=
  match events with
  | [] => []
  | ev :: later =>
      match forwarded ev with
      | Some message => message :: all_forwarded later
      | None => all_forwarded later
      end
  end.

(** *** The receive loop *)

Lemma deliveries_app (a b : list Action) :
  deliveries (a ++ b) = deliveries a ++ deliveries b.
Proof.
  induction a as [| x a IH]; simpl; [reflexivity |].
  destruct x; simpl; now rewrite ?IH.
Qed.

Lemma deliveries_kill_mark (k : bool) : deliveries (kill_mark k) = [].
Proof. now destruct k. Qed.

Lemma requested_callback (k : bool) (self : KrakenSocketHandler) :
  on_new_price_callback (requested k self) = on_new_price_callback self.
Proof. now destruct k. Qed.

Lemma requested_kill (k : bool) (self : KrakenSocketHandler) :
  _kill_thread (requested k self) = k || _kill_thread self.
Proof. now destruct k. Qed.

Lemma manage_connection_killed (self : KrakenSocketHandler) (recvs : list RecvEvent) :
  _kill_thread self = true ->
  _manage_connection self recvs = (self, ReturnsNone, [], recvs).
Proof. intros H. destruct recvs; simpl; now rewrite H. Qed.

Ltac run_connection IH self :=
  match goal with
  | |- context [_manage_connection ?s ?l] =>
      let H := fresh "IHrun" in
      pose proof (IH s) as H;
      destruct (_manage_connection s l) as [[[?self' ?out] ?actions] ?remaining]
  end.

(** What the receive loop took from the script, and what it left there. *)
Lemma manage_connection_consumes (recvs : list RecvEvent) :
  forall self,
    on_new_price_callback self <> None ->
    let '(self', out, actions, remaining) := _manage_connection self recvs in
    exists consumed,
      recvs = consumed ++ remaining /\
      deliveries actions = all_forwarded consumed /\
      (out = Waiting -> remaining = []) /\
      (out = ReturnsNone -> _kill_thread self' = true) /\
      (forall e r, out = Failure e r -> consumed <> [] /\ ws self' = None).
Proof.
  induction recvs as [| ev later IH]; intros self Hcb; simpl.
  - destruct (_kill_thread self) eqn:K; exists []; repeat split; auto; discriminate.
  - destruct (_kill_thread self) eqn:K.
    { exists []. repeat split; auto; discriminate. }
    assert (Hfail : forall s e r done,
               deliveries done = all_forwarded [ev] ->
               let '(self', out, actions, remaining) := fail_connection s e r later done in
               exists consumed,
                 ev :: later = consumed ++ remaining /\
                 deliveries actions = all_forwarded consumed /\
                 (out = Waiting -> remaining = []) /\
                 (out = ReturnsNone -> _kill_thread self' = true) /\
                 (forall e r, out = Failure e r -> consumed <> [] /\ ws self' = None)).
    { intros s e r done Hd. unfold fail_connection. exists [ev].
      rewrite deliveries_app, Hd, app_nil_r.
      repeat split; auto; discriminate. }
    assert (Hfw : all_forwarded [ev] =
                  match forwarded ev with Some m => [m] | None => [] end).
    { simpl. now destruct (forwarded ev). }
    rewrite Hfw in Hfail. clear Hfw. unfold forwarded in Hfail.
    destruct (received ev) as [response | e] eqn:R.
    + destruct (json_loads response) as [result |] eqn:J.
      * destruct (is_list result) eqn:L.
        -- rewrite requested_callback.
           destruct (on_new_price_callback self) as [cb |] eqn:Ecb; [| congruence].
           destruct (callback_raises ev) as [e |].
           ++ apply Hfail.
              rewrite deliveries_app. simpl. now rewrite !deliveries_kill_mark.
           ++ run_connection IH self.
              destruct IHrun as (consumed & -> & Hd & Hrest).
              { now rewrite !requested_callback, Ecb. }
              exists (ev :: consumed). simpl. unfold forwarded. rewrite R, J, L.
              rewrite !deliveries_app, !deliveries_kill_mark, Hd. simpl.
              rewrite deliveries_kill_mark. simpl.
              destruct Hrest as (Hw & Hn & Hf).
              split; [reflexivity |]. split; [reflexivity |].
              split; [exact Hw |]. split; [exact Hn |].
              intros e r Ho. split; [discriminate | now apply (Hf e r)].
        -- run_connection IH self.
           destruct IHrun as (consumed & -> & Hd & Hrest).
           { now rewrite requested_callback. }
           exists (ev :: consumed). simpl. unfold forwarded. rewrite R, J, L.
           rewrite deliveries_app, deliveries_kill_mark, Hd. simpl.
           destruct Hrest as (Hw & Hn & Hf).
           split; [reflexivity |]. split; [reflexivity |].
           split; [exact Hw |]. split; [exact Hn |].
           intros e r Ho. split; [discriminate | now apply (Hf e r)].
      * apply Hfail. now rewrite deliveries_kill_mark.
    + apply Hfail. now rewrite deliveries_kill_mark.
Qed.

(** The receive loop changes the socket and the kill flag only; a failure
    has taken at least one answer from the script and left the socket
    closed. *)
Lemma manage_connection_frame (recvs : list RecvEvent) :
  forall self,
    let '(self', out, actions, remaining) := _manage_connection self recvs in
    (List.length remaining <= List.length recvs)%nat /\
    (forall e r, out = Failure e r ->
       (List.length remaining < List.length recvs)%nat /\ ws self' = None) /\
    (_kill_thread self = true -> _kill_thread self' = true) /\
    reconnect_attempts self' = reconnect_attempts self /\
    reconnect_attempts_limit self' = reconnect_attempts_limit self.
Proof.
  induction recvs as [| ev later IH]; intros self; simpl.
  - destruct (_kill_thread self) eqn:K; repeat split; intros; try discriminate; auto.
  - destruct (_kill_thread self) eqn:K.
    { repeat split; intros; try discriminate; auto. }
    assert (Hfail : forall s e r done,
               reconnect_attempts s = reconnect_attempts self ->
               reconnect_attempts_limit s = reconnect_attempts_limit self ->
               let '(self', out, actions, remaining) := fail_connection s e r later done in
               (List.length remaining <= S (List.length later))%nat /\
               (forall e r, out = Failure e r ->
                  (List.length remaining < S (List.length later))%nat /\ ws self' = None) /\
               (false = true -> _kill_thread self' = true) /\
               reconnect_attempts self' = reconnect_attempts self /\
               reconnect_attempts_limit self' = reconnect_attempts_limit self).
    { intros s e r done Ha Hl. unfold fail_connection. simpl.
      repeat split; intros; try discriminate; auto. }
    assert (Hreq : forall k s, reconnect_attempts (requested k s) = reconnect_attempts s /\
                               reconnect_attempts_limit (requested k s) =
                               reconnect_attempts_limit s /\
                               (_kill_thread s = true -> _kill_thread (requested k s) = true)).
    { intros [] s; simpl; auto. }
    assert (Hrec : forall s done,
               reconnect_attempts s = reconnect_attempts self ->
               reconnect_attempts_limit s = reconnect_attempts_limit self ->
               let '(self', out, actions, remaining) :=
                 (let '(self3, out, actions, remaining) := _manage_connection s later in
                  (self3, out, done ++ actions, remaining)) in
               (List.length remaining <= S (List.length later))%nat /\
               (forall e r, out = Failure e r ->
                  (List.length remaining < S (List.length later))%nat /\ ws self' = None) /\
               (false = true -> _kill_thread self' = true) /\
               reconnect_attempts self' = reconnect_attempts self /\
               reconnect_attempts_limit self' = reconnect_attempts_limit self).
    { intros s done Ha Hl. specialize (IH s).
      destruct (_manage_connection s later) as [[[s' out] actions] remaining].
      destruct IH as (Hlen & Hf & _ & Ha' & Hl').
      split; [lia |]. split.
      - intros e r Ho. destruct (Hf e r Ho). split; [lia | assumption].
      - split; [discriminate |]. split; congruence. }
    destruct (Hreq (kill_during_recv ev) self) as (A1 & L1 & _).
    destruct (Hreq (kill_during_callback ev) (requested (kill_during_recv ev) self))
      as (A2 & L2 & _).
    destruct (received ev) as [response | e].
    + destruct (json_loads response) as [result |].
      * destruct (is_list result).
        -- destruct (on_new_price_callback (requested (kill_during_recv ev) self)).
           ++ destruct (callback_raises ev).
              ** apply Hfail; congruence.
              ** apply Hrec; congruence.
           ++ apply Hfail; congruence.
        -- apply Hrec; congruence.
      * apply Hfail; congruence.
    + apply Hfail; congruence.
Qed.

Lemma before_outcome (actions : list Action) (r : Run) :
  outcome (before actions r) = outcome r.
Proof. reflexivity. Qed.

Lemma before_trace (actions : list Action) (r : Run) :
  trace (before actions r) = actions ++ trace r.
Proof. reflexivity. Qed.

Lemma connected_fuel (self : KrakenSocketHandler) (env : Env)
      (continue : KrakenSocketHandler -> Env -> Run) :
  (forall s remaining,
     (List.length remaining < List.length (recvs env))%nat ->
     outcome (continue s (mkEnv (connects env) remaining)) <> OutOfFuel) ->
  outcome (connected self env continue) <> OutOfFuel.
Proof.
  intros Hc. unfold connected.
  pose proof (manage_connection_frame (recvs env) self) as F.
  destruct (_manage_connection self (recvs env)) as [[[s' out] actions] remaining].
  destruct F as (_ & Hf & _).
  destruct out as [| e r |]; simpl; try discriminate.
  apply Hc. now apply (Hf e r).
Qed.

(** The bound on the turns of the loop is never reached. *)
Lemma manage_loop_fuel (fuel : nat) :
  forall self env,
    (turns env <= fuel)%nat -> outcome (manage_loop fuel self env) <> OutOfFuel.
Proof.
  induction fuel as [| fuel IH]; intros self env Hfuel.
  - unfold turns in Hfuel. lia.
  - simpl. destruct (reconnect_attempts self <? reconnect_attempts_limit self);
      [| discriminate].
    unfold turns in *.
    destruct (ws self) as [sock |].
    + apply connected_fuel. intros s remaining Hlen. apply IH.
      unfold turns. simpl. lia.
    + destruct (connects env) as [| ev later] eqn:Ec; [discriminate |].
      destruct (reconnect self ev) as [self1 actions].
      rewrite before_outcome. destruct (ws self1) as [sock |].
      * apply connected_fuel. intros s remaining Hlen. apply IH.
        unfold turns. simpl in *. lia.
      * apply IH. unfold turns. simpl in *. lia.
Qed.

Lemma manage_thread_fuel (self : KrakenSocketHandler) (env : Env) :
  outcome (_manage_thread self env) <> OutOfFuel.
Proof. unfold _manage_thread. now apply manage_loop_fuel. Qed.

(** *** After a kill request *)

Lemma after_kill_app (a b : list Action) :
  after_kill (a ++ b) = if has_kill a then after_kill a ++ b else after_kill b.
Proof.
  induction a as [| x a IH]; simpl; [reflexivity |].
  destruct x; simpl; auto.
Qed.

Lemma has_kill_app (a b : list Action) :
  has_kill (a ++ b) = has_kill a || has_kill b.
Proof.
  induction a as [| x a IH]; simpl; [reflexivity |].
  destruct x; simpl; auto.
Qed.

Lemma deliveries_after_kill (t : list Action) :
  (List.length (deliveries (after_kill t)) <= List.length (deliveries t))%nat.
Proof.
  induction t as [| x t IH]; simpl; [lia |].
  destruct x; simpl; lia.
Qed.

(** From a handler with no kill request pending, the receive loop either
    meets none, or meets one and delivers at most one message after it. *)
Lemma manage_connection_after_kill (recvs : list RecvEvent) :
  forall self,
    _kill_thread self = false ->
    let '(self', out, actions, remaining) := _manage_connection self recvs in
    if has_kill actions
    then _kill_thread self' = true /\
         (List.length (deliveries (after_kill actions)) <= 1)%nat
    else _kill_thread self' = false.
Proof.
  induction recvs as [| ev later IH]; intros self K; simpl; rewrite K; simpl.
  - exact K.
  - destruct ev as [rcv k1 raises k2]; simpl.
    destruct rcv as [response | e]; simpl.
    + destruct (json_loads response) as [result |]; simpl.
      * destruct (is_list result); simpl.
        -- rewrite requested_callback.
           destruct (on_new_price_callback self); simpl.
           ++ destruct raises as [e |]; simpl.
              ** destruct k1, k2; simpl; auto.
              ** destruct k1.
                 { rewrite manage_connection_killed by (now destruct k2).
                   simpl. destruct k2; simpl; split; auto. }
                 destruct k2.
                 { rewrite manage_connection_killed by reflexivity.
                   simpl. split; auto. }
                 simpl. specialize (IH self K).
                 destruct (_manage_connection self later) as [[[s' out] actions] remaining].
                 simpl. exact IH.
           ++ destruct k1; simpl; auto.
        -- destruct k1.
           { rewrite manage_connection_killed by reflexivity. simpl. split; auto. }
           simpl. specialize (IH self K).
           destruct (_manage_connection self later) as [[[s' out] actions] remaining].
           simpl. exact IH.
      * destruct k1; simpl; auto.
    + destruct k1; simpl; auto.
Qed.

Lemma create_connection_facts (self : KrakenSocketHandler) (ev : ConnectEvent) :
  let '(self', ok, actions) := _create_connection self ev in
  deliveries actions = [] /\
  has_kill actions = kill_during_connect ev /\
  _kill_thread self' = kill_during_connect ev || _kill_thread self /\
  alerts actions = [] /\
  handshakes actions = 1%nat /\
  reconnect_attempts self' = reconnect_attempts self /\
  reconnect_attempts_limit self' = reconnect_attempts_limit self /\
  on_new_price_callback self' = on_new_price_callback self /\
  (ok = true <-> handshake ev = Connected) /\
  ws self' = (if ok then Some WebSocket else None).
Proof.
  unfold _create_connection.
  destruct ev as [h k]; simpl.
  destruct h, k, (ws self); simpl; repeat split; auto; discriminate.
Qed.

Lemma reconnect_facts (self : KrakenSocketHandler) (ev : ConnectEvent) :
  let '(self', actions) := reconnect self ev in
  deliveries actions = [] /\
  has_kill actions = kill_during_connect ev /\
  _kill_thread self' = kill_during_connect ev || _kill_thread self /\
  on_new_price_callback self' = on_new_price_callback self.
Proof.
  unfold reconnect.
  pose proof (create_connection_facts
                (set_attempts self (reconnect_attempts self + 1)) ev) as F.
  destruct (_create_connection _ ev) as [[self2 ok] actions].
  destruct F as (D & H & K & _ & _ & _ & _ & C & _).
  destruct ok; simpl; auto.
Qed.

Lemma connected_killed (self : KrakenSocketHandler) (env : Env)
      (continue : KrakenSocketHandler -> Env -> Run) :
  _kill_thread self = true ->
  connected self env continue = mkRun self (Raises TypeError) [] env.
Proof.
  intros K. unfold connected. rewrite manage_connection_killed by exact K.
  now destruct env.
Qed.

(** Once a kill request is pending, the loop delivers nothing more. *)
Lemma manage_loop_killed (fuel : nat) :
  forall self env,
    _kill_thread self = true -> deliveries (trace (manage_loop fuel self env)) = [].
Proof.
  induction fuel as [| fuel IH]; intros self env K; simpl; [reflexivity |].
  destruct (reconnect_attempts self <? reconnect_attempts_limit self).
  - destruct (ws self) as [sock |].
    + now rewrite connected_killed.
    + destruct (connects env) as [| ev later]; [reflexivity |].
      pose proof (reconnect_facts self ev) as F.
      destruct (reconnect self ev) as [self1 actions].
      destruct F as (D & _ & K1 & _).
      rewrite K, orb_true_r in K1.
      rewrite before_trace, deliveries_app, D. simpl.
      destruct (ws self1) as [sock |].
      * now rewrite connected_killed.
      * now apply IH.
  - simpl. now rewrite K.
Qed.

Lemma after_kill_none (t : list Action) : has_kill t = false -> after_kill t = [].
Proof.
  induction t as [| x t IH]; simpl; [reflexivity |].
  destruct x; simpl; auto; discriminate.
Qed.

Lemma connected_after_kill (self : KrakenSocketHandler) (env : Env)
      (continue : KrakenSocketHandler -> Env -> Run) :
  _kill_thread self = false ->
  (forall s e, _kill_thread s = true -> deliveries (trace (continue s e)) = []) ->
  (forall s e, (List.length (deliveries (after_kill (trace (continue s e)))) <= 1)%nat) ->
  (List.length (deliveries (after_kill (trace (connected self env continue)))) <= 1)%nat.
Proof.
  intros K Hk Hc. unfold connected.
  pose proof (manage_connection_after_kill (recvs env) self K) as F.
  destruct (_manage_connection self (recvs env)) as [[[s' out] actions] remaining].
  assert (Hactions : (List.length (deliveries (after_kill actions)) <= 1)%nat).
  { destruct (has_kill actions) eqn:H; [tauto |].
    rewrite after_kill_none by exact H. simpl. lia. }
  destruct out as [| e r |]; simpl; try exact Hactions.
  rewrite !after_kill_app, has_kill_app. simpl. rewrite orb_false_r.
  destruct (has_kill actions) eqn:H.
  - destruct F as [K' _].
    rewrite !deliveries_app, (Hk _ _ K'). simpl.
    rewrite !app_nil_r. exact Hactions.
  - apply Hc.
Qed.

(** C4, the part that holds: after a kill request at most one more message
    reaches the callback, on every run of the loop. *)
Lemma manage_loop_after_kill (fuel : nat) :
  forall self env,
    (List.length (deliveries (after_kill (trace (manage_loop fuel self env)))) <= 1)%nat.
Proof.
  induction fuel as [| fuel IH]; intros self env; [simpl; lia |].
  destruct (_kill_thread self) eqn:K.
  { pose proof (manage_loop_killed (S fuel) self env K) as D.
    pose proof (deliveries_after_kill (trace (manage_loop (S fuel) self env))) as L.
    rewrite D in L. eapply Nat.le_trans; [exact L | simpl; lia]. }
  simpl.
  destruct (reconnect_attempts self <? reconnect_attempts_limit self).
  - destruct (ws self) as [sock |].
    + apply connected_after_kill; auto. intros. now apply manage_loop_killed.
    + destruct (connects env) as [| ev later]; [simpl; lia |].
      pose proof (reconnect_facts self ev) as F.
      destruct (reconnect self ev) as [self1 actions].
      destruct F as (D & H & K1 & _).
      rewrite K, orb_false_r in K1.
      rewrite before_trace, after_kill_app, H.
      destruct (kill_during_connect ev).
      * rewrite deliveries_app.
        pose proof (deliveries_after_kill actions) as L. rewrite D in L.
        destruct (ws self1) as [sock |].
        -- rewrite connected_killed by exact K1. simpl. rewrite app_nil_r. simpl in L. lia.
        -- rewrite (manage_loop_killed fuel _ _ K1). rewrite app_nil_r. simpl in L. lia.
      * destruct (ws self1) as [sock |].
        -- apply connected_after_kill; auto. intros. now apply manage_loop_killed.
        -- apply IH.
  - simpl. rewrite K. simpl. lia.
Qed.

(** *** Handshakes after a kill request *)

Lemma handshakes_app (a b : list Action) :
  handshakes (a ++ b) = (handshakes a + handshakes b)%nat.
Proof.
  induction a as [| x a IH]; simpl; [reflexivity |].
  destruct x; simpl; now rewrite ?IH.
Qed.

Lemma handshakes_after_kill (t : list Action) :
  (handshakes (after_kill t) <= handshakes t)%nat.
Proof.
  induction t as [| x t IH]; simpl; [lia |].
  destruct x; simpl; lia.
Qed.

Lemma handshakes_kill_mark (k : bool) : handshakes (kill_mark k) = 0%nat.
Proof. now destruct k. Qed.

Ltac count_handshakes :=
  repeat progress (rewrite ?handshakes_app, ?handshakes_kill_mark; simpl).

Lemma manage_connection_no_handshake (recvs : list RecvEvent) :
  forall self,
    let '(self', out, actions, remaining) := _manage_connection self recvs in
    handshakes actions = 0%nat.
Proof.
  induction recvs as [| ev later IH]; intros self; simpl.
  - now destruct (_kill_thread self).
  - destruct (_kill_thread self); [reflexivity |].
    destruct (received ev) as [response | e]; simpl.
    + destruct (json_loads response) as [result |]; simpl.
      * destruct (is_list result).
        -- destruct (on_new_price_callback _); simpl.
           ++ destruct (callback_raises ev); simpl.
              ** now count_handshakes.
              ** run_connection IH self. count_handshakes. now rewrite IHrun.
           ++ now count_handshakes.
        -- run_connection IH self. count_handshakes. now rewrite IHrun.
      * now count_handshakes.
    + now count_handshakes.
Qed.

(** One handshake of the loop: the kill mark, if any, follows the opening of
    the transport; the counter ends at 0 with a socket, or one higher with
    none. *)
Lemma reconnect_attempts_facts (self : KrakenSocketHandler) (ev : ConnectEvent) :
  let '(self', actions) := reconnect self ev in
  handshakes actions = 1%nat /\
  handshakes (after_kill actions) = 0%nat /\
  reconnect_attempts_limit self' = reconnect_attempts_limit self /\
  match ws self' with
  | Some _ => reconnect_attempts self' = 0
  | None => reconnect_attempts self' = reconnect_attempts self + 1
  end.
Proof.
  destruct ev as [h k]. unfold reconnect, _create_connection. simpl.
  destruct h, k, (ws self); simpl; repeat split; auto.
Qed.

(** With a kill request pending, the loop makes no more handshakes than the
    attempts it has left. *)
Lemma manage_loop_killed_handshakes (fuel : nat) :
  forall self env,
    _kill_thread self = true ->
    (handshakes (trace (manage_loop fuel self env)) <=
     Z.to_nat (reconnect_attempts_limit self - reconnect_attempts self))%nat.
Proof.
  induction fuel as [| fuel IH]; intros self env K; simpl; [lia |].
  destruct (reconnect_attempts self <? reconnect_attempts_limit self) eqn:E.
  - apply Z.ltb_lt in E.
    destruct (ws self) as [sock |].
    + rewrite connected_killed by exact K. simpl. lia.
    + destruct (connects env) as [| ev later]; [simpl; lia |].
      pose proof (reconnect_facts self ev) as F.
      pose proof (reconnect_attempts_facts self ev) as G.
      destruct (reconnect self ev) as [self1 actions].
      destruct F as (_ & _ & K1 & _). rewrite K, orb_true_r in K1.
      destruct G as (H1 & _ & L1 & A1).
      rewrite before_trace, handshakes_app, H1.
      destruct (ws self1) as [sock |].
      * rewrite connected_killed by exact K1. simpl. lia.
      * specialize (IH self1 (mkEnv later (recvs env)) K1).
        rewrite L1, A1 in IH. lia.
  - unfold leave_loop. simpl. rewrite K. simpl. lia.
Qed.

Lemma connected_handshakes_after_kill (self : KrakenSocketHandler) (env : Env)
      (continue : KrakenSocketHandler -> Env -> Run) :
  _kill_thread self = false ->
  0 <= reconnect_attempts self ->
  (forall s e, _kill_thread s = true ->
     (handshakes (trace (continue s e)) <=
      Z.to_nat (reconnect_attempts_limit s - reconnect_attempts s))%nat) ->
  (forall s e, _kill_thread s = false -> 0 <= reconnect_attempts s ->
     (handshakes (after_kill (trace (continue s e))) <=
      Z.to_nat (reconnect_attempts_limit s))%nat) ->
  (handshakes (after_kill (trace (connected self env continue))) <=
   Z.to_nat (reconnect_attempts_limit self))%nat.
Proof.
  intros K A Hk Hc. unfold connected.
  pose proof (manage_connection_after_kill (recvs env) self K) as F.
  pose proof (manage_connection_frame (recvs env) self) as G.
  pose proof (manage_connection_no_handshake (recvs env) self) as N.
  destruct (_manage_connection self (recvs env)) as [[[s' out] actions] remaining].
  destruct G as (_ & _ & _ & A' & L').
  assert (Hactions : handshakes (after_kill actions) = 0%nat).
  { pose proof (handshakes_after_kill actions). lia. }
  destruct out as [| e r |]; simpl; try (rewrite Hactions; lia).
  rewrite !after_kill_app, has_kill_app. simpl. rewrite orb_false_r.
  destruct (has_kill actions) eqn:H.
  - destruct F as [K' _].
    rewrite !handshakes_app, Hactions. simpl.
    specialize (Hk s' (mkEnv (connects env) remaining) K').
    rewrite A', L' in Hk. lia.
  - rewrite <- L'. apply Hc; [exact F | lia].
Qed.

(** After a kill request the loop makes no more handshakes than its limit
    of attempts. *)
Lemma manage_loop_handshakes_after_kill (fuel : nat) :
  forall self env,
    _kill_thread self = false ->
    0 <= reconnect_attempts self ->
    (handshakes (after_kill (trace (manage_loop fuel self env))) <=
     Z.to_nat (reconnect_attempts_limit self))%nat.
Proof.
  induction fuel as [| fuel IH]; intros self env K A; simpl; [lia |].
  destruct (reconnect_attempts self <? reconnect_attempts_limit self) eqn:E.
  - apply Z.ltb_lt in E.
    destruct (ws self) as [sock |].
    + apply connected_handshakes_after_kill; auto.
      intros. now apply manage_loop_killed_handshakes.
    + destruct (connects env) as [| ev later]; [simpl; lia |].
      pose proof (reconnect_facts self ev) as F.
      pose proof (reconnect_attempts_facts self ev) as G.
      destruct (reconnect self ev) as [self1 actions].
      destruct F as (_ & H & K1 & _). rewrite K, orb_false_r in K1.
      destruct G as (H1 & H0 & L1 & A1).
      rewrite before_trace, after_kill_app, H.
      destruct (kill_during_connect ev).
      * rewrite handshakes_app, H0. simpl.
        destruct (ws self1) as [sock |].
        -- rewrite connected_killed by exact K1. simpl. lia.
        -- pose proof (manage_loop_killed_handshakes fuel self1
                         (mkEnv later (recvs env)) K1) as B.
           rewrite L1, A1 in B. lia.
      * rewrite <- L1. destruct (ws self1) as [sock |].
        -- apply connected_handshakes_after_kill; auto; [lia |].
           intros. now apply manage_loop_killed_handshakes.
        -- apply IH; [exact K1 | lia].
  - unfold leave_loop. simpl. rewrite K. simpl. lia.
Qed.

(** *** The claims about the handler *)

(** C3, as the code has it.  While the handler is connected, the payloads
    that decode to a JSON array, and only those, reach the callback: each
    once, in the order received.  Nothing is left unread while the loop
    waits for the next payload. *)
Theorem connected_forwards_decoded_lists :
  forall (self : KrakenSocketHandler) (recvs : list RecvEvent),
    on_new_price_callback self <> None ->
    let '(self', out, actions, remaining) := _manage_connection self recvs in
    exists consumed,
      recvs = consumed ++ remaining /\
      deliveries actions = all_forwarded consumed /\
      (out = Waiting -> remaining = []).
Proof.
  intros self recvs Hcb.
  pose proof (manage_connection_consumes recvs self Hcb) as H.
  destruct (_manage_connection self recvs) as [[[self' out] actions] remaining].
  destruct H as (consumed & H1 & H2 & H3 & _). now exists consumed.
Qed.

(** C4, as the code has it.  On every run of [_manage_thread], at most one
    message reaches the callback after a kill request, and none when the
    request was made before the run.  Handshakes can still follow the
    request, no more of them than the limit of attempts (1 when the limit
    is not positive).  The run ends within the script. *)
Theorem at_most_one_message_after_kill :
  forall (self : KrakenSocketHandler) (env : Env),
    (List.length (deliveries (after_kill (trace (_manage_thread self env)))) <= 1)%nat /\
    (if _kill_thread self
     then deliveries (trace (_manage_thread self env)) = []
     else True) /\
    (handshakes (after_kill (trace (_manage_thread self env))) <=
     Z.to_nat (if (reconnect_attempts_limit self <=? 0)%Z then 1%Z
               else reconnect_attempts_limit self))%nat /\
    outcome (_manage_thread self env) <> OutOfFuel.
Proof.
  intros self env. split; [apply manage_loop_after_kill |].
  split; [| split; [| apply manage_thread_fuel]].
  - destruct (_kill_thread self) eqn:K; [| exact I].
    unfold _manage_thread. now apply manage_loop_killed.
  - unfold _manage_thread.
    set (limit := if reconnect_attempts_limit self <=? 0 then 1
                  else reconnect_attempts_limit self).
    set (self1 := set_attempts (set_limit self limit) 0).
    destruct (_kill_thread self) eqn:K.
    + pose proof (manage_loop_killed_handshakes (turns env) self1 env K) as B.
      pose proof (handshakes_after_kill (trace (manage_loop (turns env) self1 env))) as L.
      change (reconnect_attempts_limit self1 - reconnect_attempts self1)
        with (limit - 0) in B.
      rewrite Z.sub_0_r in B. lia.
    + apply (manage_loop_handshakes_after_kill (turns env) self1 env K).
      simpl. lia.
Qed.

(** C6, as the code has it.  Each handshake of the loop counts as one
    attempt before it is made.  A failed one leaves the counter one higher,
    the socket unset and an error in the log; a successful one sets the
    counter to 0.  Neither sends an alert. *)
Theorem handshake_counts_attempts :
  forall (self : KrakenSocketHandler) (ev : ConnectEvent),
    let '(self', actions) := reconnect self ev in
    alerts actions = [] /\
    handshakes actions = 1%nat /\
    match handshake ev with
    | Connected => reconnect_attempts self' = 0 /\ ws self' = Some WebSocket
    | OpenFails error | SendFails error =>
        reconnect_attempts self' = reconnect_attempts self + 1 /\
        ws self' = None /\
        In (LogError error) actions
    end.
Proof.
  intros self [h k]. unfold reconnect, _create_connection. simpl.
  destruct h, k, (ws self); simpl; repeat split; auto 10.
Qed.

Lemma clamped_limit_positive (limit : Z) :
  (0 <? (if limit <=? 0 then 1 else limit)) = true.
Proof.
  destruct (limit <=? 0) eqn:E; [reflexivity |].
  apply Z.leb_gt in E. apply Z.ltb_lt. lia.
Qed.

(** C7, as the code has it.  Only the thread is single-use: on an instance
    whose thread was started, [connect_as_new_thread] raises [RuntimeError]
    and does nothing else.  [connect_on_this_thread] runs the loop again on
    any instance, whatever an earlier run left in it: with a handshake and
    one payload that decodes to an array in the script, the message is
    delivered. *)
Theorem single_use_only_as_new_thread :
  forall (self : KrakenSocketHandler) (pair : jvalue) (callback : Callback)
         (response : string) (message : jvalue) (env : Env),
    is_list pair = true ->
    json_loads response = Some message ->
    is_list message = true ->
    (started self = true ->
     connect_as_new_thread self pair (Some callback) env =
     mkRun (_init_args self pair (Some callback)) (Raises RuntimeError) [] env) /\
    deliveries
      (trace (connect_on_this_thread self pair (Some callback)
                (mkEnv [mkConnect Connected false]
                       [mkRecv (Ok response) false None false]))) = [message].
Proof.
  intros self pair callback response message env Hpair Hloads Hlist. split.
  - intros Hs. unfold connect_as_new_thread. simpl. now rewrite Hs.
  - unfold connect_on_this_thread, run. simpl. rewrite Hpair. simpl.
    unfold _manage_thread. simpl. rewrite clamped_limit_positive.
    destruct (ws self) as [sock |]; simpl.
    + unfold connected. simpl. now rewrite Hloads, Hlist.
    + unfold connected. simpl. now rewrite Hloads, Hlist.
Qed.

End Handler.

(** *** Runs on scripts *)

(** [json.loads] on the payloads of the scripts below: an array, an object,
    and a text that is not JSON. *)
Definition loads (payload : string) : option jvalue :=
  if String.eqb payload "[1, 2]" then Some (JList [JInt 1; JInt 2])
  else if String.eqb payload "[3]" then Some (JList [JInt 3])
  else if String.eqb payload "{}" then Some (JObj [])
  else None.

Definition plain (payload : string) : RecvEvent :=
  mkRecv (Ok payload) false None false.

Definition subscriber : Callback := Subscriber 0.

Definition pairs : jvalue := JList [JStr "XBT/USD"].

(** A handler that is connected and subscribed. *)
Definition connected_handler : KrakenSocketHandler :=
  {| started := false;
     ws := Some WebSocket;
     reconnect_attempts_limit := 3;
     reconnect_attempts := 0;
     pair := pairs;
     _kill_thread := false;
     on_new_price_callback := Some subscriber |}.

Definition refused : ConnectEvent :=
  mkConnect (OpenFails (TransportError "refused")) false.

(** C3 fails as stated.  The payload [{}] is valid JSON and decodes to an
    object; the handler stays connected and goes on to the next payload
    without calling the callback for it. *)
Lemma decoded_object_is_not_forwarded :
  loads "{}" = Some (JObj []) /\
  _manage_connection loads connected_handler [plain "{}"; plain "[1, 2]"] =
    (connected_handler, Waiting, [Deliver (JList [JInt 1; JInt 2])], []).
Proof. split; vm_compute; reflexivity. Qed.

(** Three payloads, the second an object: the two arrays are delivered in
    order and the handler waits for more. *)
Lemma connected_forwards_decoded_lists_witness :
  exists consumed,
    [plain "[3]"; plain "{}"; plain "[1, 2]"] = consumed ++ [] /\
    deliveries [Deliver (JList [JInt 3]); Deliver (JList [JInt 1; JInt 2])] =
      all_forwarded loads consumed /\
    (Waiting = Waiting -> @nil RecvEvent = []).
Proof.
  apply (connected_forwards_decoded_lists loads connected_handler
           [plain "[3]"; plain "{}"; plain "[1, 2]"]).
  discriminate.
Defined.

(** C4 fails as stated.  The kill request arrives while the handler waits
    in [recv()], and [recv()] then raises: the handler alerts, opens the
    transport and subscribes once more, and only then sees the request. *)
Lemma handshake_follows_kill_request :
  trace (connect_on_this_thread loads new_handler pairs (Some subscriber)
           (mkEnv [mkConnect Connected false; mkConnect Connected false]
                  [mkRecv (Raise (TransportError "closed")) true None false])) =
    [LogConnecting; OpenTransport; LogSubscribing; SendSubscribe pairs;
     KillRequested; CloseSocket;
     Alert (Disconnected (TransportError "closed") None);
     LogConnecting; OpenTransport; LogSubscribing; SendSubscribe pairs] /\
  handshakes
    (after_kill
       (trace (connect_on_this_thread loads new_handler pairs (Some subscriber)
                 (mkEnv [mkConnect Connected false; mkConnect Connected false]
                        [mkRecv (Raise (TransportError "closed")) true None false])))) =
    1%nat.
Proof. split; vm_compute; reflexivity. Qed.

(** C6 fails as stated.  Three handshakes fail in a row under the limit of
    3: the transport is opened three times and one alert is sent, the one
    that ends the run. *)
Lemma failed_handshakes_send_no_alert :
  trace (connect_on_this_thread loads new_handler pairs (Some subscriber)
           (mkEnv [refused; refused; refused] [])) =
    [LogConnecting; OpenTransport; LogError (TransportError "refused");
     LogConnecting; OpenTransport; LogError (TransportError "refused");
     LogConnecting; OpenTransport; LogError (TransportError "refused");
     Alert MaxAttemptsExceeded] /\
  outcome (connect_on_this_thread loads new_handler pairs (Some subscriber)
             (mkEnv [refused; refused; refused] [])) = Returns.
Proof. split; vm_compute; reflexivity. Qed.

(** The instance a run leaves behind when every handshake was refused. *)
Definition exhausted_handler : KrakenSocketHandler :=
  final (connect_on_this_thread loads new_handler pairs (Some subscriber)
           (mkEnv [refused; refused; refused] [])).

(** C7 fails as stated.  The loop of the instance has ended on the limit of
    attempts; [connect_on_this_thread] on the same instance connects and
    delivers a message. *)
Lemma exhausted_handler_runs_again :
  outcome (connect_on_this_thread loads new_handler pairs (Some subscriber)
             (mkEnv [refused; refused; refused] [])) = Returns /\
  reconnect_attempts exhausted_handler = 3 /\
  trace (connect_on_this_thread loads exhausted_handler pairs (Some subscriber)
           (mkEnv [mkConnect Connected false] [plain "[1, 2]"])) =
    [LogConnecting; OpenTransport; LogSubscribing; SendSubscribe pairs;
     Deliver (JList [JInt 1; JInt 2])].
Proof. repeat split; vm_compute; reflexivity. Qed.

(** The exhausted instance, its thread started: a second start is refused,
    a run on the calling thread delivers. *)
Lemma single_use_only_as_new_thread_witness :
  (started (set_started exhausted_handler) = true ->
   connect_as_new_thread loads (set_started exhausted_handler) pairs (Some subscriber)
     (mkEnv [] []) =
   mkRun (_init_args (set_started exhausted_handler) pairs (Some subscriber))
         (Raises RuntimeError) [] (mkEnv [] [])) /\
  deliveries
    (trace (connect_on_this_thread loads (set_started exhausted_handler) pairs
              (Some subscriber)
              (mkEnv [mkConnect Connected false]
                     [mkRecv (Ok "[1, 2]"%string) false None false]))) =
    [JList [JInt 1; JInt 2]].
Proof.
  apply (single_use_only_as_new_thread loads (set_started exhausted_handler) pairs
           subscriber "[1, 2]" (JList [JInt 1; JInt 2]) (mkEnv [] []));
    reflexivity.
Defined.

End KrakenSocket.

(** ** Buda: further properties of the trade list *)

Module BudaProperties.

Import Buda.

(** *** Modes and errors *)

Section Modes.

Variable py_int : jvalue -> conversion Z.
Variable py_float : jvalue -> conversion float.

Lemma merge_frames_store (self : BudaMarketTradeList) (sdf odf : DataFrame) :
  is_resampled self = true ->
  is_resampled (fst (merge_frames self sdf odf)) = true /\
  forall df, snd (merge_frames self sdf odf) = Ok df ->
             trade_list (fst (merge_frames self sdf odf)) = PyFrame df.
Proof.
  intros H. unfold merge_frames.
  destruct (negb (has_datetime_index sdf && has_datetime_index odf));
    [split; [exact H | discriminate] |].
  destruct (has_ohlcv sdf || has_ohlcv odf); simpl; split; auto.
  - intros df X. now injection X as <-.
  - discriminate.
Qed.

Lemma resample_store (self : BudaMarketTradeList) (df : DataFrame) :
  snd (resample_ohlcv self) = Ok df ->
  trade_list (fst (resample_ohlcv self)) = PyFrame df.
Proof.
  unfold resample_ohlcv.
  destruct (trade_list self) as [[| e l] | d]; try discriminate.
  destruct (forallb in_datetime_range (map timestamp (e :: l))); [| discriminate].
  unfold _filter_by_timestamp. simpl.
  destruct (filter_timestamp self); simpl; [discriminate |].
  intros X. now injection X as <-.
Qed.

(** X1.  The way from raw to aggregated is one way.  No method takes an instance
    that holds a frame back to a list; and when [resample_ohlcv],
    [append_and_resample] or [merge] returns a frame, the instance holds
    that frame, so that [append_raw] raises from then on. *)
Theorem aggregated_mode_is_final :
  forall (self : BudaMarketTradeList) (new_entries : list jvalue) (arg : MergeArg),
    (is_resampled self = true ->
       is_resampled (fst (append_raw py_int py_float self new_entries)) = true /\
       is_resampled (fst (resample_ohlcv self)) = true /\
       is_resampled (fst (append_and_resample py_int py_float self new_entries)) = true /\
       is_resampled (fst (merge self arg)) = true) /\
    (forall df, snd (resample_ohlcv self) = Ok df ->
       trade_list (fst (resample_ohlcv self)) = PyFrame df) /\
    (forall df, snd (append_and_resample py_int py_float self new_entries) = Ok df ->
       trade_list (fst (append_and_resample py_int py_float self new_entries)) = PyFrame df) /\
    (forall df, snd (merge self arg) = Ok df ->
       trade_list (fst (merge self arg)) = PyFrame df /\
       snd (append_raw py_int py_float (fst (merge self arg)) new_entries) =
       Raise AssertionError).
Proof.
  intros self new_entries arg.
  pose proof resample_store as Hres.
  assert (Hmerge : forall df, snd (merge self arg) = Ok df ->
                              trade_list (fst (merge self arg)) = PyFrame df).
  { intros df. unfold merge. destruct arg as [other | v]; [| discriminate].
    destruct (trade_list other) as [| odf]; [discriminate |].
    destruct (trade_list self) as [l | sdf] eqn:E.
    - pose proof (Hres self) as R.
      destruct (resample_ohlcv self) as [s1 [sdf | ex]]; [| discriminate].
      simpl in R. specialize (R sdf eq_refl).
      apply merge_frames_store. unfold is_resampled. now rewrite R.
    - apply merge_frames_store. unfold is_resampled. now rewrite E. }
  split; [| split; [apply Hres | split]].
  - intros H. unfold is_resampled in H.
    destruct (trade_list self) as [l | sdf] eqn:E; [discriminate |].
    assert (Ha : append_raw py_int py_float self new_entries = (self, Raise AssertionError)).
    { unfold append_raw. now rewrite E. }
    assert (Hr : resample_ohlcv self = (self, Raise AttributeError)).
    { unfold resample_ohlcv. now rewrite E. }
    assert (Hs : is_resampled self = true) by (unfold is_resampled; now rewrite E).
    unfold append_and_resample. rewrite Ha, Hr. simpl.
    repeat split; auto.
    unfold merge. destruct arg as [other | v]; [| exact Hs].
    destruct (trade_list other) as [| odf]; [exact Hs |].
    rewrite E. now apply merge_frames_store.
  - intros df. unfold append_and_resample.
    destruct (append_raw py_int py_float self new_entries) as [s1 [l | ex]];
      [apply Hres | discriminate].
  - intros df Hdf. split; [now apply Hmerge |].
    unfold append_raw. now rewrite (Hmerge df Hdf).
Qed.

(** *** Timestamps and the range of a pandas datetime *)


Definition in_range (e : BudaMarketTradeEntry) : Prop :=
  in_datetime_range (timestamp e) = true.

(** The timestamp lies a day or more inside the range: the start of its day
    and the end of its hour, which [resample] takes as the edges of its
    bins, are timestamps too. *)
Definition well_inside (e : BudaMarketTradeEntry) : Prop :=
  - TIMESTAMP_MAX_MS + 24 * HOUR_MS <= timestamp e <= TIMESTAMP_MAX_MS - 24 * HOUR_MS.

Lemma in_range_forallb (l : list BudaMarketTradeEntry) :
  forallb in_datetime_range (map timestamp l) = true <-> Forall in_range l.
Proof.
  rewrite forallb_forall, Forall_forall. unfold in_range. split.
  - intros H e He. apply H. now apply in_map.
  - intros H t Ht. apply in_map_iff in Ht as (e & <- & He). now apply H.
Qed.

Lemma well_inside_in_range (e : BudaMarketTradeEntry) : well_inside e -> in_range e.
Proof.
  unfold well_inside, in_range, in_datetime_range, HOUR_MS.
  intros H. apply andb_true_iff. split; apply Z.leb_le; lia.
Qed.

Lemma resample_in_range (self : BudaMarketTradeList) (e : BudaMarketTradeEntry)
      (l : list BudaMarketTradeEntry) :
  trade_list self = PyList (e :: l) ->
  Forall in_range (e :: l) ->
  resample_ohlcv self =
  match filter_timestamp self with
  | Some _ => (set_store self (PyFrame (TradeFrame (e :: l))), Raise AttributeError)
  | None => (set_store self (PyFrame (OhlcvFrame (ohlcv_of_trades (e :: l)))),
             Ok (OhlcvFrame (ohlcv_of_trades (e :: l))))
  end.
Proof.
  intros Hs Hr. apply in_range_forallb in Hr.
  unfold resample_ohlcv, _filter_by_timestamp. rewrite Hs, Hr. simpl.
  now destruct (filter_timestamp self).
Qed.


Lemma resample_raises_with_filter (self : BudaMarketTradeList) (e : BudaMarketTradeEntry)
      (l : list BudaMarketTradeEntry) (t : Z) :
  trade_list self = PyList (e :: l) ->
  filter_timestamp self = Some t ->
  is_ok (snd (resample_ohlcv self)) = false /\
  is_resampled (fst (resample_ohlcv self)) = true.
Proof.
  intros Hs Hf. unfold resample_ohlcv, _filter_by_timestamp. rewrite Hs.
  destruct (forallb in_datetime_range (map timestamp (e :: l))); simpl.
  - rewrite Hf. simpl. now split.
  - now split.
Qed.


(** X3.  A trade list built with a filter timestamp never aggregates its raw
    trades.  Once it holds a trade, [resample_ohlcv], [append_and_resample]
    and [merge] return no frame: they raise, [AttributeError] when the
    timestamps lie a day or more inside the range of a pandas datetime; and
    after [resample_ohlcv] the instance holds a frame, so that it refuses
    [append_raw] as well. *)
Theorem filter_timestamp_blocks_aggregation :
  forall (self other : BudaMarketTradeList) (new_entries : list jvalue)
         (e : BudaMarketTradeEntry) (l : list BudaMarketTradeEntry) (t : Z),
    trade_list self = PyList (e :: l) ->
    filter_timestamp self = Some t ->
    is_resampled other = true ->
    (is_ok (snd (resample_ohlcv self)) = false /\
     is_ok (snd (merge self (ArgTradeList other))) = false /\
     is_ok (snd (append_and_resample py_int py_float self new_entries)) = false) /\
    (Forall well_inside (e :: l) ->
       snd (resample_ohlcv self) = Raise AttributeError /\
       snd (merge self (ArgTradeList other)) = Raise AttributeError) /\
    (snd (append_raw py_int py_float self new_entries) <> Raise AssertionError /\
     forall l', snd (append_raw py_int py_float self new_entries) = Ok l' ->
       Forall well_inside l' ->
       snd (append_and_resample py_int py_float self new_entries) = Raise AttributeError) /\
    snd (append_raw py_int py_float (fst (resample_ohlcv self)) new_entries) =
      Raise AssertionError.
Proof.
  intros self other new_entries e l t Hs Hf Ho.
  destruct (resample_raises_with_filter self e l t Hs Hf) as [Hno Hframe].
  assert (Hmerge : merge self (ArgTradeList other) =
                   (fst (resample_ohlcv self), snd (resample_ohlcv self))).
  { unfold merge. unfold is_resampled in Ho.
    destruct (trade_list other) as [| odf]; [discriminate |].
    rewrite Hs. destruct (resample_ohlcv self) as [s1 [sdf | ex]];
      [discriminate | reflexivity]. }
  assert (Happ : forall l' r,
             append_loop py_int py_float (e :: l) new_entries = (l', r) ->
             exists added, l' = e :: l ++ added /\ r <> Raise AssertionError).
  { intros l' r Hloop.
    destruct (Buda.append_loop_spec py_int py_float _ _ _ _ Hloop)
      as (added & -> & Hr & _).
    now exists added. }
  split; [split; [exact Hno | split] | split; [| split]].
  - now rewrite Hmerge.
  - unfold append_and_resample, append_raw. rewrite Hs.
    destruct (append_loop py_int py_float (e :: l) new_entries) as [l' r] eqn:Hloop.
    destruct (Happ _ _ eq_refl) as (added & -> & _).
    destruct r as [u | ex]; [| reflexivity].
    now apply (resample_raises_with_filter _ e (l ++ added) t).
  - intros Hw. rewrite Hmerge.
    rewrite (resample_in_range self e l Hs), Hf; [now split |].
    eapply Forall_impl; [| exact Hw]. apply well_inside_in_range.
  - unfold append_and_resample, append_raw. rewrite Hs.
    destruct (append_loop py_int py_float (e :: l) new_entries) as [l' r] eqn:Hloop.
    destruct (Happ _ _ eq_refl) as (added & -> & Hr).
    destruct r as [u | ex]; simpl.
    + split; [discriminate |]. intros l' X Hw. injection X as <-.
      rewrite (resample_in_range (set_store self (PyList (e :: l ++ added)))
                 e (l ++ added) eq_refl).
      * simpl. now rewrite Hf.
      * eapply Forall_impl; [| exact Hw]. apply well_inside_in_range.
    + split; [intros X; apply Hr; congruence | discriminate].
  - unfold append_raw. unfold is_resampled in Hframe.
    now destruct (trade_list (fst (resample_ohlcv self))).
Qed.

End Modes.

(** *** Building an entry *)

Lemma py_index_nth {A : Type} (l : list A) (n : nat) (x : A) :
  nth_error l n = Some x -> py_index l (Z.of_nat n) = Ok x.
Proof.
  intros H. unfold py_index.
  assert (Hn : (n < List.length l)%nat) by (apply nth_error_Some; congruence).
  replace (Z.of_nat n <? 0) with false by (symmetry; apply Z.ltb_ge; lia).
  replace ((0 <=? Z.of_nat n) && (Z.of_nat n <? Z.of_nat (List.length l))) with true.
  - now rewrite Nat2Z.id, H.
  - symmetry. apply andb_true_iff. split; [apply Z.leb_le | apply Z.ltb_lt]; lia.
Qed.

Lemma py_index_beyond {A : Type} (l : list A) (n : nat) :
  (List.length l <= n)%nat -> py_index l (Z.of_nat n) = Raise IndexError.
Proof.
  intros H. unfold py_index.
  replace (Z.of_nat n <? 0) with false by (symmetry; apply Z.ltb_ge; lia).
  replace (Z.of_nat n <? Z.of_nat (List.length l)) with false
    by (symmetry; apply Z.ltb_ge; lia).
  now rewrite andb_false_r.
Qed.

Section Entries.

Variable py_int : jvalue -> conversion Z.
Variable py_float : jvalue -> conversion float.

(** X4.  An entry is built from the first four elements of the wire array,
    whatever follows them: the timestamp, the amount and the price
    converted in this order, the direction taken as it is.  An array of
    fewer than four elements never gives an entry. *)
Theorem entry_reads_first_four :
  forall (items : list jvalue),
    match items with
    | t :: a :: p :: d :: _ =>
        new_entry py_int py_float (JList items) =
        (let* ts := convert (py_int t) in
         let* am := convert (py_float a) in
         let* pr := convert (py_float p) in
         Ok (mkEntry ts am pr d))
    | _ => exists e, new_entry py_int py_float (JList items) = Raise e
    end.
Proof.
  intros items. unfold new_entry, subscript,
    _TIMESAMP_INDEX, _AMOUNT_INDEX, _PRICE_INDEX, _DIRECTION_INDEX.
  change 0 with (Z.of_nat 0). change 1 with (Z.of_nat 1).
  change 2 with (Z.of_nat 2). change 3 with (Z.of_nat 3).
  destruct items as [| t [| a [| p [| d extra]]]].
  - rewrite (py_index_beyond [] 0) by (simpl; lia). now eexists.
  - rewrite (py_index_nth [t] 0 t eq_refl).
    rewrite (py_index_beyond [t] 1) by (simpl; lia).
    cbv beta iota delta [Py.bind].
    destruct (convert (py_int t)); now eexists.
  - rewrite (py_index_nth [t; a] 0 t eq_refl), (py_index_nth [t; a] 1 a eq_refl).
    rewrite (py_index_beyond [t; a] 2) by (simpl; lia).
    cbv beta iota delta [Py.bind].
    destruct (convert (py_int t)); [| now eexists].
    destruct (convert (py_float a)); now eexists.
  - rewrite (py_index_nth [t; a; p] 0 t eq_refl), (py_index_nth [t; a; p] 1 a eq_refl),
      (py_index_nth [t; a; p] 2 p eq_refl).
    rewrite (py_index_beyond [t; a; p] 3) by (simpl; lia).
    cbv beta iota delta [Py.bind].
    destruct (convert (py_int t)); [| now eexists].
    destruct (convert (py_float a)); [| now eexists].
    destruct (convert (py_float p)); now eexists.
  - rewrite (py_index_nth (t :: a :: p :: d :: extra) 0 t eq_refl),
      (py_index_nth (t :: a :: p :: d :: extra) 1 a eq_refl),
      (py_index_nth (t :: a :: p :: d :: extra) 2 p eq_refl),
      (py_index_nth (t :: a :: p :: d :: extra) 3 d eq_refl).
    reflexivity.
Qed.

End Entries.

Example entry_with_trade_id :
  new_entry int_builtin float_builtin
    (JList [JStr "1476905551698"; JStr "0.5"; JStr "435447.5"; JStr "buy";
            JInt 6770]) =
  Ok (mkEntry 1476905551698 0.5 435447.5 (JStr "buy")).
Proof. vm_compute. reflexivity. Qed.

(** *** The shape of an aggregated frame *)

Lemma ffill_dates (f : Candle -> Candle -> Candle) (rows : list Candle) :
  (forall prev x, date (f prev x) = date x) ->
  forall prev, map date (ffill f prev rows) = map date rows.
Proof.
  intros Hf. induction rows as [| r rows IH]; intros prev; simpl; [reflexivity |].
  now rewrite Hf, IH.
Qed.

Lemma last_in {A : Type} (l : list A) (d : A) : l <> [] -> In (last l d) l.
Proof.
  induction l as [| x l IH]; intros H; [contradiction |].
  destruct l as [| y l]; [now left |].
  right. apply IH. discriminate.
Qed.

(** The dates of a resampled and filled frame: one row for each hour from
    the hour of the earliest row to the hour of the latest. *)
Lemma resample_dates {Row : Type} (key : Row -> Z)
      (agg : Z -> list Row -> Candle) (f : Candle -> Candle -> Candle)
      (l : list Row) :
  (forall prev x, date (f prev x) = date x) ->
  (forall b g, date (agg b g) = bucket_start b) ->
  l <> [] ->
  exists earliest latest,
    In earliest l /\ In latest l /\
    (forall e, In e l -> key earliest <= key e <= key latest) /\
    map date (ffill f (nan_candle 0) (resample key agg l)) =
    map (fun k => bucket_start (bucket_of (key earliest) + Z.of_nat k))
        (seq 0 (Z.to_nat (bucket_of (key latest) - bucket_of (key earliest) + 1))).
Proof.
  intros Hf Hagg Hne.
  rewrite ffill_dates by exact Hf.
  unfold resample. rewrite map_map.
  pose proof (sort_rows_sorted key l) as Hs.
  pose proof (fun y => sort_rows_in key y l) as Hin.
  unfold bins.
  destruct (sort_rows key l) as [| r rest] eqn:E.
  { destruct l as [| x l]; [contradiction |].
    exfalso. apply (proj2 (Hin x)). now left. }
  exists r, (last (r :: rest) r).
  split; [apply Hin; now left |].
  split; [apply Hin; apply last_in; discriminate |].
  split.
  - intros e He. apply Hin in He. split.
    + destruct He as [<- | He]; [lia |].
      inversion Hs as [| ? ? _ Hz]; subst. rewrite Forall_forall in Hz. now apply Hz.
    + now apply sorted_last_max.
  - rewrite map_map. apply map_ext. intros k. apply Hagg.
Qed.

(** X5.  The frame [resample_ohlcv] returns is never empty and has no gap: its
    dates are the starts of all the hours from the hour of the earliest
    trade to the hour of the latest one, in order, one row each. *)
Theorem resampled_frame_is_hourly :
  forall (self : BudaMarketTradeList) (l : list BudaMarketTradeEntry)
         (out : list Candle),
    trade_list self = PyList l ->
    snd (resample_ohlcv self) = Ok (OhlcvFrame out) ->
    exists earliest latest,
      In earliest l /\ In latest l /\
      (forall e, In e l -> timestamp earliest <= timestamp e <= timestamp latest) /\
      map date out =
      map (fun k => bucket_start (bucket_of (timestamp earliest) + Z.of_nat k))
          (seq 0 (Z.to_nat (bucket_of (timestamp latest) -
                            bucket_of (timestamp earliest) + 1))) /\
      out <> [].
Proof.
  intros self l out Hs Hres.
  destruct (resample_result _ _ Hres) as (l' & Hs' & ->).
  rewrite Hs in Hs'. injection Hs' as <-.
  assert (Hne : l <> []).
  { intros ->. unfold resample_ohlcv in Hres. rewrite Hs in Hres. discriminate. }
  destruct (resample_dates timestamp ohlc_of_trades fill_ohlc l) as
      (earliest & latest & H1 & H2 & H3 & H4); auto.
  exists earliest, latest. repeat split; auto; try apply H3; auto.
  intros X. unfold ohlcv_of_trades in H4, X. rewrite X in H4.
  pose proof (H3 latest H2) as [Hle _]. apply bucket_of_mono in Hle.
  destruct (Z.to_nat (bucket_of (timestamp latest) - bucket_of (timestamp earliest) + 1))
    eqn:N; [lia | discriminate].
Qed.

(** X6.  The frame [merge] returns has no gap either: its dates are the starts
    of all the hours from the hour of the earliest row of the two frames to
    the hour of the latest one, so every row of either frame has its hour
    in the result. *)
Theorem merged_frame_is_hourly :
  forall (self other : BudaMarketTradeList) (sdf odf : DataFrame) (out : list Candle),
    trade_list self = PyFrame sdf ->
    trade_list other = PyFrame odf ->
    snd (merge self (ArgTradeList other)) = Ok (OhlcvFrame out) ->
    candle_rows sdf ++ candle_rows odf <> [] ->
    exists earliest latest,
      In earliest (candle_rows sdf ++ candle_rows odf) /\
      In latest (candle_rows sdf ++ candle_rows odf) /\
      (forall r, In r (candle_rows sdf ++ candle_rows odf) ->
                 date earliest <= date r <= date latest) /\
      map date out =
      map (fun k => bucket_start (bucket_of (date earliest) + Z.of_nat k))
          (seq 0 (Z.to_nat (bucket_of (date latest) - bucket_of (date earliest) + 1))).
Proof.
  intros self other sdf odf out Hs Ho Hres Hne.
  destruct (merge_result _ _ _ Hres) as (srows & odf' & Ho' & -> & Hrows).
  rewrite Ho in Ho'. injection Ho' as <-. rewrite Hs in Hrows. subst srows.
  destruct (resample_dates date agg_candles fill_ohlcv
              (candle_rows sdf ++ candle_rows odf)) as
      (earliest & latest & H1 & H2 & H3 & H4); auto.
  exists earliest, latest. repeat split; auto; apply H3; auto.
Qed.

(** *** The candle of an hour with trades *)

Lemma in_ohlcv_of_trades (l : list BudaMarketTradeEntry) (r : Candle) :
  In r (ohlcv_of_trades l) ->
  exists p,
    r = fill_ohlc p (ohlc_of_trades (bucket_of (date r))
                       (sort_rows timestamp
                          (rows_in_bucket timestamp (bucket_of (date r)) l))).
Proof.
  intros Hr. apply In_nth_error in Hr as [i Hi].
  unfold ohlcv_of_trades in Hi.
  destruct (ffill_nth _ _ _ _ _ Hi) as (x & p & Hx & ->).
  unfold resample in Hx. rewrite nth_error_map in Hx.
  destruct (nth_error (bins timestamp (sort_rows timestamp l)) i) as [b |]; [| discriminate].
  simpl in Hx. injection Hx as <-. exists p.
  simpl. now rewrite bucket_of_start, rows_in_bucket_sorted.
Qed.

Lemma fold_max_step_in (l : list float) :
  forall acc, In (fold_left max_step l acc) (acc :: l).
Proof.
  induction l as [| x l IH]; intros acc; simpl; [now left |].
  destruct (IH (max_step acc x)) as [<- | H]; [| now right; right].
  unfold max_step. destruct (is_nan x); [now left |].
  destruct (is_nan acc); [now right; left |].
  destruct (PrimFloat.ltb acc x); [now right; left | now left].
Qed.

Lemma fold_min_step_in (l : list float) :
  forall acc, In (fold_left min_step l acc) (acc :: l).
Proof.
  induction l as [| x l IH]; intros acc; simpl; [now left |].
  destruct (IH (min_step acc x)) as [<- | H]; [| now right; right].
  unfold min_step. destruct (is_nan x); [now left |].
  destruct (is_nan acc); [now right; left |].
  destruct (PrimFloat.ltb x acc); [now right; left | now left].
Qed.

Lemma max_valid_in (x : float) (l : list float) :
  is_nan x = false -> In (max_valid (x :: l)) (x :: l).
Proof.
  intros Hx. unfold max_valid. simpl.
  replace (max_step nan x) with x by (unfold max_step; now rewrite Hx, is_nan_nan).
  apply fold_max_step_in.
Qed.

Lemma min_valid_in (x : float) (l : list float) :
  is_nan x = false -> In (min_valid (x :: l)) (x :: l).
Proof.
  intros Hx. unfold min_valid. simpl.
  replace (min_step nan x) with x by (unfold min_step; now rewrite Hx, is_nan_nan).
  apply fold_min_step_in.
Qed.

Lemma last_valid_last (l : list float) (x : float) :
  is_nan (last (x :: l) x) = false -> last_valid (x :: l) = last (x :: l) x.
Proof.
  intros H. unfold last_valid.
  destruct (exists_last (l := x :: l)) as (init & z & E); [discriminate |].
  rewrite E in *. rewrite last_last in *. rewrite rev_app_distr. simpl.
  now apply first_valid_head.
Qed.

Lemma last_price (l : list BudaMarketTradeEntry) (d : BudaMarketTradeEntry) :
  last (map price l) (price d) = price (last l d).
Proof.
  induction l as [| x l IH]; [reflexivity |].
  destruct l as [| y l]; [reflexivity |]. exact IH.
Qed.

Lemma last_head {A : Type} (x : A) (l : list A) : last (x :: l) x = last l x.
Proof. now destruct l. Qed.

(** The trades of an hour, earliest first, as [resample_ohlcv] reduces them. *)
Definition trades_of_hour (l : list BudaMarketTradeEntry) (b : Z)
  : list BudaMarketTradeEntry :=
  sort_rows timestamp (rows_in_bucket timestamp b l).

(** X7.  The candle of an hour that has trades, none with a NaN price or amount:
    open is the price of the earliest trade and close the price of the
    latest (among trades of one timestamp, the first and the last to
    arrive), high and low are prices of trades of the hour, and volume is
    the compensated sum of the amounts, taken in time order. *)
Theorem resampled_candle_values :
  forall (self : BudaMarketTradeList) (l : list BudaMarketTradeEntry)
         (out : list Candle) (r : Candle)
         (first : BudaMarketTradeEntry) (more : list BudaMarketTradeEntry),
    trade_list self = PyList l ->
    snd (resample_ohlcv self) = Ok (OhlcvFrame out) ->
    In r out ->
    trades_of_hour l (bucket_of (date r)) = first :: more ->
    Forall (fun e => is_nan (price e) = false /\ is_nan (amount e) = false)
           (first :: more) ->
    open r = price first /\
    close r = price (last more first) /\
    In (high r) (map price (first :: more)) /\
    In (low r) (map price (first :: more)) /\
    volume r = sum_valid (map amount (first :: more)) /\
    (forall e, In e (first :: more) ->
       In e l /\ timestamp first <= timestamp e <= timestamp (last more first)).
Proof.
  intros self l out r first more Hs Hres Hr Hgroup Hvalid.
  destruct (resample_result _ _ Hres) as (l' & Hs' & ->).
  rewrite Hs in Hs'. injection Hs' as <-.
  destruct (in_ohlcv_of_trades _ _ Hr) as [p E].
  unfold trades_of_hour in Hgroup. rewrite Hgroup in E.
  assert (Hprices : Forall (fun x => is_nan x = false) (map price (first :: more))).
  { apply Forall_map. eapply Forall_impl; [| exact Hvalid]. simpl. tauto. }
  assert (Hamounts : Forall (fun x => is_nan x = false) (map amount (first :: more))).
  { apply Forall_map. eapply Forall_impl; [| exact Hvalid]. simpl. tauto. }
  assert (Hfirst : is_nan (price first) = false) by now inversion Hprices.
  assert (Hlast : last (map price (first :: more)) (price first) =
                  price (last more first)).
  { rewrite last_price. f_equal. apply last_head. }
  pose proof (max_valid_in (price first) (map price more) Hfirst) as Hmax.
  pose proof (min_valid_in (price first) (map price more) Hfirst) as Hmin.
  rewrite Forall_forall in Hprices.
  rewrite E. unfold fill_ohlc, ohlc_of_trades. simpl date. simpl open. simpl high.
  simpl low. simpl close. simpl volume.
  split; [| split; [| split; [| split; [| split]]]].
  - rewrite fill_valid; simpl map; rewrite first_valid_head; auto.
  - simpl map in *. rewrite last_valid_last; rewrite Hlast.
    + apply fill_valid. apply Hprices. rewrite <- Hlast. apply last_in. discriminate.
    + apply Hprices. rewrite <- Hlast. apply last_in. discriminate.
  - simpl map in *. rewrite fill_valid; [exact Hmax | now apply Hprices].
  - simpl map in *. rewrite fill_valid; [exact Hmin | now apply Hprices].
  - reflexivity.
  - intros e He.
    pose proof (sort_rows_sorted timestamp
                  (rows_in_bucket timestamp (bucket_of (date r)) l)) as Sorted.
    rewrite Hgroup in Sorted.
    split.
    + rewrite <- Hgroup in He. apply sort_rows_in in He.
      unfold rows_in_bucket in He. now apply filter_In in He.
    + split.
      * destruct He as [<- | He]; [lia |].
        inversion Sorted as [| ? ? _ Hz]; subst. rewrite Forall_forall in Hz.
        now apply Hz.
      * pose proof (sorted_last_max timestamp (first :: more) first Sorted e He) as X.
        now rewrite last_head in X.
Qed.

(** *** Arrival order *)

Section SortedUnique.

Context {Row : Type} (key : Row -> Z).

Lemma insert_row_perm (x : Row) (l : list Row) :
  Permutation (insert_row key x l) (x :: l).
Proof.
  induction l as [| y l IH]; simpl; [reflexivity |].
  destruct (key x <=? key y); [reflexivity |].
  rewrite IH. apply perm_swap.
Qed.

Lemma sort_rows_perm (l : list Row) : Permutation (sort_rows key l) l.
Proof.
  induction l as [| x l IH]; simpl; [reflexivity |].
  rewrite insert_row_perm. now constructor.
Qed.

(** Two sorted lists with the same rows, no two of one key, are equal. *)
Lemma sorted_unique (a : list Row) :
  forall b,
    StronglySorted (key_le key) a ->
    StronglySorted (key_le key) b ->
    Permutation a b ->
    NoDup (map key a) ->
    a = b.
Proof.
  induction a as [| x a IH]; intros b Sa Sb P N.
  - apply Permutation_nil in P. now subst.
  - destruct b as [| y b]; [apply Permutation_sym, Permutation_nil in P; discriminate |].
    inversion Sa as [| ? ? Sa' Ha]; subst. inversion Sb as [| ? ? Sb' Hb]; subst.
    rewrite Forall_forall in Ha, Hb.
    inversion N as [| ? ? Nx N']; subst.
    assert (Hy : In y (x :: a)) by (apply (Permutation_in y (Permutation_sym P)); now left).
    assert (Hx : In x (y :: b)) by (apply (Permutation_in x P); now left).
    assert (E : y = x).
    { destruct Hy as [-> | Hy]; [reflexivity |].
      destruct Hx as [-> | Hx]; [reflexivity |].
      exfalso. apply Nx.
      assert (K : key x = key y).
      { pose proof (Ha y Hy). pose proof (Hb x Hx). unfold key_le in *. lia. }
      rewrite K. now apply in_map. }
    subst y. f_equal. apply IH; auto.
    now apply Permutation_cons_inv in P.
Qed.

Lemma sort_rows_order_free (l l' : list Row) :
  Permutation l l' -> NoDup (map key l) -> sort_rows key l = sort_rows key l'.
Proof.
  intros P N. apply sorted_unique; try apply sort_rows_sorted.
  - rewrite !sort_rows_perm. exact P.
  - apply (Permutation_NoDup (l := map key l)); [| exact N].
    apply Permutation_map. symmetry. apply sort_rows_perm.
Qed.

End SortedUnique.

Lemma forallb_perm {A : Type} (f : A -> bool) (l l' : list A) :
  Permutation l l' -> forallb f l = forallb f l'.
Proof.
  induction 1 as [| x l l' _ IH | x y l | l l' l'' _ IH1 _ IH2]; simpl.
  - reflexivity.
  - now rewrite IH.
  - now destruct (f x), (f y).
  - now rewrite IH1.
Qed.

(** X8.  The frame does not depend on the order in which trades of different
    timestamps were appended: two instances holding the same trades, no two
    at one timestamp, resample to the same frame. *)
Theorem resample_ignores_arrival_order :
  forall (self self' : BudaMarketTradeList) (l l' : list BudaMarketTradeEntry),
    trade_list self = PyList l ->
    trade_list self' = PyList l' ->
    filter_timestamp self = filter_timestamp self' ->
    Permutation l l' ->
    NoDup (map timestamp l) ->
    snd (resample_ohlcv self) = snd (resample_ohlcv self').
Proof.
  intros self self' l l' Hs Hs' Hf P N.
  unfold resample_ohlcv, _filter_by_timestamp. rewrite Hs, Hs'.
  destruct l as [| e l].
  - apply Permutation_nil in P. now subst.
  - destruct l' as [| e' l'];
      [apply Permutation_sym, Permutation_nil in P; discriminate |].
    rewrite (forallb_perm in_datetime_range _ _ (Permutation_map timestamp P)).
    destruct (forallb in_datetime_range (map timestamp (e' :: l'))); [| reflexivity].
    simpl. rewrite Hf. destruct (filter_timestamp self'); simpl; [reflexivity |].
    unfold ohlcv_of_trades, resample.
    now rewrite (sort_rows_order_free timestamp _ _ P N).
Qed.

(** *** The checks of merge *)

(** X9.  [merge] checks its argument before it touches the instance: an object
    that is no trade list raises [TypeError] and a trade list that is still
    raw raises [ValueError], the instance unchanged even when it is raw
    itself.  With an aggregated argument, a raw instance is aggregated
    first: the call is [resample_ohlcv] followed by [merge], and fails as
    [resample_ohlcv] fails. *)
Theorem merge_checks_then_resamples :
  forall (self other : BudaMarketTradeList) (v : jvalue),
    merge self (ArgObject v) = (self, Raise TypeError) /\
    (is_resampled other = false ->
       merge self (ArgTradeList other) = (self, Raise ValueError)) /\
    (is_resampled other = true -> is_resampled self = false ->
       merge self (ArgTradeList other) =
       match resample_ohlcv self with
       | (self1, Ok _) => merge self1 (ArgTradeList other)
       | (self1, Raise ex) => (self1, Raise ex)
       end).
Proof.
  intros self other v. unfold merge, is_resampled.
  split; [reflexivity |].
  destruct (trade_list other) as [ol | odf]; split; try discriminate; try reflexivity.
  intros _. destruct (trade_list self) as [l | sdf] eqn:Hs; [| discriminate]. intros _.
  unfold resample_ohlcv. rewrite Hs.
  destruct l as [| e l]; [reflexivity |].
  destruct (forallb in_datetime_range (map timestamp (e :: l))); [| reflexivity].
  unfold _filter_by_timestamp. simpl.
  destruct (filter_timestamp self); simpl; reflexivity.
Qed.

(** *** Merging with an empty frame *)

(** A frame with one row for each hour from [lo] on. *)
Fixpoint hourly_from (lo : Z) (rows : list Candle) : Prop :=
  match rows with
  | [] => True
  | r :: rest => date r = bucket_start lo /\ hourly_from (lo + 1) rest
  end.

Lemma hourly_from_dates (rows : list Candle) :
  forall lo s,
    map date rows =
    map (fun k => bucket_start (lo + Z.of_nat k)) (seq s (List.length rows)) ->
    hourly_from (lo + Z.of_nat s) rows.
Proof.
  induction rows as [| r rows IH]; intros lo s H; simpl in *; [exact I |].
  injection H as Hr Hrest. split; [exact Hr |].
  replace (lo + Z.of_nat s + 1) with (lo + Z.of_nat (S s)) by lia.
  now apply IH.
Qed.

Lemma hourly_from_later (rows : list Candle) :
  forall lo r, hourly_from lo rows -> In r rows -> lo <= bucket_of (date r).
Proof.
  induction rows as [| x rows IH]; intros lo r H Hr; [contradiction |].
  destruct H as [Hx Hrest]. destruct Hr as [<- | Hr].
  - rewrite Hx, bucket_of_start. lia.
  - specialize (IH _ _ Hrest Hr). lia.
Qed.

Lemma hourly_from_sorted (rows : list Candle) :
  forall lo, hourly_from lo rows -> StronglySorted (key_le date) rows.
Proof.
  induction rows as [| x rows IH]; intros lo H; [constructor |].
  destruct H as [Hx Hrest]. constructor; [now apply (IH (lo + 1)) |].
  apply Forall_forall. intros r Hr.
  pose proof (hourly_from_later _ _ _ Hrest Hr) as L.
  unfold key_le. rewrite Hx.
  assert (bucket_start (bucket_of (date r)) <= date r).
  { unfold bucket_start, bucket_of, HOUR_MS.
    pose proof (Z.mul_div_le (date r) 3600000). lia. }
  unfold bucket_start, HOUR_MS in *. lia.
Qed.

Lemma sort_rows_sorted_id {Row : Type} (key : Row -> Z) (l : list Row) :
  StronglySorted (key_le key) l -> sort_rows key l = l.
Proof.
  induction 1 as [| x l Hl IH Hx]; simpl; [reflexivity |].
  rewrite IH. now apply insert_row_head.
Qed.

Lemma rows_in_bucket_before (rows : list Candle) (lo b : Z) :
  hourly_from lo rows -> b < lo -> rows_in_bucket date b rows = [].
Proof.
  intros H Hb. unfold rows_in_bucket.
  induction rows as [| x rows IH] in lo, H, Hb |- *; [reflexivity |].
  destruct H as [Hx Hrest]. simpl.
  rewrite Hx, bucket_of_start.
  replace (lo =? b) with false by (symmetry; apply Z.eqb_neq; lia).
  apply (IH (lo + 1)); [exact Hrest | lia].
Qed.

Lemma rows_in_bucket_skip (x : Candle) (rows : list Candle) (b : Z) :
  bucket_of (date x) <> b ->
  rows_in_bucket date b (x :: rows) = rows_in_bucket date b rows.
Proof.
  intros H. unfold rows_in_bucket. simpl.
  now replace (bucket_of (date x) =? b) with false by (symmetry; now apply Z.eqb_neq).
Qed.

Lemma rows_in_bucket_own (x : Candle) (rows : list Candle) (b : Z) :
  bucket_of (date x) = b ->
  rows_in_bucket date b (x :: rows) = x :: rows_in_bucket date b rows.
Proof.
  intros H. unfold rows_in_bucket. simpl. now rewrite H, Z.eqb_refl.
Qed.

(** Each bin of an hourly frame holds its own row and no other. *)
Lemma resample_hourly (agg : Z -> list Candle -> Candle) (rows : list Candle) :
  forall lo,
    hourly_from lo rows ->
    map (fun b => agg b (rows_in_bucket date b rows))
        (map (fun k => lo + Z.of_nat k) (seq 0 (List.length rows))) =
    map (fun r => agg (bucket_of (date r)) [r]) rows.
Proof.
  induction rows as [| x rows IH]; intros lo H; [reflexivity |].
  destruct H as [Hx Hrest].
  assert (Bx : bucket_of (date x) = lo) by (now rewrite Hx, bucket_of_start).
  cbn [List.length seq map]. f_equal.
  - rewrite Z.add_0_r, Bx. rewrite rows_in_bucket_own by exact Bx.
    now rewrite (rows_in_bucket_before rows (lo + 1) lo Hrest) by lia.
  - rewrite <- (IH (lo + 1) Hrest).
    rewrite <- seq_shift, !map_map. apply map_ext. intros k.
    replace (lo + 1 + Z.of_nat k) with (lo + Z.of_nat (S k)) by lia.
    f_equal. apply rows_in_bucket_skip. lia.
Qed.

Lemma bins_hourly (rows : list Candle) (lo : Z) :
  hourly_from lo rows ->
  bins date rows = map (fun k => lo + Z.of_nat k) (seq 0 (List.length rows)).
Proof.
  intros H. unfold bins. destruct rows as [| x rows]; [reflexivity |].
  assert (Hlast : forall l lo0 d, hourly_from lo0 l -> l <> [] ->
            bucket_of (date (last l d)) = lo0 + Z.of_nat (List.length l) - 1).
  { induction l as [| y l IHl]; intros lo0 d Hl Hne; [contradiction |].
    destruct Hl as [Hy Hl]. destruct l as [| z l].
    - simpl. rewrite Hy, bucket_of_start. lia.
    - change (last (y :: z :: l) d) with (last (z :: l) d).
      rewrite (IHl (lo0 + 1) d Hl) by discriminate.
      simpl List.length. lia. }
  rewrite (Hlast (x :: rows) lo x H) by discriminate.
  destruct H as [Hx _]. rewrite Hx, bucket_of_start.
  replace (Z.to_nat (lo + Z.of_nat (List.length (x :: rows)) - 1 - lo + 1))
    with (List.length (x :: rows)) by lia.
  reflexivity.
Qed.

(** One valid row reduces to itself, its volume added to 0. *)
Definition summed (r : Candle) : Candle :=
  mkCandle (date r) (open r) (high r) (low r) (close r)
           (PrimFloat.add 0 (volume r)).

Lemma agg_candles_single (r : Candle) :
  valid_candle r = true ->
  date r = bucket_start (bucket_of (date r)) ->
  agg_candles (bucket_of (date r)) [r] = summed r.
Proof.
  intros V D. destruct (valid_candle_cells _ V) as (O & H & L & C & Vol).
  unfold agg_candles, summed, last_valid, max_valid, min_valid.
  simpl map. simpl rev. rewrite sum_valid_single by assumption.
  simpl. unfold max_step, min_step.
  rewrite !first_valid_head by assumption.
  now rewrite H, L, is_nan_nan, <- D.
Qed.

(** Filling changes no cell of rows that have their four prices, and no
    volume that is a number. *)
Lemma ffill_summed (rows : list Candle) :
  Forall (fun r => valid_candle r = true) rows ->
  forall prev,
    Forall2 (fun r r' =>
               date r' = date r /\ open r' = open r /\ high r' = high r /\
               low r' = low r /\ close r' = close r /\
               (is_nan (PrimFloat.add 0 (volume r)) = false ->
                volume r' = PrimFloat.add 0 (volume r)))
            rows (ffill fill_ohlcv prev (map summed rows)).
Proof.
  induction 1 as [| r rows V _ IH]; intros prev; simpl; constructor.
  - destruct (valid_candle_cells _ V) as (O & H & L & C & _).
    unfold fill_ohlcv, summed. simpl.
    rewrite !fill_valid by assumption.
    repeat split. intros N. now apply fill_valid.
  - apply IH.
Qed.

(** X10.  Merging an empty frame into a frame that [resample_ohlcv] returned, all
    of whose cells are numbers, gives the same frame back: the same dates
    and the same open, high, low and close in every row, and every volume
    added to 0. *)
Theorem merge_with_empty_frame_keeps_candles :
  forall (self other : BudaMarketTradeList) (out merged : list Candle),
    snd (resample_ohlcv self) = Ok (OhlcvFrame out) ->
    Forall (fun r => valid_candle r = true) out ->
    trade_list other = PyFrame (OhlcvFrame []) ->
    snd (merge (fst (resample_ohlcv self)) (ArgTradeList other)) =
      Ok (OhlcvFrame merged) ->
    Forall2 (fun r r' =>
               date r' = date r /\ open r' = open r /\ high r' = high r /\
               low r' = low r /\ close r' = close r /\
               (is_nan (PrimFloat.add 0 (volume r)) = false ->
                volume r' = PrimFloat.add 0 (volume r)))
            out merged.
Proof.
  intros self other out merged Hres Hvalid Ho Hmerge.
  destruct (resample_result _ _ Hres) as (l & Hs & Hout).
  assert (Hne : l <> []).
  { intros ->. unfold resample_ohlcv in Hres. rewrite Hs in Hres. discriminate. }
  destruct (resample_dates timestamp ohlc_of_trades fill_ohlc l)
    as (earliest & latest & _ & _ & _ & Hdates); auto.
  fold (ohlcv_of_trades l) in Hdates. rewrite <- Hout in Hdates.
  assert (Hlen : Z.to_nat (bucket_of (timestamp latest) -
                           bucket_of (timestamp earliest) + 1) = List.length out).
  { apply (f_equal (@List.length Z)) in Hdates.
    now rewrite !length_map, length_seq in Hdates. }
  rewrite Hlen in Hdates.
  pose proof (hourly_from_dates out (bucket_of (timestamp earliest)) 0 Hdates) as Hh.
  rewrite Z.add_0_r in Hh.
  pose proof (resample_store self _ Hres) as Hstore.
  destruct (merge_result _ _ _ Hmerge) as (srows & odf & Ho' & -> & Hrows).
  rewrite Ho in Ho'. injection Ho' as <-. rewrite Hstore in Hrows. subst srows.
  simpl candle_rows. rewrite app_nil_r.
  unfold merge_rows, resample.
  rewrite (sort_rows_sorted_id date out (hourly_from_sorted _ _ Hh)).
  rewrite (bins_hourly out _ Hh), (resample_hourly agg_candles out _ Hh).
  assert (Hsum : map (fun r => agg_candles (bucket_of (date r)) [r]) out = map summed out).
  { apply map_ext_in. intros r Hr. apply agg_candles_single.
    - rewrite Forall_forall in Hvalid. now apply Hvalid.
    - clear - Hh Hr. revert Hh Hr. generalize (bucket_of (timestamp earliest)).
      induction out as [| x rows IH]; intros lo Hh Hr; [contradiction |].
      destruct Hh as [Hx Hrest]. destruct Hr as [<- | Hr].
      + now rewrite Hx, bucket_of_start.
      + now apply (IH (lo + 1)). }
  rewrite Hsum. now apply ffill_summed.
Qed.

(** *** Runs *)

Definition buy_at_0 : BudaMarketTradeEntry := mkEntry 0 1 100 (JStr "buy").
Definition sell_at_half_hour : BudaMarketTradeEntry := mkEntry 1800000 2 105 (JStr "sell").
Definition sell_at_2h : BudaMarketTradeEntry := mkEntry 7200000 0.5 110.25 (JStr "sell").

Definition three_trades : list BudaMarketTradeEntry :=
  [sell_at_2h; buy_at_0; sell_at_half_hour].

Definition three_hours : list Candle :=
  [mkCandle 0 100 105 100 105 3;
   mkCandle 3600000 100 105 100 105 0;
   mkCandle 7200000 110.25 110.25 110.25 110.25 0.5].

(** A list with a filter timestamp and one trade. *)
Lemma filter_timestamp_blocks_aggregation_witness :
  snd (resample_ohlcv (mkTradeList (PyList [buy_at_0]) (Some 0))) = Raise AttributeError /\
  snd (merge (mkTradeList (PyList [buy_at_0]) (Some 0))
             (ArgTradeList (mkTradeList (PyFrame (OhlcvFrame three_hours)) None))) =
    Raise AttributeError /\
  is_ok (snd (append_and_resample int_builtin float_builtin
                (mkTradeList (PyList [buy_at_0]) (Some 0)) [trade_at_2h])) = false /\
  snd (append_raw int_builtin float_builtin
         (fst (resample_ohlcv (mkTradeList (PyList [buy_at_0]) (Some 0))))
         [trade_at_2h]) = Raise AssertionError.
Proof.
  destruct (filter_timestamp_blocks_aggregation int_builtin float_builtin
              (mkTradeList (PyList [buy_at_0]) (Some 0))
              (mkTradeList (PyFrame (OhlcvFrame three_hours)) None)
              [trade_at_2h] buy_at_0 [] 0 eq_refl eq_refl eq_refl)
    as ((_ & _ & H3) & H & _ & H4).
  destruct H as [H1 H2]; [repeat constructor; vm_compute; discriminate |].
  repeat split; assumption.
Defined.

(** Trades in hour 0 and hour 2, appended latest first: three rows. *)
Lemma resampled_frame_is_hourly_witness :
  exists earliest latest,
    In earliest three_trades /\ In latest three_trades /\
    (forall e, In e three_trades ->
               timestamp earliest <= timestamp e <= timestamp latest) /\
    map date three_hours =
    map (fun k => bucket_start (bucket_of (timestamp earliest) + Z.of_nat k))
        (seq 0 (Z.to_nat (bucket_of (timestamp latest) -
                          bucket_of (timestamp earliest) + 1))) /\
    three_hours <> [].
Proof.
  apply (resampled_frame_is_hourly (mkTradeList (PyList three_trades) None)
           three_trades three_hours); vm_compute; reflexivity.
Defined.

(** A frame of hour 0 merged with a frame of hour 2. *)
Lemma merged_frame_is_hourly_witness :
  exists earliest latest,
    In earliest ([mkCandle 0 100 105 100 105 3] ++ [candle_2h]) /\
    In latest ([mkCandle 0 100 105 100 105 3] ++ [candle_2h]) /\
    (forall r, In r ([mkCandle 0 100 105 100 105 3] ++ [candle_2h]) ->
               date earliest <= date r <= date latest) /\
    map date three_hours =
    map (fun k => bucket_start (bucket_of (date earliest) + Z.of_nat k))
        (seq 0 (Z.to_nat (bucket_of (date latest) - bucket_of (date earliest) + 1))).
Proof.
  apply (merged_frame_is_hourly
           (mkTradeList (PyFrame (OhlcvFrame [mkCandle 0 100 105 100 105 3])) None)
           (mkTradeList (PyFrame (OhlcvFrame [candle_2h])) None)
           (OhlcvFrame [mkCandle 0 100 105 100 105 3]) (OhlcvFrame [candle_2h])
           three_hours); try (vm_compute; reflexivity).
  discriminate.
Defined.

(** Hour 0 of the three trades: the trade at 0 opens, the one half an
    hour later closes. *)
Lemma resampled_candle_values_witness :
  open (mkCandle 0 100 105 100 105 3) = price buy_at_0 /\
  close (mkCandle 0 100 105 100 105 3) = price (last [sell_at_half_hour] buy_at_0) /\
  In (high (mkCandle 0 100 105 100 105 3)) (map price [buy_at_0; sell_at_half_hour]) /\
  In (low (mkCandle 0 100 105 100 105 3)) (map price [buy_at_0; sell_at_half_hour]) /\
  volume (mkCandle 0 100 105 100 105 3) =
    fold_left PrimFloat.add (map amount [buy_at_0; sell_at_half_hour]) 0%float /\
  (forall e, In e [buy_at_0; sell_at_half_hour] ->
     In e three_trades /\
     timestamp buy_at_0 <= timestamp e <=
     timestamp (last [sell_at_half_hour] buy_at_0)).
Proof.
  apply (resampled_candle_values (mkTradeList (PyList three_trades) None)
           three_trades three_hours (mkCandle 0 100 105 100 105 3)
           buy_at_0 [sell_at_half_hour]).
  - reflexivity.
  - vm_compute; reflexivity.
  - now left.
  - vm_compute; reflexivity.
  - repeat constructor.
Defined.

(** The three trades in two orders of arrival. *)
Lemma resample_ignores_arrival_order_witness :
  snd (resample_ohlcv (mkTradeList (PyList [buy_at_0; sell_at_half_hour]) None)) =
  snd (resample_ohlcv (mkTradeList (PyList [sell_at_half_hour; buy_at_0]) None)).
Proof.
  apply (resample_ignores_arrival_order
           (mkTradeList (PyList [buy_at_0; sell_at_half_hour]) None)
           (mkTradeList (PyList [sell_at_half_hour; buy_at_0]) None)
           [buy_at_0; sell_at_half_hour] [sell_at_half_hour; buy_at_0]).
  - reflexivity.
  - reflexivity.
  - reflexivity.
  - apply perm_swap.
  - simpl. repeat constructor; simpl; intuition discriminate.
Defined.

(** With trades at one timestamp the order of arrival shows: the first to
    arrive opens the hour. *)
Example same_timestamp_order_shows :
  snd (resample_ohlcv (mkTradeList (PyList [mkEntry 0 1 100 (JStr "buy");
                                            mkEntry 0 1 105 (JStr "buy")]) None)) =
    Ok (OhlcvFrame [mkCandle 0 100 105 100 105 2]) /\
  snd (resample_ohlcv (mkTradeList (PyList [mkEntry 0 1 105 (JStr "buy");
                                            mkEntry 0 1 100 (JStr "buy")]) None)) =
    Ok (OhlcvFrame [mkCandle 0 105 105 100 100 2]).
Proof. split; vm_compute; reflexivity. Qed.

(** Three trades of amounts 0.1, 0.2 and 0.3 in one hour: the compensated
    sum gives the volume 0.6, where adding the amounts one after the other
    gives 0.6000000000000001. *)
Example volume_is_compensated :
  snd (resample_ohlcv
         (mkTradeList (PyList [mkEntry 0 0x1.999999999999ap-4 100 (JStr "buy");
                               mkEntry 1 0x1.999999999999ap-3 100 (JStr "buy");
                               mkEntry 2 0x1.3333333333333p-2 100 (JStr "buy")]) None)) =
    Ok (OhlcvFrame [mkCandle 0 100 100 100 100 0x1.3333333333333p-1]) /\
  fold_left PrimFloat.add
    [0x1.999999999999ap-4; 0x1.999999999999ap-3; 0x1.3333333333333p-2]%float 0%float =
    0x1.3333333333334p-1%float.
Proof. split; vm_compute; reflexivity. Qed.

(** A trade at 10^16 ms lies after the last pandas timestamp: the index
    cannot be made, and the frame of raw trades stays in the instance. *)
Example timestamp_out_of_range :
  resample_ohlcv (mkTradeList (PyList [mkEntry (10 ^ 16) 1 100 (JStr "buy")]) None) =
  (mkTradeList (PyFrame (TimestampFrame [mkEntry (10 ^ 16) 1 100 (JStr "buy")])) None,
   Raise OutOfBoundsDatetime).
Proof. vm_compute. reflexivity. Qed.

(** The frame of the three trades merged with an empty frame. *)
Lemma merge_with_empty_frame_keeps_candles_witness :
  Forall2 (fun r r' =>
             date r' = date r /\ open r' = open r /\ high r' = high r /\
             low r' = low r /\ close r' = close r /\
             (is_nan (PrimFloat.add 0 (volume r)) = false ->
              volume r' = PrimFloat.add 0 (volume r)))
          three_hours three_hours.
Proof.
  apply (merge_with_empty_frame_keeps_candles
           (mkTradeList (PyList three_trades) None)
           (mkTradeList (PyFrame (OhlcvFrame [])) None)
           three_hours three_hours).
  - vm_compute; reflexivity.
  - repeat constructor.
  - reflexivity.
  - vm_compute; reflexivity.
Defined.

End BudaProperties.

(** ** Kraken: further properties of the socket handler *)

Module KrakenSocketProperties.

Import KrakenSocket.

Section Runs.

Variable json_loads : string -> option jvalue.

(** The receive loop keeps the thread flag, the pairs and the callback; when
    it ends without a failure, the socket is the one it started with and is
    still open. *)
Lemma manage_connection_keeps (recvs : list RecvEvent) :
  forall self,
    let '(self', out, actions, remaining) := _manage_connection json_loads self recvs in
    started self' = started self /\
    pair self' = pair self /\
    on_new_price_callback self' = on_new_price_callback self /\
    (out = ReturnsNone -> _kill_thread self' = true /\ ws self' = ws self) /\
    (out = Waiting -> ws self' = ws self).
Proof.
  induction recvs as [| ev later IH]; intros self; simpl.
  - destruct (_kill_thread self) eqn:K; repeat split; auto; discriminate.
  - destruct (_kill_thread self) eqn:K.
    { repeat split; auto; discriminate. }
    assert (Hreq : forall k s, started (requested k s) = started s /\
                               pair (requested k s) = pair s /\
                               on_new_price_callback (requested k s) =
                               on_new_price_callback s /\
                               ws (requested k s) = ws s).
    { intros [] s0; simpl; auto. }
    assert (Hfail : forall s e r done,
               started s = started self -> pair s = pair self ->
               on_new_price_callback s = on_new_price_callback self ->
               let '(self', out, actions, remaining) := fail_connection s e r later done in
               started self' = started self /\
               pair self' = pair self /\
               on_new_price_callback self' = on_new_price_callback self /\
               (out = ReturnsNone -> _kill_thread self' = true /\ ws self' = ws self) /\
               (out = Waiting -> ws self' = ws self)).
    { intros s0 e r done H1 H2 H3. unfold fail_connection. simpl.
      repeat split; auto; discriminate. }
    assert (Hrec : forall s done,
               started s = started self -> pair s = pair self ->
               on_new_price_callback s = on_new_price_callback self ->
               ws s = ws self ->
               let '(self', out, actions, remaining) :=
                 (let '(self3, out, actions, remaining) :=
                    _manage_connection json_loads s later in
                  (self3, out, done ++ actions, remaining)) in
               started self' = started self /\
               pair self' = pair self /\
               on_new_price_callback self' = on_new_price_callback self /\
               (out = ReturnsNone -> _kill_thread self' = true /\ ws self' = ws self) /\
               (out = Waiting -> ws self' = ws self)).
    { intros s0 done H1 H2 H3 H4. specialize (IH s0).
      destruct (_manage_connection json_loads s0 later) as [[[s' out] actions] remaining].
      destruct IH as (I1 & I2 & I3 & I4 & I5).
      split; [congruence |]. split; [congruence |]. split; [congruence |].
      split; intros Ho.
      - destruct (I4 Ho). split; congruence.
      - rewrite (I5 Ho). congruence. }
    destruct (Hreq (kill_during_recv ev) self) as (A1 & A2 & A3 & A4).
    destruct (Hreq (kill_during_callback ev) (requested (kill_during_recv ev) self))
      as (B1 & B2 & B3 & B4).
    destruct (received ev) as [response | e].
    + destruct (json_loads response) as [result |].
      * destruct (is_list result).
        -- destruct (on_new_price_callback (requested (kill_during_recv ev) self)) eqn:Ecb.
           ++ destruct (callback_raises ev).
              ** apply Hfail; congruence.
              ** apply Hrec; congruence.
           ++ apply Hfail; congruence.
        -- apply Hrec; congruence.
      * apply Hfail; congruence.
    + apply Hfail; congruence.
Qed.

Lemma reconnect_keeps (self : KrakenSocketHandler) (ev : ConnectEvent) :
  let '(self', actions) := reconnect self ev in
  started self' = started self /\
  pair self' = pair self /\
  on_new_price_callback self' = on_new_price_callback self.
Proof.
  destruct ev as [h k]. unfold reconnect, _create_connection. simpl.
  destruct h, k; simpl; auto.
Qed.

Lemma all_forwarded_app (a b : list RecvEvent) :
  all_forwarded json_loads (a ++ b) =
  all_forwarded json_loads a ++ all_forwarded json_loads b.
Proof.
  induction a as [| ev a IH]; simpl; [reflexivity |].
  destruct (forwarded json_loads ev); simpl; now rewrite IH.
Qed.

(** *** Deliveries and handshakes of a whole run *)

(** What a run of the loop took from the script, and what it did with it. *)
Definition accounted (env : Env) (r : Run) : Prop :=
  exists used consumed,
    connects env = used ++ connects (rest r) /\
    recvs env = consumed ++ recvs (rest r) /\
    handshakes (trace r) = List.length used /\
    deliveries (trace r) = all_forwarded json_loads consumed.

Lemma accounted_before (env env1 : Env) (r : Run) (actions : list Action)
      (used : list ConnectEvent) (consumed : list RecvEvent) :
  connects env = used ++ connects env1 ->
  recvs env = consumed ++ recvs env1 ->
  handshakes actions = List.length used ->
  deliveries actions = all_forwarded json_loads consumed ->
  accounted env1 r ->
  accounted env (before actions r).
Proof.
  intros Hc Hr Hh Hd (used' & consumed' & Hc' & Hr' & Hh' & Hd').
  exists (used ++ used'), (consumed ++ consumed').
  rewrite before_trace, handshakes_app, deliveries_app, all_forwarded_app,
    length_app, <- !app_assoc. simpl rest.
  rewrite Hc, Hr, Hc', Hr', Hh, Hd, Hh', Hd'. auto.
Qed.

Lemma connected_accounted (self : KrakenSocketHandler) (env : Env)
      (continue : KrakenSocketHandler -> Env -> Run) :
  on_new_price_callback self <> None ->
  (forall s e, on_new_price_callback s <> None -> accounted e (continue s e)) ->
  accounted env (connected json_loads self env continue).
Proof.
  intros Hcb Hc. unfold connected.
  pose proof (manage_connection_consumes json_loads (recvs env) self Hcb) as C.
  pose proof (manage_connection_keeps (recvs env) self) as K.
  pose proof (manage_connection_no_handshake json_loads (recvs env) self) as N.
  destruct (_manage_connection json_loads self (recvs env))
    as [[[s' out] actions] remaining].
  destruct C as (consumed & Hr & Hd & _).
  destruct K as (_ & _ & Hcb' & _).
  destruct out as [| e r |].
  - exists [], consumed. simpl. now rewrite N.
  - apply (accounted_before env (mkEnv (connects env) remaining) _ _ [] consumed); auto.
    + now rewrite handshakes_app, N.
    + now rewrite deliveries_app, Hd, app_nil_r.
    + apply Hc. congruence.
  - exists [], consumed. simpl. now rewrite N.
Qed.

Lemma manage_loop_accounted (fuel : nat) :
  forall self env,
    on_new_price_callback self <> None ->
    accounted env (manage_loop json_loads fuel self env).
Proof.
  induction fuel as [| fuel IH]; intros self env Hcb; simpl.
  - now exists [], [].
  - destruct (reconnect_attempts self <? reconnect_attempts_limit self).
    + destruct (ws self) as [sock |].
      * now apply connected_accounted.
      * destruct (connects env) as [| ev later] eqn:Ec.
        { exists [], []. simpl. now rewrite Ec. }
        pose proof (reconnect_keeps self ev) as K.
        pose proof (reconnect_facts self ev) as F.
        pose proof (reconnect_attempts_facts self ev) as G.
        destruct (reconnect self ev) as [self1 actions].
        destruct K as (_ & _ & Hcb1). destruct F as (D & _). destruct G as (H1 & _).
        apply (accounted_before env (mkEnv later (recvs env)) _ _ [ev] []); auto.
        destruct (ws self1) as [sock |].
        -- apply connected_accounted; [congruence | exact IH].
        -- apply IH. congruence.
    + exists [], []. unfold leave_loop. simpl. now destruct (_kill_thread self).
Qed.

(** X11.  Over a whole run, reconnections included, the callback receives the
    payloads that decode to an array, each once and in the order received,
    among exactly the answers the run took from the script; and the run
    opened the transport once for each handshake answer it took. *)
Theorem run_delivers_in_order_across_reconnects :
  forall (self : KrakenSocketHandler) (pair : jvalue) (callback : Callback) (env : Env),
    exists used consumed,
      connects env =
        used ++ connects (rest (connect_on_this_thread json_loads self pair
                                  (Some callback) env)) /\
      recvs env =
        consumed ++ recvs (rest (connect_on_this_thread json_loads self pair
                                   (Some callback) env)) /\
      handshakes (trace (connect_on_this_thread json_loads self pair
                           (Some callback) env)) = List.length used /\
      deliveries (trace (connect_on_this_thread json_loads self pair
                           (Some callback) env)) = all_forwarded json_loads consumed.
Proof.
  intros self pair callback env.
  unfold connect_on_this_thread, run. simpl.
  destruct (negb (is_list pair)).
  - now exists [], [].
  - unfold _manage_thread. apply manage_loop_accounted. discriminate.
Qed.

(** *** How a run ends *)

(** What holds of the handler at the head of each turn of the loop. *)
Definition loop_invariant (self : KrakenSocketHandler) : Prop :=
  0 <= reconnect_attempts self <= reconnect_attempts_limit self /\
  (reconnect_attempts self < reconnect_attempts_limit self \/ ws self = None).

(** How a run ended, read on the handler it leaves and on its trace. *)
Definition ended (limit : Z) (r : Run) : Prop :=
  reconnect_attempts_limit (final r) = limit /\
  (In MaxAttemptsExceeded (alerts (trace r)) <->
   outcome r = Returns /\ _kill_thread (final r) = false) /\
  match outcome r with
  | Returns => ws (final r) = None /\ reconnect_attempts (final r) = limit
  | Raises e =>
      e = TypeError /\ _kill_thread (final r) = true /\ ws (final r) = Some WebSocket
  | Blocks => True
  | OutOfFuel => True
  end.

Lemma alerts_app (a b : list Action) : alerts (a ++ b) = alerts a ++ alerts b.
Proof.
  induction a as [| x a IH]; simpl; [reflexivity |].
  destruct x; simpl; now rewrite ?IH.
Qed.

Lemma alerts_kill_mark (k : bool) : alerts (kill_mark k) = [].
Proof. now destruct k. Qed.

Ltac no_alert :=
  repeat progress (rewrite ?alerts_app, ?alerts_kill_mark; simpl).

Lemma manage_connection_no_alert (recvs : list RecvEvent) :
  forall self,
    let '(self', out, actions, remaining) := _manage_connection json_loads self recvs in
    alerts actions = [].
Proof.
  induction recvs as [| ev later IH]; intros self; simpl.
  - now destruct (_kill_thread self).
  - destruct (_kill_thread self); [reflexivity |].
    destruct (received ev) as [response | e]; simpl.
    + destruct (json_loads response) as [result |]; simpl.
      * destruct (is_list result).
        -- destruct (on_new_price_callback _); simpl.
           ++ destruct (callback_raises ev); simpl.
              ** now no_alert.
              ** specialize (IH (requested (kill_during_callback ev)
                                   (requested (kill_during_recv ev) self))).
                 destruct (_manage_connection json_loads _ later)
                   as [[[s' out] actions] remaining].
                 no_alert. now rewrite IH.
           ++ now no_alert.
        -- specialize (IH (requested (kill_during_recv ev) self)).
           destruct (_manage_connection json_loads _ later)
             as [[[s' out] actions] remaining].
           no_alert. now rewrite IH.
      * now no_alert.
    + now no_alert.
Qed.

Lemma reconnect_no_alert (self : KrakenSocketHandler) (ev : ConnectEvent) :
  alerts (snd (reconnect self ev)) = [] /\
  (handshake ev <> Connected ->
   ws (fst (reconnect self ev)) = None /\
   reconnect_attempts (fst (reconnect self ev)) = reconnect_attempts self + 1).
Proof.
  destruct ev as [h k]. unfold reconnect, _create_connection. simpl.
  destruct h, k, (ws self); simpl; split; auto; intros X; now elim X.
Qed.

Lemma ended_before (limit : Z) (actions : list Action) (r : Run) :
  ~ In MaxAttemptsExceeded (alerts actions) ->
  ended limit r -> ended limit (before actions r).
Proof.
  intros Ha (Hl & Hm & Ho). split; [exact Hl |]. split; [| exact Ho].
  rewrite before_trace, alerts_app, in_app_iff. simpl outcome. simpl final.
  rewrite <- Hm. tauto.
Qed.

Lemma connected_ended (self : KrakenSocketHandler) (env : Env)
      (continue : KrakenSocketHandler -> Env -> Run) :
  0 <= reconnect_attempts self < reconnect_attempts_limit self ->
  ws self <> None ->
  (forall s e, loop_invariant s ->
               ended (reconnect_attempts_limit s) (continue s e)) ->
  ended (reconnect_attempts_limit self) (connected json_loads self env continue).
Proof.
  intros Ha Hws Hc. unfold connected.
  pose proof (manage_connection_frame json_loads (recvs env) self) as F.
  pose proof (manage_connection_keeps (recvs env) self) as K.
  pose proof (manage_connection_no_alert (recvs env) self) as N.
  destruct (_manage_connection json_loads self (recvs env))
    as [[[s' out] actions] remaining].
  destruct F as (_ & Hf & _ & A' & L').
  destruct K as (_ & _ & _ & Hn & _).
  destruct out as [| e r |].
  - destruct (Hn eq_refl) as [Hk Hw].
    split; [exact L' |]. simpl. rewrite N. split.
    + split; [contradiction | intros [X _]; discriminate].
    + split; [reflexivity |]. split; [exact Hk |].
      rewrite Hw. destruct (ws self) as [[] |]; [reflexivity | contradiction].
  - destruct (Hf e r eq_refl) as [_ Hw].
    rewrite <- L'. apply ended_before.
    + rewrite alerts_app, N. simpl. intros [X | []]. discriminate.
    + apply Hc. unfold loop_invariant. rewrite A', L'. split; [lia | now right].
  - split; [exact L' |]. simpl. rewrite N. split; [| exact I].
    split; [contradiction | intros [X _]; discriminate].
Qed.

Lemma manage_loop_ended (fuel : nat) :
  forall self env,
    loop_invariant self ->
    ended (reconnect_attempts_limit self) (manage_loop json_loads fuel self env).
Proof.
  induction fuel as [| fuel IH]; intros self env [Ha Hw]; simpl.
  - split; [reflexivity |]. simpl. split; [| exact I].
    split; [contradiction | intros [X _]; discriminate].
  - destruct (reconnect_attempts self <? reconnect_attempts_limit self) eqn:E.
    + apply Z.ltb_lt in E. destruct (ws self) as [sock |] eqn:Hs.
      * apply connected_ended; [lia | congruence | exact IH].
      * destruct (connects env) as [| ev later].
        { split; [reflexivity |]. simpl. split; [| exact I].
          split; [contradiction | intros [X _]; discriminate]. }
        pose proof (reconnect_attempts_facts self ev) as G.
        pose proof (reconnect_no_alert self ev) as [Na _].
        destruct (reconnect self ev) as [self1 actions].
        destruct G as (_ & _ & L1 & A1). simpl in Na.
        rewrite <- L1. apply ended_before; [rewrite Na; intros [] |].
        destruct (ws self1) as [sock |] eqn:Hs1.
        -- apply connected_ended; [lia | congruence | exact IH].
        -- apply IH. unfold loop_invariant. rewrite A1, L1. split; [lia | now right].
    + apply Z.ltb_ge in E. unfold leave_loop, ended. simpl.
      split; [reflexivity |]. split.
      * destruct (_kill_thread self); simpl.
        -- split; [contradiction | intros [_ X]; discriminate].
        -- split; [now split | intros _; now left].
      * destruct Hw as [Hw | Hw]; [lia |]. split; [exact Hw | lia].
Qed.

(** X12.  A run of [_manage_thread] that does not wait for the script ends in one
    of two ways.  It returns with no socket and the attempt counter at the
    limit; or it raises [TypeError] with the kill flag set and the socket
    still open.  It never returns after a kill request has reached the
    receive loop, and it sends the alert of exceeded attempts exactly when
    it returns with no kill request pending. *)
Theorem run_returns_exhausted_or_raises_killed :
  forall (self : KrakenSocketHandler) (env : Env),
    let limit := if reconnect_attempts_limit self <=? 0 then 1
                 else reconnect_attempts_limit self in
    reconnect_attempts_limit (final (_manage_thread json_loads self env)) = limit /\
    (In MaxAttemptsExceeded (alerts (trace (_manage_thread json_loads self env))) <->
     outcome (_manage_thread json_loads self env) = Returns /\
     _kill_thread (final (_manage_thread json_loads self env)) = false) /\
    match outcome (_manage_thread json_loads self env) with
    | Returns =>
        ws (final (_manage_thread json_loads self env)) = None /\
        reconnect_attempts (final (_manage_thread json_loads self env)) = limit
    | Raises e =>
        e = TypeError /\
        _kill_thread (final (_manage_thread json_loads self env)) = true /\
        ws (final (_manage_thread json_loads self env)) = Some WebSocket
    | Blocks => True
    | OutOfFuel => False
    end.
Proof.
  intros self env limit.
  pose proof (manage_thread_fuel json_loads self env) as Hfuel.
  unfold _manage_thread in *. fold limit in Hfuel |- *.
  set (self1 := set_attempts (set_limit self limit) 0) in *.
  assert (Hinv : loop_invariant self1).
  { unfold loop_invariant, self1, limit. simpl.
    destruct (reconnect_attempts_limit self <=? 0) eqn:E; [lia |].
    apply Z.leb_gt in E. lia. }
  destruct (manage_loop_ended (turns env) self1 env Hinv) as (Hl & Hm & Ho).
  change (reconnect_attempts_limit self1) with limit in *.
  split; [exact Hl |]. split; [exact Hm |].
  destruct (outcome (manage_loop json_loads (turns env) self1 env));
    auto; now elim Hfuel.
Qed.

(** *** Retry exhaustion *)

Definition refuses (ev : ConnectEvent) : Prop := handshake ev <> Connected.

Lemma manage_loop_exhausts (fuel : nat) :
  forall self env,
    ws self = None ->
    Forall refuses (connects env) ->
    0 <= reconnect_attempts self <= reconnect_attempts_limit self ->
    (Z.to_nat (reconnect_attempts_limit self - reconnect_attempts self) <=
     List.length (connects env))%nat ->
    (Z.to_nat (reconnect_attempts_limit self - reconnect_attempts self) < fuel)%nat ->
    outcome (manage_loop json_loads fuel self env) = Returns /\
    handshakes (trace (manage_loop json_loads fuel self env)) =
      Z.to_nat (reconnect_attempts_limit self - reconnect_attempts self) /\
    deliveries (trace (manage_loop json_loads fuel self env)) = [] /\
    recvs (rest (manage_loop json_loads fuel self env)) = recvs env /\
    alerts (trace (manage_loop json_loads fuel self env)) =
      (if _kill_thread (final (manage_loop json_loads fuel self env)) then []
       else [MaxAttemptsExceeded]).
Proof.
  induction fuel as [| fuel IH]; intros self env Hws Hall Ha Hlen Hfuel; [lia |].
  simpl. destruct (reconnect_attempts self <? reconnect_attempts_limit self) eqn:E.
  - apply Z.ltb_lt in E. rewrite Hws.
    destruct (connects env) as [| ev later] eqn:Ec; [simpl in Hlen; lia |].
    inversion Hall as [| ? ? Hev Hlater]; subst.
    pose proof (reconnect_no_alert self ev) as [Na Hfail].
    pose proof (reconnect_facts self ev) as F.
    pose proof (reconnect_attempts_facts self ev) as G.
    destruct (Hfail Hev) as [Hws1 Ha1].
    destruct (reconnect self ev) as [self1 actions]. simpl in Hws1, Ha1, Na.
    destruct F as (D & _). destruct G as (H1 & _ & L1 & _).
    rewrite Hws1. simpl in Hlen.
    destruct (IH self1 (mkEnv later (recvs env))) as (Ho & Hh & Hd & Hr & Hal);
      simpl; auto; try (rewrite ?L1, ?Ha1; lia).
    unfold before. cbn [trace outcome final rest].
    rewrite handshakes_app, deliveries_app, alerts_app, H1, D, Na, Hh, Hd.
    simpl. rewrite L1, Ha1. repeat split; auto. lia.
  - apply Z.ltb_ge in E. unfold leave_loop. simpl.
    replace (reconnect_attempts_limit self - reconnect_attempts self) with 0 by lia.
    destruct (_kill_thread self); repeat split.
Qed.

(** X13.  When every handshake is refused, a run from a handler with no socket
    opens the transport as many times as the limit of attempts (once when
    the limit is not positive), delivers nothing, and returns; its only
    alert is the one of exceeded attempts, sent unless a kill request came
    in. *)
Theorem refused_handshakes_exhaust_the_limit :
  forall (self : KrakenSocketHandler) (pair : jvalue) (callback : Callback) (env : Env),
    is_list pair = true ->
    ws self = None ->
    Forall refuses (connects env) ->
    (Z.to_nat (if (reconnect_attempts_limit self <=? 0)%Z then 1%Z
               else reconnect_attempts_limit self) <= List.length (connects env))%nat ->
    outcome (connect_on_this_thread json_loads self pair (Some callback) env) = Returns /\
    handshakes (trace (connect_on_this_thread json_loads self pair (Some callback) env)) =
      Z.to_nat (if reconnect_attempts_limit self <=? 0 then 1
                else reconnect_attempts_limit self) /\
    deliveries (trace (connect_on_this_thread json_loads self pair (Some callback) env)) =
      [] /\
    alerts (trace (connect_on_this_thread json_loads self pair (Some callback) env)) =
      (if _kill_thread
            (final (connect_on_this_thread json_loads self pair (Some callback) env))
       then [] else [MaxAttemptsExceeded]).
Proof.
  intros self pair callback env Hpair Hws Hall Hlen.
  unfold connect_on_this_thread, run. simpl. rewrite Hpair. simpl.
  unfold _manage_thread. simpl reconnect_attempts_limit.
  set (limit := if reconnect_attempts_limit self <=? 0 then 1
                else reconnect_attempts_limit self) in *.
  assert (Hpos : 0 < limit).
  { unfold limit. destruct (reconnect_attempts_limit self <=? 0) eqn:E; [lia |].
    apply Z.leb_gt in E. lia. }
  match goal with
  | |- context [manage_loop json_loads (turns env) ?s env] =>
      assert (Hex := manage_loop_exhausts (turns env) s env)
  end.
  simpl in Hex. rewrite Z.sub_0_r in Hex.
  destruct Hex as (Ho & Hh & Hd & _ & Hal); auto; try lia.
  unfold turns. lia.
Qed.

(** *** The thread and the kill flag *)

Lemma connected_started (self : KrakenSocketHandler) (env : Env)
      (continue : KrakenSocketHandler -> Env -> Run) :
  (forall s e, started (final (continue s e)) = started s) ->
  started (final (connected json_loads self env continue)) = started self.
Proof.
  intros Hc. unfold connected.
  pose proof (manage_connection_keeps (recvs env) self) as K.
  destruct (_manage_connection json_loads self (recvs env))
    as [[[s' out] actions] remaining].
  destruct K as (Hs & _).
  destruct out; simpl; auto. now rewrite Hc.
Qed.

Lemma manage_loop_started (fuel : nat) :
  forall self env, started (final (manage_loop json_loads fuel self env)) = started self.
Proof.
  induction fuel as [| fuel IH]; intros self env; simpl; [reflexivity |].
  destruct (reconnect_attempts self <? reconnect_attempts_limit self); [| reflexivity].
  destruct (ws self) as [sock |].
  - now apply connected_started.
  - destruct (connects env) as [| ev later]; [reflexivity |].
    pose proof (reconnect_keeps self ev) as K.
    destruct (reconnect self ev) as [self1 actions]. destruct K as (Hs & _).
    simpl. rewrite <- Hs.
    destruct (ws self1); [now apply connected_started | apply IH].
Qed.

(** X14.  The thread of a handler starts once.  Whatever the first
    [connect_as_new_thread] did, the run of the loop or the refusal of its
    arguments by [run], the handler is marked started, and every later
    [connect_as_new_thread] raises [RuntimeError] without touching the
    transport, with any arguments. *)
Theorem thread_starts_once :
  forall (self : KrakenSocketHandler) (pair pair' : jvalue)
         (callback callback' : option Callback) (env env' : Env),
    started (final (connect_as_new_thread json_loads self pair callback env)) = true /\
    connect_as_new_thread json_loads
      (final (connect_as_new_thread json_loads self pair callback env))
      pair' callback' env' =
    mkRun (_init_args (final (connect_as_new_thread json_loads self pair callback env))
                      pair' callback')
          (Raises RuntimeError) [] env'.
Proof.
  intros self pair pair' callback callback' env env'.
  assert (H : started (final (connect_as_new_thread json_loads self pair callback env))
              = true).
  { unfold connect_as_new_thread. simpl.
    destruct (started self) eqn:S; [exact S |].
    unfold run. simpl. destruct (negb (is_list pair)); [reflexivity |].
    destruct callback; [| reflexivity].
    unfold _manage_thread. now rewrite manage_loop_started. }
  split; [exact H |].
  unfold connect_as_new_thread at 1. simpl. now rewrite H.
Qed.

(** X15.  A kill request made before [connect_on_this_thread] is lost: the call
    clears the flag and runs as if the request had not been made.  Made
    before [connect_as_new_thread] it stands: the run delivers nothing. *)
Theorem kill_before_connect :
  forall (self : KrakenSocketHandler) (pair : jvalue) (callback : option Callback)
         (env : Env),
    connect_on_this_thread json_loads (kill_on_next_receiv self) pair callback env =
    connect_on_this_thread json_loads self pair callback env /\
    deliveries (trace (connect_as_new_thread json_loads (kill_on_next_receiv self)
                         pair callback env)) = [].
Proof.
  intros self pair callback env. split; [reflexivity |].
  unfold connect_as_new_thread. simpl.
  destruct (started self); [reflexivity |].
  unfold run. simpl. destruct (negb (is_list pair)); [reflexivity |].
  destruct callback; [| reflexivity].
  unfold _manage_thread. now apply manage_loop_killed.
Qed.

End Runs.

(** *** Runs on scripts *)

(** Five refused handshakes under the limit of 3: three are made. *)
Lemma refused_handshakes_exhaust_the_limit_witness :
  outcome (connect_on_this_thread loads new_handler pairs (Some subscriber)
             (mkEnv [refused; refused; refused; refused; refused] [plain "[3]"])) =
    Returns /\
  handshakes (trace (connect_on_this_thread loads new_handler pairs (Some subscriber)
                       (mkEnv [refused; refused; refused; refused; refused]
                              [plain "[3]"]))) =
    Z.to_nat (if reconnect_attempts_limit new_handler <=? 0 then 1
              else reconnect_attempts_limit new_handler) /\
  deliveries (trace (connect_on_this_thread loads new_handler pairs (Some subscriber)
                       (mkEnv [refused; refused; refused; refused; refused]
                              [plain "[3]"]))) = [] /\
  alerts (trace (connect_on_this_thread loads new_handler pairs (Some subscriber)
                   (mkEnv [refused; refused; refused; refused; refused]
                          [plain "[3]"]))) =
    (if _kill_thread
          (final (connect_on_this_thread loads new_handler pairs (Some subscriber)
                    (mkEnv [refused; refused; refused; refused; refused]
                           [plain "[3]"])))
     then [] else [MaxAttemptsExceeded]).
Proof.
  apply (refused_handshakes_exhaust_the_limit loads new_handler pairs subscriber
           (mkEnv [refused; refused; refused; refused; refused] [plain "[3]"])).
  - reflexivity.
  - reflexivity.
  - repeat constructor; discriminate.
  - vm_compute. lia.
Defined.

(** A disconnect between two arrays, then a kill request: both arrays are
    delivered, over two connections. *)
Example delivery_resumes_after_reconnect :
  trace (connect_on_this_thread loads new_handler pairs (Some subscriber)
           (mkEnv [mkConnect Connected false; mkConnect Connected false]
                  [plain "[3]"; plain "oops"; mkRecv (Ok "[1, 2]"%string) true None false])) =
    [LogConnecting; OpenTransport; LogSubscribing; SendSubscribe pairs;
     Deliver (JList [JInt 3]); CloseSocket;
     Alert (Disconnected JSONDecodeError (Some "oops"%string));
     LogConnecting; OpenTransport; LogSubscribing; SendSubscribe pairs;
     KillRequested; Deliver (JList [JInt 1; JInt 2])] /\
  outcome (connect_on_this_thread loads new_handler pairs (Some subscriber)
             (mkEnv [mkConnect Connected false; mkConnect Connected false]
                    [plain "[3]"; plain "oops";
                     mkRecv (Ok "[1, 2]"%string) true None false])) = Raises TypeError.
Proof. split; vm_compute; reflexivity. Qed.

End KrakenSocketProperties.

(** ** Kraken: markets, pairs and decoded trades *)

Module KrakenMarkets.

Import KrakenTicket.

Definition _markets_available : list string :=
  ["btc"; "eth"; "bch"; "ltc"]%string.

(** [_validate_market_name] *)
Definition _validate_market_name (market : string) : result unit :=
  if existsb (String.eqb market) _markets_available then Ok tt
  else Raise ValueError.

(** The dict [_kraken_mapper], subscripted by a market name. *)
Definition _kraken_mapper (market : string) : option KrakenHistorical.KrakenMarketConfig :=
  if String.eqb market "btc" then Some (KrakenHistorical.mkMarketConfig "XBT/USD" "XBTUSD" "XXBTZUSD" "btc" None)
  else if String.eqb market "eth" then Some (KrakenHistorical.mkMarketConfig "ETH/USD" "ETHUSD" "XETHZUSD" "eth" None)
  else if String.eqb market "bch" then Some (KrakenHistorical.mkMarketConfig "BCH/USD" "BCHUSD" "BCHUSD" "bch" None)
  else if String.eqb market "ltc" then Some (KrakenHistorical.mkMarketConfig "LTC/USD" "LTCUSD" "XLTCZUSD" "ltc" None)
  else None.

(** The defaults of the dataclass [KrakenConfig], read with [getattr]. *)
Definition KrakenConfig (market : string) : option KrakenHistorical.KrakenMarketConfig :=
  if String.eqb market "btc" then Some (KrakenHistorical.mkMarketConfig "XBT/USD" "XBTUSD" "XXBTZUSD" "btc" None)
  else if String.eqb market "eth" then Some (KrakenHistorical.mkMarketConfig "ETH/USD" "ETHUSD" "XETHZUSD" "eth" None)
  else if String.eqb market "bch" then Some (KrakenHistorical.mkMarketConfig "BCH/USD" "BCHUSD" "BCHUSD" "bch" None)
  else if String.eqb market "ltc" then Some (KrakenHistorical.mkMarketConfig "LTC/USD" "LTCUSD" "XLTCZUSD" "ltc" None)
  else None.

Lemma validated_market (market : string) :
  _validate_market_name market = Ok tt ->
  market = "btc"%string \/ market = "eth"%string \/
  market = "bch"%string \/ market = "ltc"%string.
Proof.
  unfold _validate_market_name, _markets_available. simpl.
  destruct (String.eqb market "btc") eqn:B; [apply String.eqb_eq in B; auto |].
  destruct (String.eqb market "eth") eqn:E; [apply String.eqb_eq in E; auto |].
  destruct (String.eqb market "bch") eqn:C; [apply String.eqb_eq in C; auto |].
  destruct (String.eqb market "ltc") eqn:L; [apply String.eqb_eq in L; auto |].
  discriminate.
Qed.

(** X16.  The tables of the module agree.  Every market name that
    [_validate_market_name] accepts has an entry in [_kraken_mapper] and the
    same entry in [KrakenConfig]; the entry carries the name as its key; and
    the pair it subscribes to is mapped back to the name by the decoder of
    trade messages. *)
Theorem market_tables_agree :
  forall (market : string),
    _validate_market_name market = Ok tt ->
    exists config,
      _kraken_mapper market = Some config /\
      KrakenConfig market = Some config /\
      KrakenHistorical.key config = market /\
      mapper (JStr (KrakenHistorical.subscription_pair config)) = Ok market.
Proof.
  intros market H.
  destruct (validated_market market H) as [-> | [-> | [-> | ->]]];
    eexists; repeat split; reflexivity.
Qed.

Lemma market_tables_agree_witness :
  exists config,
    _kraken_mapper "eth" = Some config /\
    KrakenConfig "eth" = Some config /\
    KrakenHistorical.key config = "eth"%string /\
    mapper (JStr (KrakenHistorical.subscription_pair config)) = Ok "eth"%string.
Proof. apply (market_tables_agree "eth"). reflexivity. Defined.

Lemma mapper_known (k : jvalue) (name : string) :
  mapper k = Ok name ->
  exists pair config,
    k = JStr pair /\ _kraken_mapper name = Some config /\
    KrakenHistorical.subscription_pair config = pair /\ _validate_market_name name = Ok tt.
Proof.
  destruct k; simpl; try discriminate.
  destruct (String.eqb s "XBT/USD") eqn:B.
  { apply String.eqb_eq in B. subst. intros X. injection X as <-.
    eexists _, _. repeat split; reflexivity. }
  destruct (String.eqb s "ETH/USD") eqn:E.
  { apply String.eqb_eq in E. subst. intros X. injection X as <-.
    eexists _, _. repeat split; reflexivity. }
  destruct (String.eqb s "BCH/USD") eqn:C.
  { apply String.eqb_eq in C. subst. intros X. injection X as <-.
    eexists _, _. repeat split; reflexivity. }
  destruct (String.eqb s "LTC/USD") eqn:L.
  { apply String.eqb_eq in L. subst. intros X. injection X as <-.
    eexists _, _. repeat split; reflexivity. }
  discriminate.
Qed.

Section Decoded.

Variable Constants : KrakenConstants.
Variable py_float : jvalue -> conversion float.

(** X17.  A decoded trade always names a market the module knows, read from one
    of the four subscription pairs, and comes from a message with at least
    one trade tuple. *)
Theorem decoded_trade_is_of_a_known_market :
  forall (socket_trade : jvalue) (trade : Trade),
    _ticket_list_to_dict Constants py_float socket_trade = Ok trade ->
    _validate_market_name (market trade) = Ok tt /\
    (exists pair config,
       subscript socket_trade (MARKET_INDEX Constants) = Ok (JStr pair) /\
       _kraken_mapper (market trade) = Some config /\
       KrakenHistorical.subscription_pair config = pair) /\
    (exists trade_list entries,
       subscript socket_trade (TRADE_LIST Constants) = Ok trade_list /\
       iterate trade_list = Ok entries /\
       entries <> []).
Proof.
  intros socket_trade trade. unfold _ticket_list_to_dict.
  destruct (subscript socket_trade (TRADE_LIST Constants)) as [tl | e] eqn:Htl;
    simpl; [| discriminate].
  destruct (subscript socket_trade (MARKET_INDEX Constants)) as [pr | e]; simpl;
    [| discriminate].
  destruct (mapper pr) as [name | e] eqn:Hm; simpl; [| discriminate].
  destruct (subscript tl (-1)) as [le | e] eqn:Hle; simpl; [| discriminate].
  destruct (float_at py_float le (TIME_INDEX Constants)) as [t | e]; simpl;
    [| discriminate].
  destruct (float_at py_float le (PRICE_INDEX Constants)) as [p | e]; simpl;
    [| discriminate].
  destruct (iterate tl) as [entries | e] eqn:Hit; simpl; [| discriminate].
  destruct (add_volumes Constants py_float 0 entries) as [total | e]; simpl;
    [| discriminate].
  intros X. injection X as <-. simpl.
  destruct (mapper_known _ _ Hm) as (pair & config & -> & Hc & Hp & Hv).
  split; [exact Hv |]. split; [now exists pair, config |].
  exists tl, entries. split; [reflexivity |]. split; [exact Hit |].
  intros ->. destruct tl as [| | | | s | items | fields];
    simpl in Hit, Hle; try discriminate.
  - destruct s; simpl in Hit, Hle; discriminate.
  - injection Hit as ->. discriminate.
Qed.

(** X18.  What [_ticket_list_to_dict] raises on a message it cannot decode:
    [KeyError] for a pair name that is none of the four, before the trade
    tuples are looked at, and [IndexError] for a known pair with no trade
    tuple. *)
Theorem undecodable_ticket_raises :
  forall (socket_trade trade_list : jvalue) (pair : string),
    subscript socket_trade (TRADE_LIST Constants) = Ok trade_list ->
    subscript socket_trade (MARKET_INDEX Constants) = Ok (JStr pair) ->
    (mapper (JStr pair) = Raise KeyError ->
     _ticket_list_to_dict Constants py_float socket_trade = Raise KeyError) /\
    (forall name, mapper (JStr pair) = Ok name -> trade_list = JList [] ->
     _ticket_list_to_dict Constants py_float socket_trade = Raise IndexError).
Proof.
  intros socket_trade trade_list pair Htl Hp. unfold _ticket_list_to_dict.
  rewrite Htl, Hp. cbv beta iota delta [Py.bind]. split.
  - intros H. now rewrite H.
  - intros name H E. rewrite H. subst trade_list. reflexivity.
Qed.

End Decoded.

(** A trade of a pair the handler did not subscribe to, and a trade message
    with no tuple. *)
Lemma undecodable_ticket_raises_witness :
  (mapper (JStr "XRP/USD") = Raise KeyError ->
   _ticket_list_to_dict spec_constants float_builtin
     (JList [JStr "XRP/USD"; JList []]) = Raise KeyError) /\
  (forall name, mapper (JStr "XRP/USD") = Ok name -> JList [] = JList [] ->
   _ticket_list_to_dict spec_constants float_builtin
     (JList [JStr "XRP/USD"; JList []]) = Raise IndexError).
Proof.
  apply (undecodable_ticket_raises spec_constants float_builtin
           (JList [JStr "XRP/USD"; JList []]) (JList []) "XRP/USD"); reflexivity.
Defined.

Lemma decoded_trade_is_of_a_known_market_witness :
  _validate_market_name (market (mkTrade "btc" 20 200 3.5)) = Ok tt /\
  (exists pair config,
     subscript (two_trades "100.0" "10.0") (MARKET_INDEX spec_constants) =
       Ok (JStr pair) /\
     _kraken_mapper (market (mkTrade "btc" 20 200 3.5)) = Some config /\
     KrakenHistorical.subscription_pair config = pair) /\
  (exists trade_list entries,
     subscript (two_trades "100.0" "10.0") (TRADE_LIST spec_constants) = Ok trade_list /\
     iterate trade_list = Ok entries /\
     entries <> []).
Proof.
  apply (decoded_trade_is_of_a_known_market spec_constants float_builtin
           (two_trades "100.0" "10.0") (mkTrade "btc" 20 200 3.5)).
  vm_compute; reflexivity.
Defined.

Example empty_ticket_raises :
  _ticket_list_to_dict spec_constants float_builtin
    (JList [JStr "XBT/USD"; JList []]) = Raise IndexError.
Proof. reflexivity. Qed.

End KrakenMarkets.

(** ** Kraken: a parsed page and the cursors read from it *)

Module KrakenPages.

Import KrakenHistorical.

(** [get_most_recent_entry_ts] *)
Definition get_most_recent_entry_ts (data_list : list ParsedCandle) : result jvalue :=
  let* entry := py_index data_list (-1) in
  Ok (timestamp entry).

(** [get_older_entry_ts] *)
Definition get_older_entry_ts (data_list : list ParsedCandle) : result jvalue :=
  let* entry := py_index data_list 0 in
  Ok (timestamp entry).

Section Pages.

Variable Constants : KrakenConstants.
Variable py_lt : jvalue -> jvalue -> result bool.

Lemma map_result_length {A B : Type} (f : A -> result B) (l : list A) :
  forall out, map_result f l = Ok out -> List.length out = List.length l.
Proof.
  induction l as [| x l IH]; intros out H; simpl in H.
  - now injection H as <-.
  - destruct (f x) as [y | e]; simpl in H; [| discriminate].
    destruct (map_result f l) as [ys | e]; simpl in H; [| discriminate].
    injection H as <-. simpl. now rewrite (IH ys).
Qed.

(** How a page that parses is put together. *)
Lemma parse_cases (response : jvalue) (market_config : option KrakenMarketConfig)
      (out : list ParsedCandle) :
  parse_response_to_list Constants py_lt response market_config = Ok out ->
  exists result config response_list rows front trailing last uncommitted,
    subscript_key response "result" = Ok result /\
    market_config = Some config /\
    subscript_key result (response_key config) = Ok response_list /\
    iterate response_list = Ok rows /\
    map_result (mapper Constants) rows = Ok (front ++ [trailing]) /\
    subscript_key result "last" = Ok last /\
    py_lt last (timestamp trailing) = Ok uncommitted /\
    out = (if uncommitted then front else front ++ [trailing]).
Proof.
  unfold parse_response_to_list.
  destruct (subscript_key response "result") as [result | e] eqn:Hres; simpl;
    [| discriminate].
  destruct market_config as [config |]; simpl; [| discriminate].
  destruct (subscript_key result (response_key config)) as [rl | e] eqn:Hrl; simpl;
    [| discriminate].
  destruct (iterate rl) as [rows | e] eqn:Hrows; simpl; [| discriminate].
  destruct (map_result (mapper Constants) rows) as [parsed | e] eqn:Hparsed; simpl;
    [| discriminate].
  destruct (subscript_key result "last") as [last |] eqn:Hlast; simpl; [| discriminate].
  destruct parsed as [| c parsed]; [discriminate |].
  destruct (exists_last (l := c :: parsed)) as (front & trailing & E); [discriminate |].
  rewrite E in *. rewrite py_index_last. simpl.
  destruct (py_lt last (timestamp trailing)) as [b |] eqn:Hlt; simpl; [| discriminate].
  intros X. injection X as <-.
  exists result, config, rl, rows, front, trailing, last, b.
  repeat split; auto.
  unfold pop. now rewrite removelast_last.
Qed.

(** X19.  A page loses at most its trailing candle.  When
    [parse_response_to_list] returns, the entry of the market in the result
    of the response iterates to at least one row, every row was mapped, and
    what is returned is the mapped rows in order, all of them or all but the
    last. *)
Theorem page_loses_at_most_its_trailing_candle :
  forall (response : jvalue) (market_config : option KrakenMarketConfig)
         (out : list ParsedCandle),
    parse_response_to_list Constants py_lt response market_config = Ok out ->
    exists result config response_list rows parsed,
      subscript_key response "result" = Ok result /\
      market_config = Some config /\
      subscript_key result (response_key config) = Ok response_list /\
      iterate response_list = Ok rows /\
      rows <> [] /\
      map_result (mapper Constants) rows = Ok parsed /\
      List.length parsed = List.length rows /\
      (out = parsed \/ out = removelast parsed).
Proof.
  intros response market_config out H.
  destruct (parse_cases _ _ _ H)
    as (result & config & rl & rows & front & trailing & last & b &
        Hres & Hcfg & Hrl & Hrows & Hparsed & _ & _ & ->).
  exists result, config, rl, rows, (front ++ [trailing]).
  pose proof (map_result_length _ _ _ Hparsed) as Hlen.
  repeat (split; [assumption |]).
  split.
  - intros ->. rewrite length_app in Hlen. simpl in Hlen. lia.
  - split; [exact Hparsed |]. split; [exact Hlen |].
    rewrite removelast_last. destruct b; auto.
Qed.

Lemma most_recent_of (l : list ParsedCandle) :
  get_most_recent_entry_ts l =
  match rev l with
  | [] => Raise IndexError
  | entry :: _ => Ok (timestamp entry)
  end.
Proof.
  unfold get_most_recent_entry_ts.
  destruct l as [| c l]; [reflexivity |].
  destruct (exists_last (l := c :: l)) as (front & trailing & E); [discriminate |].
  rewrite E, py_index_last, rev_app_distr. reflexivity.
Qed.

Lemma older_of (l : list ParsedCandle) :
  get_older_entry_ts l =
  match l with
  | [] => Raise IndexError
  | entry :: _ => Ok (timestamp entry)
  end.
Proof.
  unfold get_older_entry_ts, py_index.
  destruct l as [| c l]; [reflexivity |].
  replace (0 <? 0) with false by reflexivity.
  replace ((0 <=? 0) && (0 <? Z.of_nat (List.length (c :: l)))) with true.
  - reflexivity.
  - symmetry. apply andb_true_iff. split; [reflexivity |].
    apply Z.ltb_lt. simpl List.length. lia.
Qed.

(** X20.  The cursors read from a parsed page.  When
    [parse_response_to_list] returns, the rows of the page were mapped to
    candles [front] and a trailing one; the most recent timestamp read from
    what is returned is the one of the trailing candle when it was kept and
    of the last candle of [front] when it was dropped, and the oldest is the
    one of the first candle of the page.  On a page whose only row was
    dropped both getters raise [IndexError]. *)
Theorem cursors_of_a_parsed_page :
  forall (response : jvalue) (market_config : option KrakenMarketConfig)
         (out : list ParsedCandle),
    parse_response_to_list Constants py_lt response market_config = Ok out ->
    exists result config response_list rows front trailing last uncommitted,
      subscript_key response "result" = Ok result /\
      market_config = Some config /\
      subscript_key result (response_key config) = Ok response_list /\
      iterate response_list = Ok rows /\
      map_result (mapper Constants) rows = Ok (front ++ [trailing]) /\
      subscript_key result "last" = Ok last /\
      py_lt last (timestamp trailing) = Ok uncommitted /\
      out = (if uncommitted then front else front ++ [trailing]) /\
      get_most_recent_entry_ts out =
        (if uncommitted
         then match rev front with
              | [] => Raise IndexError
              | entry :: _ => Ok (timestamp entry)
              end
         else Ok (timestamp trailing)) /\
      get_older_entry_ts out =
        match front with
        | entry :: _ => Ok (timestamp entry)
        | [] => if uncommitted then Raise IndexError else Ok (timestamp trailing)
        end.
Proof.
  intros response market_config out H.
  destruct (parse_cases _ _ _ H)
    as (result & config & rl & rows & front & trailing & last & b &
        Hres & Hcfg & Hrl & Hrows & Hparsed & Hlast & Hlt & ->).
  exists result, config, rl, rows, front, trailing, last, b.
  repeat (split; [assumption |]).
  split; [reflexivity |]. split.
  - rewrite most_recent_of. destruct b; [reflexivity |].
    now rewrite rev_app_distr.
  - rewrite older_of. now destruct b, front.
Qed.

(** X21.  What [parse_response_to_list] raises on a response that has a
    result, before it compares anything: [AttributeError] for a missing
    market config, [KeyError] for a result with no entry for the market,
    and [IndexError] for a page with no row whose result has a [last]. *)
Theorem unparsable_page_raises :
  forall (response result : jvalue) (config : KrakenMarketConfig),
    subscript_key response "result" = Ok result ->
    parse_response_to_list Constants py_lt response None = Raise AttributeError /\
    (subscript_key result (response_key config) = Raise KeyError ->
     parse_response_to_list Constants py_lt response (Some config) = Raise KeyError) /\
    (forall response_list last,
       subscript_key result (response_key config) = Ok response_list ->
       iterate response_list = Ok [] ->
       subscript_key result "last" = Ok last ->
       parse_response_to_list Constants py_lt response (Some config) = Raise IndexError).
Proof.
  intros response result config Hres. unfold parse_response_to_list.
  rewrite Hres. cbv beta iota delta [Py.bind]. split; [reflexivity |]. split.
  - intros H. now rewrite H.
  - intros rl last Hrl Hit Hlast. now rewrite Hrl, Hit, Hlast.
Qed.

End Pages.

(** The page of three candles with the boundary 200: the candle at 300 is
    dropped. *)
Lemma page_loses_at_most_its_trailing_candle_witness :
  exists result config response_list rows parsed,
    subscript_key (page 200) "result" = Ok result /\
    Some btc = Some config /\
    subscript_key result (response_key config) = Ok response_list /\
    iterate response_list = Ok rows /\
    rows <> [] /\
    map_result (mapper spec_constants) rows = Ok parsed /\
    List.length parsed = List.length rows /\
    ([parsed_row 100; parsed_row 200] = parsed \/
     [parsed_row 100; parsed_row 200] = removelast parsed).
Proof.
  apply (page_loses_at_most_its_trailing_candle spec_constants int_lt
           (page 200) (Some btc) [parsed_row 100; parsed_row 200]).
  vm_compute; reflexivity.
Defined.

(** On that page the cursors are 200 and 100. *)
Lemma cursors_of_a_parsed_page_witness :
  parse_response_to_list spec_constants int_lt (page 200) (Some btc) =
    Ok [parsed_row 100; parsed_row 200] /\
  get_most_recent_entry_ts [parsed_row 100; parsed_row 200] = Ok (JInt 200) /\
  get_older_entry_ts [parsed_row 100; parsed_row 200] = Ok (JInt 100).
Proof.
  assert (H : parse_response_to_list spec_constants int_lt (page 200) (Some btc) =
              Ok [parsed_row 100; parsed_row 200]) by (vm_compute; reflexivity).
  split; [exact H |].
  destruct (cursors_of_a_parsed_page spec_constants int_lt (page 200) (Some btc)
              [parsed_row 100; parsed_row 200] H)
    as (result & config & rl & rows & front & trailing & last & b &
        Hres & Hcfg & Hrl & Hrows & Hparsed & Hlast & Hlt & Hout & Hrecent & Holder).
  injection Hcfg as <-.
  vm_compute in Hres. injection Hres as <-.
  vm_compute in Hrl. injection Hrl as <-.
  vm_compute in Hrows. injection Hrows as <-.
  assert (E : map_result (mapper spec_constants) [row 100; row 200; row 300] =
              Ok ([parsed_row 100; parsed_row 200] ++ [parsed_row 300]))
    by (vm_compute; reflexivity).
  pose proof (eq_trans (eq_sym E) Hparsed) as Hp. injection Hp as Hp.
  change ([parsed_row 100; parsed_row 200] ++ [parsed_row 300] = front ++ [trailing])
    in Hp.
  apply app_inj_tail in Hp as [<- <-].
  vm_compute in Hlast. injection Hlast as <-.
  vm_compute in Hlt. injection Hlt as <-.
  split; [exact Hrecent | exact Holder].
Defined.

(** A page whose only candle lies after the boundary: nothing comes back,
    and both getters raise. *)
Definition single_row_page : jvalue :=
  JObj [("result"%string,
         JObj [("XXBTZUSD"%string, JList [row 300]); ("last"%string, JInt 200)])].

Example cursors_of_an_emptied_page :
  parse_response_to_list spec_constants int_lt single_row_page (Some btc) = Ok [] /\
  get_most_recent_entry_ts [] = Raise IndexError /\
  get_older_entry_ts (@nil ParsedCandle) = Raise IndexError.
Proof. repeat split; vm_compute; reflexivity. Qed.

Lemma unparsable_page_raises_witness :
  parse_response_to_list spec_constants int_lt
    (JObj [("result"%string, JObj [("XXBTZUSD"%string, JList []);
                                   ("last"%string, JInt 0)])]) None =
    Raise AttributeError /\
  (subscript_key (JObj [("XXBTZUSD"%string, JList []); ("last"%string, JInt 0)])
     (response_key btc) = Raise KeyError ->
   parse_response_to_list spec_constants int_lt
     (JObj [("result"%string, JObj [("XXBTZUSD"%string, JList []);
                                    ("last"%string, JInt 0)])]) (Some btc) =
     Raise KeyError) /\
  (forall response_list last,
     subscript_key (JObj [("XXBTZUSD"%string, JList []); ("last"%string, JInt 0)])
       (response_key btc) = Ok response_list ->
     iterate response_list = Ok [] ->
     subscript_key (JObj [("XXBTZUSD"%string, JList []); ("last"%string, JInt 0)])
       "last" = Ok last ->
     parse_response_to_list spec_constants int_lt
       (JObj [("result"%string, JObj [("XXBTZUSD"%string, JList []);
                                      ("last"%string, JInt 0)])]) (Some btc) =
     Raise IndexError).
Proof.
  apply (unparsable_page_raises spec_constants int_lt
           (JObj [("result"%string, JObj [("XXBTZUSD"%string, JList []);
                                          ("last"%string, JInt 0)])])
           (JObj [("XXBTZUSD"%string, JList []); ("last"%string, JInt 0)]) btc).
  reflexivity.
Defined.

Example empty_page_raises :
  parse_response_to_list spec_constants int_lt
    (JObj [("result"%string, JObj [("XXBTZUSD"%string, JList []);
                                   ("last"%string, JInt 0)])]) (Some btc) =
  Raise IndexError.
Proof. reflexivity. Qed.

End KrakenPages.
